(** * Blog API: authentication, list pipeline and soft-delete lifecycle

    A shallow embedding of the server side of the blog platform
    (services, controllers, middlewares and route tables) together with
    the properties of its specification that concern token
    authentication, role checks, the list-query pipeline, the soft-delete
    state machines and the referential guard on authors.

    Conventions of the embedding.
    - A MongoDB collection is the list of its documents in insertion
      order; an ObjectId is a natural number handed out by a counter.
    - [new Date()] is the parameter [now] (milliseconds since the epoch).
    - JavaScript numbers that the code computes with are integers or NaN;
      they are modelled exactly (type [JSNum]), which agrees with IEEE
      doubles up to 2^53.
    - Strings are ASCII byte strings; [trim] removes the ASCII white space
      characters.
    - bcrypt, the JWT codec and the store's matching and ordering of
      documents are libraries outside the repository: they are section
      variables. *)

From stdpp Require Import base option list strings gmap.
From Stdlib Require Import ZArith Ascii String DecimalString DecimalPos Lia.

Open Scope Z_scope.
Open Scope string_scope.

(** ** Strings as JavaScript uses them *)

Module JsString.

Definition isWhiteSpace (c : ascii) : bool :=
  let n := nat_of_ascii c in
  ((9 <=? n)%nat && (n <=? 13)%nat) || (n =? 32)%nat.

Fixpoint trimStart (s : string) : string :=
  match s with
  | String c r => if isWhiteSpace c then trimStart r else s
  | EmptyString => EmptyString
  end.

Fixpoint rev_acc (s acc : string) : string :=
  match s with
  | String c r => rev_acc r (String c acc)
  | EmptyString => acc
  end.

Definition reverse (s : string) : string := rev_acc s EmptyString.

Definition trimEnd (s : string) : string := reverse (trimStart (reverse s)).

(** [s.trim()] *)
Definition trim (s : string) : string := trimEnd (trimStart s).

Definition lowerChar (c : ascii) : ascii :=
  let n := nat_of_ascii c in
  if ((65 <=? n)%nat && (n <=? 90)%nat)%bool then ascii_of_nat (n + 32) else c.

(** [s.toLowerCase()] *)
Fixpoint toLowerCase (s : string) : string :=
  match s with
  | String c r => String (lowerChar c) (toLowerCase r)
  | EmptyString => EmptyString
  end.

(** [s.startsWith(p)] *)
Definition startsWith (p s : string) : bool := String.prefix p s.

(** [s.split(" ")] *)
Fixpoint split_acc (s cur : string) : list string :=
  match s with
  | String c r =>
      if Ascii.eqb c " "%char then reverse cur :: split_acc r EmptyString
      else split_acc r (String c cur)
  | EmptyString => [reverse cur]
  end.

Definition splitSpace (s : string) : list string := split_acc s EmptyString.

(** [l.join(",")] *)
Fixpoint joinComma (l : list string) : string :=
  match l with
  | [] => ""
  | [x] => x
  | x :: r => x ++ "," ++ joinComma r
  end.

Definition isEmpty (s : string) : bool :=
  match s with EmptyString => true | _ => false end.

End JsString.

(** ** JavaScript numbers: an integer or NaN

    A JavaScript number is a double.  Every integer of magnitude up to
    [2^53 - 1] ([Number.MAX_SAFE_INTEGER]) is one, and on such integers
    [parseInt], [Math.max], [Math.min], [-] and [*] are exact as long as
    their result is such an integer too: that is the range in which
    [Num z] and the operations of [JsMath] are the JavaScript ones.
    Beyond it JavaScript rounds to the nearest double, which the
    operations below do not; a statement that depends on the value of a
    number read from a request is stated for [JsMath.safe] numbers. *)

Inductive JSNum := NaN | Num (z : Z).

#[global] Instance JSNum_eq_dec : EqDecision JSNum.
Proof. solve_decision. Defined.

Module JsMath.

(** [Number.MAX_SAFE_INTEGER] and the integers that a double holds
    exactly together with their neighbours. *)
Definition MAX_SAFE_INTEGER : Z := 2 ^ 53 - 1.

Definition safe (z : Z) : Prop := - MAX_SAFE_INTEGER <= z <= MAX_SAFE_INTEGER.

Definition digitOf (c : ascii) : option Z :=
  let n := nat_of_ascii c in
  if ((48 <=? n)%nat && (n <=? 57)%nat)%bool then Some (Z.of_nat (n - 48)) else None.

(** The longest prefix of decimal digits, read as a number; [None]
    when the string does not start with a digit. *)
Fixpoint digits (s : string) (acc : option Z) : option Z :=
  match s with
  | String c r =>
      match digitOf c with
      | Some d => digits r (Some (10 * default 0 acc + d))
      | None => acc
      end
  | EmptyString => acc
  end.

(** [parseInt(s, 10)]: leading white space is skipped, one sign is
    read, then the longest run of digits; no digit gives NaN. *)
Definition parseInt (s : string) : JSNum :=
  let s1 := JsString.trimStart s in
  let '(neg, s2) :=
    match s1 with
    | String "-"%char r => (true, r)
    | String "+"%char r => (false, r)
    | _ => (false, s1)
    end in
  match digits s2 None with
  | Some n => Num (if neg : bool then - n else n)
  | None => NaN
  end.

(** [Math.max(a, b)] and [Math.min(a, b)]: NaN if either argument is. *)
Definition max (a b : JSNum) : JSNum :=
  match a, b with
  | Num x, Num y => Num (Z.max x y)
  | _, _ => NaN
  end.

Definition min (a b : JSNum) : JSNum :=
  match a, b with
  | Num x, Num y => Num (Z.min x y)
  | _, _ => NaN
  end.

Definition sub (a b : JSNum) : JSNum :=
  match a, b with
  | Num x, Num y => Num (x - y)
  | _, _ => NaN
  end.

Definition mul (a b : JSNum) : JSNum :=
  match a, b with
  | Num x, Num y => Num (x * y)
  | _, _ => NaN
  end.

(** Ceiling of the quotient of two integers, for a positive or
    negative divisor. *)
Definition ceilQuot (a b : Z) : Z := - ((- a) / b).

(** [Math.ceil(a / b)].  A zero divisor gives an infinity or NaN in
    JavaScript; the list services only divide by the [limit] computed
    by [paginate], which is never zero (lemma [paginate_limit_not_zero]),
    and the case is mapped to NaN here. *)
Definition ceilDiv (a b : JSNum) : JSNum :=
  match a, b with
  | Num x, Num y => if (y =? 0)%Z then NaN else Num (ceilQuot x y)
  | _, _ => NaN
  end.

End JsMath.

(** ** Values of the parsed query string ([req.query]) *)

Inductive QVal :=
| QStr (s : string)
| QArr (l : list string)
| QObj.

#[global] Instance QVal_eq_dec : EqDecision QVal.
Proof. solve_decision. Defined.

Module JsValue.

(** [String(v)] *)
Definition toString (v : QVal) : string :=
  match v with
  | QStr s => s
  | QArr l => JsString.joinComma l
  | QObj => "[object Object]"
  end.

(** Truthiness of a property that may be absent. *)
Definition truthy (v : option QVal) : bool :=
  match v with
  | Some (QStr s) => negb (JsString.isEmpty s)
  | Some _ => true
  | None => false
  end.

(** [v || d] *)
Definition orElse (v : option QVal) (d : QVal) : QVal :=
  match v with
  | Some x => if truthy v then x else d
  | None => d
  end.

End JsValue.

(** ** Errors ([utils/AppError.ts], [middlewares/errorHandler.ts]) *)

(** A thrown JavaScript error.  [statusCode] is present on an [AppError]
    and absent on the errors of the libraries (zod, mongoose, the
    MongoDB driver, jsonwebtoken). *)
Record JsError := { message : string; statusCode : option nat }.

#[global] Instance JsError_eq_dec : EqDecision JsError.
Proof. solve_decision. Defined.

(** [new AppError(message, statusCode)] *)
Definition AppError (msg : string) (code : nat) : JsError :=
  {| message := msg; statusCode := Some code |}.

(** An error thrown by a library. *)
Definition LibError (msg : string) : JsError :=
  {| message := msg; statusCode := None |}.

(** [errorHandler]: [err.statusCode || 500] and
    [err.message || 'Internal Server Error']. *)
Definition errorHandler (err : JsError) : nat * string :=
  (match statusCode err with
   | Some (S n) => S n
   | _ => 500%nat
   end,
   if JsString.isEmpty (message err) then "Internal Server Error" else message err).

Inductive Outcome (A : Type) :=
| Ok (a : A)
| Throw (e : JsError).
Arguments Ok {A} a.
Arguments Throw {A} e.

(** Two names of the specification's error taxonomy, by the status code
    the handler reports. *)
Definition isForbidden (e : JsError) : Prop := statusCode e = Some 403%nat.
Definition isValidationFailed (e : JsError) : Prop := statusCode e = Some 400%nat.

(** ** Documents ([models/User.ts], [models/Author.ts], [models/Post.ts]) *)

Definition ObjectId := nat.
Definition Date := Z.

Inductive Role := admin | super_admin.

#[global] Instance Role_eq_dec : EqDecision Role.
Proof. solve_decision. Defined.

(** The role as the string stored in the document and in the token. *)
Definition roleName (r : Role) : string :=
  match r with
  | admin => "admin"
  | super_admin => "super_admin"
  end.

Inductive PostStatus := draft | published | deleted.

#[global] Instance PostStatus_eq_dec : EqDecision PostStatus.
Proof. solve_decision. Defined.

Inductive AuthorStatus := active | removed.

#[global] Instance AuthorStatus_eq_dec : EqDecision AuthorStatus.
Proof. solve_decision. Defined.

Module User.
Record doc := mk {
  _id : ObjectId;
  name : string;
  email : string;
  password : string;
  role : Role;
  isActive : bool;
  deletedAt : option Date;
  createdAt : Date;
  updatedAt : Date
}.
End User.

Module Author.
Record doc := mk {
  _id : ObjectId;
  name : string;
  email : string;
  bio : string;
  status : AuthorStatus;
  deletedAt : option Date;
  createdAt : Date;
  updatedAt : Date
}.
End Author.

Module Post.
Record doc := mk {
  _id : ObjectId;
  title : string;
  slug : string;
  content : string;
  image : string;
  status : PostStatus;
  tags : list string;
  author : ObjectId;
  publishedAt : option Date;
  deletedAt : option Date;
  createdAt : Date;
  updatedAt : Date
}.
End Post.

(** The database: three collections and the ObjectId counter. *)
Record Store := mkStore {
  users : list User.doc;
  authors : list Author.doc;
  posts : list Post.doc;
  nextId : ObjectId
}.

(** ** Computations over the store that may throw *)

Definition Db (A : Type) : Type := Store -> Outcome A * Store.

#[global] Instance Db_ret : MRet Db := fun A a st => (Ok a, st).

#[global] Instance Db_bind : MBind Db := fun A B f m st =>
  match m st with
  | (Ok a, st') => f a st'
  | (Throw e, st') => (Throw e, st')
  end.

Definition throw {A : Type} (e : JsError) : Db A := fun st => (Throw e, st).
Definition getStore : Db Store := fun st => (Ok st, st).
Definition putStore (st : Store) : Db unit := fun _ => (Ok tt, st).

(** Lifting a computation that does not touch the store. *)
Definition liftOutcome {A : Type} (o : Outcome A) : Db A := fun st => (o, st).

(** Unfolding the operations of [Db] in the goal and the hypotheses. *)
Ltac db_unfold :=
  unfold mbind, mret, Db_bind, Db_ret, throw, getStore, putStore, liftOutcome in *.

(** ** Collections *)

Section Collection.
Context {D : Type}.

(** The first document that satisfies [p]. *)
Definition findFirst (p : D -> bool) (l : list D) : option D := List.find p l.

(** Replace the first document that satisfies [p] by its image under
    [f]. *)
Fixpoint updateFirst (p : D -> bool) (f : D -> D) (l : list D) : list D :=
  match l with
  | [] => []
  | d :: r => if p d then f d :: r else d :: updateFirst p f r
  end.

Definition countWhere (p : D -> bool) (l : list D) : nat := List.length (List.filter p l).

End Collection.

(** ** The Mongoose query builder *)

(** The value of one key of a filter object: a value copied from the
    request query (cast by the schema when the query runs) or one of the
    literals the services write. *)
Inductive CondV :=
| CReq (v : QVal)
| CNe (s : string)
| CIn (l : list string)
| CBool (b : bool)
| CId (i : ObjectId).

(** An argument of [find]: a filter object, or
    [{ $or: [{ f: { $regex: q, $options: "i" } }, ...] }]. *)
Inductive FindArg :=
| FObj (o : gmap string CondV)
| FOr (alts : list (string * string)).

(** The state of a query under construction: the arguments of the
    [find] calls in call order, and the options set by [sort], [skip]
    and [limit].  ([populate], [lean] and [select] only shape the
    returned documents and are left out.) *)
Record MQuery := mkQuery {
  finds : list FindArg;
  sortArg : option string;
  skipArg : option JSNum;
  limitArg : option JSNum
}.

Module Query.

(** [Model.find(o)] *)
Definition start (o : gmap string CondV) : MQuery :=
  {| finds := [FObj o]; sortArg := None; skipArg := None; limitArg := None |}.

Definition find (a : FindArg) (q : MQuery) : MQuery :=
  {| finds := (finds q ++ [a])%list; sortArg := sortArg q;
     skipArg := skipArg q; limitArg := limitArg q |}.

Definition sort (s : string) (q : MQuery) : MQuery :=
  {| finds := finds q; sortArg := Some s; skipArg := skipArg q; limitArg := limitArg q |}.

Definition skip (n : JSNum) (q : MQuery) : MQuery :=
  {| finds := finds q; sortArg := sortArg q; skipArg := Some n; limitArg := limitArg q |}.

Definition limit (n : JSNum) (q : MQuery) : MQuery :=
  {| finds := finds q; sortArg := sortArg q; skipArg := skipArg q; limitArg := Some n |}.

End Query.

(** Running a query against a collection.  How the filter objects are
    merged, cast against the schema and matched, and how documents are
    ordered, is the business of Mongoose and the server: [compile]
    yields the matching predicate, or nothing when a value cannot be
    cast (a CastError), and [sortDocs] orders the matched documents. *)
Section Exec.
Context {D : Type}.
Variable compile : list FindArg -> option (D -> bool).
Variable sortDocs : string -> list D -> list D.

(** A skip or limit option as the server reads it: a NaN counts as 0.
    (The services only ever pass NaN or a number that is not negative:
    [paginate_numeric].) *)
Definition optionCount (n : JSNum) : nat :=
  match n with
  | Num z => Z.to_nat z
  | NaN => 0%nat
  end.

Definition applySort (q : MQuery) (l : list D) : list D :=
  match sortArg q with
  | Some s => sortDocs s l
  | None => l
  end.

Definition applySkip (q : MQuery) (l : list D) : list D :=
  match skipArg q with
  | Some n => drop (optionCount n) l
  | None => l
  end.

(** A limit of 0 means no limit. *)
Definition applyLimit (q : MQuery) (l : list D) : list D :=
  match limitArg q with
  | Some n =>
      match optionCount n with
      | O => l
      | S k => take (S k) l
      end
  | None => l
  end.

Definition castError : JsError := LibError "CastError".

(** [await query] *)
Definition exec (q : MQuery) (docs : list D) : Outcome (list D) :=
  match compile (finds q) with
  | Some p => Ok (applyLimit q (applySkip q (applySort q (List.filter p docs))))
  | None => Throw castError
  end.

(** [await query.countDocuments()] *)
Definition countDocuments (q : MQuery) (docs : list D) : Outcome nat :=
  match compile (finds q) with
  | Some p => Ok (List.length (applyLimit q (applySkip q (List.filter p docs))))
  | None => Throw castError
  end.

End Exec.

(** ** The list-query helper ([utils/apiFeatures.ts]) *)

Module ApiFeatures.

Record t := mk {
  query : MQuery;
  reqQuery : gmap string QVal;
  page : JSNum;
  limit : JSNum;
  skip : JSNum
}.

(** [new ApiFeatures(query, reqQuery)] *)
Definition new (q : MQuery) (rq : gmap string QVal) : t :=
  {| query := q; reqQuery := rq; page := Num 1; limit := Num 10; skip := Num 0 |}.

Definition withQuery (q : MQuery) (f : t) : t :=
  {| query := q; reqQuery := reqQuery f; page := page f; limit := limit f; skip := skip f |}.

Definition reserved : list string := ["page"; "limit"; "sort"; "order"; "q"].

(** The filter object that [filter] passes to [find]. *)
Definition filterObject (allowedFields : list string) (rq : gmap string QVal)
  : gmap string QVal :=
  let q1 := foldr delete rq reserved in
  let q2 :=
    match allowedFields with
    | [] => q1
    | _ => base.filter (fun kv : string * QVal => kv.1 ∈ allowedFields) q1
    end in
  if JsValue.truthy (q2 !! "tag")
  then delete "tag" (<["tags" := default QObj (q2 !! "tag")]> q2)
  else q2.

Definition filter (allowedFields : list string) (f : t) : t :=
  withQuery
    (Query.find (FObj (CReq <$> filterObject allowedFields (reqQuery f))) (query f)) f.

Definition search (fields : list string) (f : t) : t :=
  let q := JsString.trim (JsValue.toString (JsValue.orElse (reqQuery f !! "q") (QStr ""))) in
  if JsString.isEmpty q || (List.length fields =? 0)%nat then f
  else withQuery (Query.find (FOr (List.map (fun fld => (fld, q)) fields)) (query f)) f.

Definition sort (defaultSort : string) (f : t) : t :=
  let sortField := JsValue.toString (JsValue.orElse (reqQuery f !! "sort") (QStr "")) in
  let order :=
    if String.eqb
         (JsString.toLowerCase
            (JsValue.toString (JsValue.orElse (reqQuery f !! "order") (QStr "desc"))))
         "asc"
    then "" else "-" in
  withQuery
    (if JsString.isEmpty sortField then Query.sort defaultSort (query f)
     else Query.sort (order ++ sortField) (query f)) f.

(** [String(n)] for an integer. *)
Definition numToString (n : Z) : string :=
  NilZero.string_of_int (Z.to_int n).

Definition paginate (defaultLimit maxLimit : Z) (f : t) : t :=
  let page :=
    JsMath.max
      (JsMath.parseInt (JsValue.toString (JsValue.orElse (reqQuery f !! "page") (QStr "1"))))
      (Num 1) in
  let limit :=
    JsMath.min
      (JsMath.max
         (JsMath.parseInt
            (JsValue.toString
               (JsValue.orElse (reqQuery f !! "limit") (QStr (numToString defaultLimit)))))
         (Num 1))
      (Num maxLimit) in
  let skip := JsMath.mul (JsMath.sub page (Num 1)) limit in
  {| query := Query.limit limit (Query.skip skip (query f));
     reqQuery := reqQuery f; page := page; limit := limit; skip := skip |}.

End ApiFeatures.

(** ** Process configuration ([config/env.ts]) *)

Record Env := mkEnv {
  JWT_SECRET : string;
  JWT_EXPIRES_IN : string
}.

(** ** Tokens, as [jsonwebtoken] treats them *)

(** What [signToken] signs and [protect] reads back. *)
Record TokenPayload := mkPayload { userId : string; tokenRole : string }.

#[global] Instance TokenPayload_eq_dec : EqDecision TokenPayload.
Proof. solve_decision. Defined.

(** The content of a token: the payload, the issue and expiry times in
    seconds and, standing for the signature, the key that signed it (a
    token verifies under the key that signed it and no other). *)
Record Jwt := mkJwt {
  payload : TokenPayload;
  iat : Z;
  exp : Z;
  signedWith : string
}.

(** The identity that [protect] attaches to the request. *)
Record AuthUser := mkAuthUser { authUserId : string; authRole : string }.

(** The part of an Express request that the middlewares read and
    write. *)
Record AuthRequest := mkRequest {
  authorization : option string;
  user : option AuthUser
}.

(** Request bodies. *)
Record RegisterData := mkRegister {
  reg_name : string;
  reg_email : string;
  reg_password : string;
  reg_role : option Role
}.

Record LoginData := mkLogin {
  login_email : string;
  login_password : string
}.

Record PublicUser := mkPublicUser {
  pu_id : ObjectId;
  pu_name : string;
  pu_email : string;
  pu_role : Role
}.

Record AuthResult := mkAuthResult {
  token : string;
  resultUser : PublicUser
}.

(** The body of a create request.  [validate] checks the body against
    the zod schema but hands the original object on, so a key the schema
    does not list, such as [publishedAt], still reaches the service. *)
Record CreatePostData := mkCreatePost {
  cp_title : string;
  cp_slug : string;
  cp_content : string;
  cp_image : option string;
  cp_status : option PostStatus;
  cp_tags : option (list string);
  cp_author : ObjectId;
  cp_publishedAt : option Date
}.

(** An update operator of MongoDB other than [$set], as the body of an
    update request may carry it ([$unset], [$inc], [$currentDate],
    [$push], ...): its name and its argument, as JSON text. *)
Record UpdateOperator := mkOperator {
  operatorName : string;
  operatorArgument : string
}.

(** The argument of a [$set] key in the body of a post update: the
    paths of the Post schema it assigns. *)
Record PostPaths := mkPostPaths {
  set_title : option string;
  set_slug : option string;
  set_content : option string;
  set_image : option string;
  set_status : option PostStatus;
  set_tags : option (list string);
  set_author : option ObjectId;
  set_publishedAt : option (option Date);
  set_deletedAt : option (option Date)
}.

(** The body of an update request, as [updatePost] receives it ([data:
    any]): [validate] checks it against the zod schema, which lets
    unlisted keys pass, and hands the original object on.  Its keys
    that are paths of the Post schema, each of which may be absent
    ([publishedAt] and [deletedAt], when present, are null or a date);
    its [$set] key; and its other update operators.  Mongoose drops
    every other key (strict mode). *)
Record UpdatePostData := mkUpdatePost {
  up_title : option string;
  up_slug : option string;
  up_content : option string;
  up_image : option string;
  up_status : option PostStatus;
  up_tags : option (list string);
  up_author : option ObjectId;
  up_publishedAt : option (option Date);
  up_deletedAt : option (option Date);
  up_set : option PostPaths;
  up_operators : list UpdateOperator
}.

Record CreateAuthorData := mkCreateAuthor {
  ca_name : string;
  ca_email : string;
  ca_bio : option string
}.

(** The body of a list response. *)
Record ListResponse (D : Type) := mkList {
  resp_page : JSNum;
  resp_limit : JSNum;
  resp_total : nat;
  resp_totalPages : JSNum;
  resp_results : nat;
  resp_data : list D
}.
Arguments mkList {D}.
Arguments resp_page {D}.
Arguments resp_limit {D}.
Arguments resp_total {D}.
Arguments resp_totalPages {D}.
Arguments resp_results {D}.
Arguments resp_data {D}.

Definition DEFAULT_POST_IMAGE : string :=
  "https://images.unsplash.com/photo-1486312338219-ce68d2c6f44d?auto=format&fit=crop&w=1200&q=80".

(** [_id.toString()] (ids are written in decimal here). *)
Definition ObjectId_toString (i : ObjectId) : string :=
  ApiFeatures.numToString (Z.of_nat i).

(** The setters of an [email] path ([lowercase: true, trim: true]);
    Mongoose applies them to stored values and to query values alike. *)
Definition emailSetter (s : string) : string :=
  JsString.toLowerCase (JsString.trim s).

(** ** A reference instance of the libraries

    Simple executable stand-ins for bcrypt, the JWT codec, zod's e-mail
    check, the matching of filter objects and the ordering of documents.
    The theorems below hold for every instance; this one serves to run
    the services on concrete requests. *)

Module Reference.

Definition bcrypt_hash (p : string) (rounds : nat) : string :=
  "$2b$" ++ ApiFeatures.numToString (Z.of_nat rounds) ++ "$" ++ p.

Definition bcrypt_compare (p h : string) : bool := String.eqb h (bcrypt_hash p 10).

Fixpoint splitOn_acc (sep : ascii) (s cur : string) : list string :=
  match s with
  | String c r =>
      if Ascii.eqb c sep then JsString.reverse cur :: splitOn_acc sep r EmptyString
      else splitOn_acc sep r (String c cur)
  | EmptyString => [JsString.reverse cur]
  end.

Definition splitOn (sep : ascii) (s : string) : list string :=
  splitOn_acc sep s EmptyString.

(** A token is its five fields separated by dots. *)
Definition jwt_encode (j : Jwt) : string :=
  userId (payload j) ++ "." ++ tokenRole (payload j) ++ "."
  ++ ApiFeatures.numToString (iat j) ++ "." ++ ApiFeatures.numToString (exp j) ++ "."
  ++ signedWith j.

Definition jwt_decode (s : string) : option Jwt :=
  match splitOn "." s with
  | [u; r; i; e; k] =>
      match JsMath.parseInt i, JsMath.parseInt e with
      | Num i', Num e' =>
          Some {| payload := {| userId := u; tokenRole := r |};
                  iat := i'; exp := e'; signedWith := k |}
      | _, _ => None
      end
  | _ => None
  end.

Fixpoint lastChar (s : string) : option ascii :=
  match s with
  | EmptyString => None
  | String c EmptyString => Some c
  | String _ r => lastChar r
  end.

(** Seconds in a time span such as ["7d"] or ["12h"]; a string of
    digits alone counts milliseconds. *)
Definition timespan (s : string) : option Z :=
  match JsMath.parseInt s, lastChar s with
  | Num n, Some c =>
      if Ascii.eqb c "d" then Some (n * 86400)
      else if Ascii.eqb c "h" then Some (n * 3600)
      else if Ascii.eqb c "m" then Some (n * 60)
      else if Ascii.eqb c "s" then Some n
      else match JsMath.digitOf c with Some _ => Some (n / 1000) | None => None end
  | _, _ => None
  end.

Definition isEmail (s : string) : bool :=
  match splitOn "@" s with
  | [a; b] =>
      negb (JsString.isEmpty a) && (2 <=? List.length (splitOn "." b))%nat
      && forallb (fun part => negb (JsString.isEmpty part)) (splitOn "." b)
      && (List.length (JsString.splitSpace s) =? 1)%nat
  | _ => false
  end.

(** Ids in path parameters are written in decimal. *)
Definition parseObjectId (s : string) : option ObjectId :=
  match JsMath.parseInt s with
  | Num z => if (0 <=? z)%Z then Some (Z.to_nat z) else None
  | NaN => None
  end.

(** The value of a path of a document. *)
Inductive FieldVal :=
| FStr (s : string)
| FList (l : list string)
| FOid (i : ObjectId)
| FBool (b : bool).

Fixpoint contains (needle hay : string) : bool :=
  String.prefix needle hay
  || match hay with
     | String _ r => contains needle r
     | EmptyString => false
     end.

Definition eqReq (v : QVal) (x : FieldVal) : bool :=
  match v, x with
  | QStr s, FStr y => String.eqb s y
  | QStr s, FList l => existsb (String.eqb s) l
  | QStr s, FOid i => String.eqb s (ObjectId_toString i)
  | QStr s, FBool b => String.eqb s (if b then "true" else "false")
  | QArr l, FList l' => bool_decide (l = l')
  | _, _ => false
  end.

Definition condHolds (c : CondV) (x : FieldVal) : bool :=
  match c with
  | CReq v => eqReq v x
  | CNe s => negb (eqReq (QStr s) x)
  | CIn l => existsb (fun s => eqReq (QStr s) x) l
  | CBool b => match x with FBool y => Bool.eqb b y | _ => false end
  | CId i => match x with FOid j => (i =? j)%nat | _ => false end
  end.

(** The filter object that the [find] calls add up to: a later call
    overwrites the keys it repeats. *)
Definition mergedFilter (fs : list FindArg) : gmap string CondV :=
  foldl (fun acc a => match a with FObj o => o ∪ acc | FOr _ => acc end) ∅ fs.

Definition orClauses (fs : list FindArg) : list (list (string * string)) :=
  omap (fun a => match a with FOr alts => Some alts | FObj _ => None end) fs.

Section Match.
Context {D : Type}.
Variable field : string -> D -> option FieldVal.

Definition altHolds (d : D) (alt : string * string) : bool :=
  match field alt.1 d with
  | Some (FStr x) => contains (JsString.toLowerCase alt.2) (JsString.toLowerCase x)
  | _ => false
  end.

(** A search pattern is read as a plain substring, matched without
    regard to case. *)
Definition matchDoc (fs : list FindArg) (d : D) : bool :=
  forallb (fun kc : string * CondV =>
             match field kc.1 d with
             | Some x => condHolds kc.2 x
             | None => false
             end) (map_to_list (mergedFilter fs))
  && forallb (fun alts => existsb (altHolds d) alts) (orClauses fs).

Definition compile (fs : list FindArg) : option (D -> bool) := Some (matchDoc fs).

Variable created : D -> Date.

Fixpoint insertBy (desc : bool) (d : D) (l : list D) : list D :=
  match l with
  | [] => [d]
  | x :: r =>
      if (if desc then created x <? created d else created d <? created x)%Z
      then d :: l else x :: insertBy desc d r
  end.

(** Ordering by [createdAt]; any other sort key leaves the order as it
    is. *)
Definition sortDocs (s : string) (l : list D) : list D :=
  if String.eqb s "-createdAt" then foldr (insertBy true) [] l
  else if String.eqb s "createdAt" then foldr (insertBy false) [] l
  else l.

End Match.

Definition statusName (s : PostStatus) : string :=
  match s with
  | draft => "draft"
  | published => "published"
  | deleted => "deleted"
  end.

Definition postField (k : string) (p : Post.doc) : option FieldVal :=
  if String.eqb k "_id" then Some (FOid (Post._id p))
  else if String.eqb k "title" then Some (FStr (Post.title p))
  else if String.eqb k "slug" then Some (FStr (Post.slug p))
  else if String.eqb k "content" then Some (FStr (Post.content p))
  else if String.eqb k "status" then Some (FStr (statusName (Post.status p)))
  else if String.eqb k "tags" then Some (FList (Post.tags p))
  else if String.eqb k "author" then Some (FOid (Post.author p))
  else None.

Definition authorField (k : string) (a : Author.doc) : option FieldVal :=
  if String.eqb k "_id" then Some (FOid (Author._id a))
  else if String.eqb k "name" then Some (FStr (Author.name a))
  else if String.eqb k "email" then Some (FStr (Author.email a))
  else if String.eqb k "status"
  then Some (FStr (match Author.status a with active => "active" | removed => "deleted" end))
  else None.

Definition userField (k : string) (u : User.doc) : option FieldVal :=
  if String.eqb k "_id" then Some (FOid (User._id u))
  else if String.eqb k "name" then Some (FStr (User.name u))
  else if String.eqb k "email" then Some (FStr (User.email u))
  else if String.eqb k "role" then Some (FStr (roleName (User.role u)))
  else if String.eqb k "isActive" then Some (FBool (User.isActive u))
  else None.

Definition env : Env := {| JWT_SECRET := "s3cret"; JWT_EXPIRES_IN := "7d" |}.

End Reference.

(** ** Sample data

    A small database and a few requests on which the services are run
    below. *)

Module Sample.

Definition t0 : Date := 1700000000000.
Definition t1 : Date := 1700000600000.
Definition t2 : Date := 1700001200000.

Definition alice : User.doc :=
  {| User._id := 1%nat; User.name := "Alice"; User.email := "alice@example.com";
     User.password := Reference.bcrypt_hash "correct horse" 10%nat;
     User.role := super_admin; User.isActive := true; User.deletedAt := None;
     User.createdAt := 1690000000000; User.updatedAt := 1690000000000 |}.

(** An admin whose account was deactivated at [1695000000000]. *)
Definition bob : User.doc :=
  {| User._id := 2%nat; User.name := "Bob"; User.email := "bob@example.com";
     User.password := Reference.bcrypt_hash "hunter22" 10%nat;
     User.role := admin; User.isActive := false; User.deletedAt := Some 1695000000000;
     User.createdAt := 1690000000000; User.updatedAt := 1695000000000 |}.

Definition carol : User.doc :=
  {| User._id := 3%nat; User.name := "Carol"; User.email := "carol@example.com";
     User.password := Reference.bcrypt_hash "letmein99" 10%nat;
     User.role := admin; User.isActive := true; User.deletedAt := None;
     User.createdAt := 1691000000000; User.updatedAt := 1691000000000 |}.

Definition jane : Author.doc :=
  {| Author._id := 10%nat; Author.name := "Jane"; Author.email := "jane@x.com";
     Author.bio := ""; Author.status := active; Author.deletedAt := None;
     Author.createdAt := 1692000000000; Author.updatedAt := 1692000000000 |}.

Definition post1 : Post.doc :=
  {| Post._id := 20%nat; Post.title := "Routing in Express"; Post.slug := "routing-in-express";
     Post.content := "How the router matches paths."; Post.image := DEFAULT_POST_IMAGE;
     Post.status := draft; Post.tags := ["node"; "express"]; Post.author := 10%nat;
     Post.publishedAt := None; Post.deletedAt := None;
     Post.createdAt := 1693000000000; Post.updatedAt := 1693000000000 |}.

Definition post2 : Post.doc :=
  {| Post._id := 21%nat; Post.title := "Schemas"; Post.slug := "schemas";
     Post.content := "Validating documents with Mongoose."; Post.image := DEFAULT_POST_IMAGE;
     Post.status := published; Post.tags := ["mongo"]; Post.author := 10%nat;
     Post.publishedAt := Some 1694000000000; Post.deletedAt := None;
     Post.createdAt := 1694000000000; Post.updatedAt := 1694000000000 |}.

Definition post3 : Post.doc :=
  {| Post._id := 22%nat; Post.title := "Old news"; Post.slug := "old-news";
     Post.content := "Nothing to see here any more."; Post.image := DEFAULT_POST_IMAGE;
     Post.status := deleted; Post.tags := []; Post.author := 10%nat;
     Post.publishedAt := None; Post.deletedAt := Some 1694500000000;
     Post.createdAt := 1693500000000; Post.updatedAt := 1694500000000 |}.

Definition store : Store :=
  {| users := [alice; bob; carol]; authors := [jane];
     posts := [post1; post2; post3]; nextId := 30%nat |}.

(** The token that a login of [u] at time [now] returns under the
    reference instance. *)
Definition tokenOf (u : User.doc) (now : Date) : string :=
  Reference.jwt_encode
    {| payload := {| userId := ObjectId_toString (User._id u);
                     tokenRole := roleName (User.role u) |};
       iat := now / 1000; exp := now / 1000 + 604800;
       signedWith := JWT_SECRET Reference.env |}.

Definition bearer (tok : string) : AuthRequest :=
  {| authorization := Some ("Bearer " ++ tok); user := None |}.

Definition anonymous : AuthRequest := {| authorization := None; user := None |}.

Definition mallory : RegisterData :=
  {| reg_name := "Mallory"; reg_email := "Mallory@Example.com";
     reg_password := "opensesame"; reg_role := Some super_admin |}.

Definition noUpdate : UpdatePostData :=
  {| up_title := None; up_slug := None; up_content := None; up_image := None;
     up_status := None; up_tags := None; up_author := None;
     up_publishedAt := None; up_deletedAt := None;
     up_set := None; up_operators := [] |}.

Definition publish : UpdatePostData :=
  {| up_title := None; up_slug := None; up_content := None; up_image := None;
     up_status := Some published; up_tags := None; up_author := None;
     up_publishedAt := None; up_deletedAt := None;
     up_set := None; up_operators := [] |}.

Definition deletedDraft : CreatePostData :=
  {| cp_title := "Ghost"; cp_slug := "ghost"; cp_content := "Never to be stored.";
     cp_image := None; cp_status := Some deleted; cp_tags := None; cp_author := 10%nat;
     cp_publishedAt := None |}.

End Sample.

Section Server.

(** [bcrypt.hash(password, rounds)] and [bcrypt.compare(password, hash)]. *)
Variable bcrypt_hash : string -> nat -> string.
Variable bcrypt_compare : string -> string -> bool.

(** The JWT codec, and the reading of a time span such as ["7d"] in
    seconds ([None] when it is not a time span). *)
Variable jwt_encode : Jwt -> string.
Variable jwt_decode : string -> option Jwt.
Variable timespan : string -> option Z.

(** zod's [z.string().email()]. *)
Variable isEmail : string -> bool.

Variable env : Env.

(** *** [jsonwebtoken] *)

Definition seconds (now : Date) : Z := now / 1000.

(** [jwt.sign(payload, secret, { expiresIn })]: refuses an empty key and
    an [expiresIn] that is not a time span. *)
Definition jwt_sign (p : TokenPayload) (secret expiresIn : string) (now : Date)
  : Outcome string :=
  if JsString.isEmpty secret then Throw (LibError "secretOrPrivateKey must have a value")
  else
    match timespan expiresIn with
    | Some d =>
        Ok (jwt_encode {| payload := p; iat := seconds now;
                          exp := seconds now + d; signedWith := secret |})
    | None => Throw (LibError "expiresIn should be a number of seconds or a timespan string")
    end.

(** [jwt.verify(token, secret)]: fails on a malformed token, a wrong
    signature and an expired token. *)
Definition jwt_verify (tok secret : string) (now : Date) : Outcome TokenPayload :=
  match jwt_decode tok with
  | None => Throw (LibError "jwt malformed")
  | Some j =>
      if JsString.isEmpty secret then Throw (LibError "secret or public key must be provided")
      else if negb (String.eqb (signedWith j) secret) then Throw (LibError "invalid signature")
      else if (exp j <=? seconds now)%Z then Throw (LibError "jwt expired")
      else Ok (payload j)
  end.

(** *** The User model *)

(** [User.findOne({ email })] *)
Definition User_findOne_email (e : string) (st : Store) : option User.doc :=
  findFirst (fun u => String.eqb (User.email u) (emailSetter e)) (users st).

(** The validators of the User schema on a new document. *)
Definition User_validate (u : User.doc) : bool :=
  (2 <=? String.length (User.name u))%nat
  && negb (JsString.isEmpty (User.name u))
  && negb (JsString.isEmpty (User.email u))
  && (6 <=? String.length (User.password u))%nat.

(** The document that [User.create({ name, email, password, role })]
    builds: setters and defaults applied. *)
Definition newUser (now : Date) (id : ObjectId) (n e p : string) (r : Role) : User.doc :=
  {| User._id := id; User.name := JsString.trim n;
     User.email := emailSetter e; User.password := p; User.role := r;
     User.isActive := true; User.deletedAt := None;
     User.createdAt := now; User.updatedAt := now |}.

(** [User.create]: the validators run, the unique index on [email] is
    checked, and the document is appended. *)
Definition User_create (now : Date) (n e p : string) (r : Role) : Db User.doc :=
  fun st =>
    let u := newUser now (nextId st) n e p r in
    if negb (User_validate u) then (Throw (LibError "ValidationError"), st)
    else if existsb (fun v => String.eqb (User.email v) (User.email u)) (users st)
    then (Throw (LibError "E11000 duplicate key error"), st)
    else (Ok u, {| users := (users st ++ [u])%list; authors := authors st;
                   posts := posts st; nextId := S (nextId st) |}).

(** *** The auth service ([services/auth.service.ts]) *)

Definition signToken (now : Date) (p : TokenPayload) : Outcome string :=
  jwt_sign p (JWT_SECRET env) (JWT_EXPIRES_IN env) now.

Definition publicUser (u : User.doc) : PublicUser :=
  {| pu_id := User._id u; pu_name := User.name u;
     pu_email := User.email u; pu_role := User.role u |}.

Definition register (now : Date) (data : RegisterData) : Db AuthResult :=
  st ← getStore;
  match User_findOne_email (reg_email data) st with
  | Some _ => throw (AppError "Email already in use" 409)
  | None =>
      let hashed := bcrypt_hash (reg_password data) 10 in
      u ← User_create now (reg_name data) (reg_email data) hashed
            (default admin (reg_role data));
      tok ← liftOutcome
              (signToken now {| userId := ObjectId_toString (User._id u);
                                tokenRole := roleName (User.role u) |});
      mret {| token := tok; resultUser := publicUser u |}
  end.

Definition login (now : Date) (data : LoginData) : Db AuthResult :=
  st ← getStore;
  match User_findOne_email (login_email data) st with
  | None => throw (AppError "Invalid email or password" 401)
  | Some u =>
      if negb (bcrypt_compare (login_password data) (User.password u))
      then throw (AppError "Invalid email or password" 401)
      else
        tok ← liftOutcome
                (signToken now {| userId := ObjectId_toString (User._id u);
                                  tokenRole := roleName (User.role u) |});
        mret {| token := tok; resultUser := publicUser u |}
  end.

(** *** The auth middlewares ([middlewares/auth.ts]) *)

(** A middleware either passes the request on ([next()]) or throws.  It
    runs in the same world as the controllers: it could read or write
    the store. *)
Definition Middleware := AuthRequest -> Db AuthRequest.

Definition protect (now : Date) : Middleware := fun req =>
  match authorization req with
  | Some auth =>
      if negb (JsString.startsWith "Bearer " auth)
      then throw (AppError "Not authorized (missing token)" 401)
      else
        let tok := default "" (JsString.splitSpace auth !! 1%nat) in
        match jwt_verify tok (JWT_SECRET env) now with
        | Ok decoded =>
            mret {| authorization := authorization req;
                    user := Some {| authUserId := userId decoded;
                                    authRole := tokenRole decoded |} |}
        | Throw _ => throw (AppError "Invalid or expired token" 401)
        end
  | None => throw (AppError "Not authorized (missing token)" 401)
  end.

(** [req.user?.role] *)
Definition requestRole (req : AuthRequest) : option string :=
  authRole <$> user req.

Definition adminOnly : Middleware := fun req =>
  if negb (bool_decide (requestRole req = Some "admin"))
     && negb (bool_decide (requestRole req = Some "super_admin"))
  then throw (AppError "Forbidden (admin only)" 403)
  else mret req.

Definition superAdminOnly : Middleware := fun req =>
  if negb (bool_decide (requestRole req = Some "super_admin"))
  then throw (AppError "Forbidden (super admin only)" 403)
  else mret req.

(** *** The Post model and service ([services/post.service.ts]) *)

(** [image?.trim() || DEFAULT_POST_IMAGE] *)
Definition imageOrDefault (i : option string) : string :=
  match i with
  | Some s => if JsString.isEmpty (JsString.trim s) then DEFAULT_POST_IMAGE else JsString.trim s
  | None => DEFAULT_POST_IMAGE
  end.

Definition slugSetter (s : string) : string := JsString.toLowerCase (JsString.trim s).

(** [{ _id: id, status: { $ne: "deleted" } }] *)
Definition livePost (id : ObjectId) (p : Post.doc) : bool :=
  (Post._id p =? id)%nat && negb (bool_decide (Post.status p = deleted)).

Definition Post_findById (id : ObjectId) (st : Store) : option Post.doc :=
  findFirst (fun p => (Post._id p =? id)%nat) (posts st).

Definition setPosts (ps : list Post.doc) (st : Store) : Store :=
  {| users := users st; authors := authors st; posts := ps; nextId := nextId st |}.

(** The validators of the Post schema: [title] at least 3 characters,
    [slug] required, [content] at least 10 characters. *)
Definition Post_validate (p : Post.doc) : bool :=
  (3 <=? String.length (Post.title p))%nat
  && negb (JsString.isEmpty (Post.slug p))
  && (10 <=? String.length (Post.content p))%nat.

(** The unique index on [slug]: no other document has this slug. *)
Definition slugTaken (p : Post.doc) (st : Store) : bool :=
  existsb (fun o => negb (Post._id o =? Post._id p)%nat
                    && String.eqb (Post.slug o) (Post.slug p)) (posts st).

(** The document that [Post.create(payload)] builds for the payload
    [createPost] has prepared: setters and defaults applied. *)
Definition newPost (now : Date) (id : ObjectId) (d : CreatePostData)
    (pubAt : option Date) (img : string) : Post.doc :=
  {| Post._id := id; Post.title := JsString.trim (cp_title d);
     Post.slug := slugSetter (cp_slug d); Post.content := cp_content d;
     Post.image := JsString.trim img;
     Post.status := default draft (cp_status d);
     Post.tags := default [] (cp_tags d); Post.author := cp_author d;
     Post.publishedAt := pubAt; Post.deletedAt := None;
     Post.createdAt := now; Post.updatedAt := now |}.

Definition addPost (p : Post.doc) (st : Store) : Store :=
  {| users := users st; authors := authors st;
     posts := (posts st ++ [p])%list; nextId := S (nextId st) |}.

(** [Post.create]: the validators run, the unique index on [slug] is
    checked, and the document is appended. *)
Definition Post_create (now : Date) (d : CreatePostData) (pubAt : option Date)
    (img : string) : Db Post.doc :=
  fun st =>
    let p := newPost now (nextId st) d pubAt img in
    if negb (Post_validate p) then (Throw (LibError "ValidationError"), st)
    else if slugTaken p st then (Throw (LibError "E11000 duplicate key error"), st)
    else (Ok p, addPost p st).

(** [publishedAt] as [createPost] leaves it in the payload. *)
Definition createPublishedAt (now : Date) (data : CreatePostData) : option Date :=
  let pubAt :=
    if bool_decide (cp_status data = Some published)
    then Some (default now (cp_publishedAt data))
    else cp_publishedAt data in
  if bool_decide (cp_status data = Some draft) then None else pubAt.

Definition createPost (now : Date) (data : CreatePostData) : Db Post.doc :=
  if bool_decide (cp_status data = Some deleted)
  then throw (AppError "Cannot create a post with status 'deleted'" 400)
  else Post_create now data (createPublishedAt now data) (imageOrDefault (cp_image data)).

(** Assigning [publishedAt] and [deletedAt] in a payload. *)
Definition setDates (pa da : option Date) (p : UpdatePostData) : UpdatePostData :=
  {| up_title := up_title p; up_slug := up_slug p; up_content := up_content p;
     up_image := up_image p; up_status := up_status p; up_tags := up_tags p;
     up_author := up_author p; up_publishedAt := Some pa; up_deletedAt := Some da;
     up_set := up_set p; up_operators := up_operators p |}.

Definition setImage (i : option string) (p : UpdatePostData) : UpdatePostData :=
  {| up_title := up_title p; up_slug := up_slug p; up_content := up_content p;
     up_image := i; up_status := up_status p; up_tags := up_tags p;
     up_author := up_author p; up_publishedAt := up_publishedAt p;
     up_deletedAt := up_deletedAt p;
     up_set := up_set p; up_operators := up_operators p |}.

(** The payload of [updatePost] after the service has adjusted it:
    [payload = { ...data }], then the assignments to its top-level
    keys.  The service looks at the top-level [image] and [status] only;
    the [$set] key and the other operators are carried along. *)
Definition updatePayload (now : Date) (data : UpdatePostData) : UpdatePostData :=
  let p0 :=
    match up_image data with
    | Some i => setImage (Some (imageOrDefault (Some i))) data
    | None => data
    end in
  let p1 :=
    if bool_decide (up_status p0 = Some deleted) then setDates None (Some now) p0 else p0 in
  let p2 :=
    if bool_decide (up_status p1 = Some published) then setDates (Some now) None p1 else p1 in
  if bool_decide (up_status p2 = Some draft) then setDates None None p2 else p2.

(** A key of the [$set] document that Mongoose sends: the top-level key
    of the body when there is one, else the key of the body's [$set]
    ([ret.$set = obj.$set; ret.$set[op] = obj[op]] in its [castUpdate]). *)
Definition setKey {A : Type} (top inSet : option A) : option A :=
  match top with
  | Some v => Some v
  | None => inSet
  end.

(** The [$set] document that Mongoose makes of an update document. *)
Definition castUpdate (u : UpdatePostData) : PostPaths :=
  match up_set u with
  | Some s =>
      {| set_title := setKey (up_title u) (set_title s);
         set_slug := setKey (up_slug u) (set_slug s);
         set_content := setKey (up_content u) (set_content s);
         set_image := setKey (up_image u) (set_image s);
         set_status := setKey (up_status u) (set_status s);
         set_tags := setKey (up_tags u) (set_tags s);
         set_author := setKey (up_author u) (set_author s);
         set_publishedAt := setKey (up_publishedAt u) (set_publishedAt s);
         set_deletedAt := setKey (up_deletedAt u) (set_deletedAt s) |}
  | None =>
      {| set_title := up_title u; set_slug := up_slug u; set_content := up_content u;
         set_image := up_image u; set_status := up_status u; set_tags := up_tags u;
         set_author := up_author u; set_publishedAt := up_publishedAt u;
         set_deletedAt := up_deletedAt u |}
  end.

(** A [$set] document applied to a post, through the schema's setters;
    [updatedAt] is refreshed. *)
Definition setPostPaths (now : Date) (c : PostPaths) (p : Post.doc) : Post.doc :=
  {| Post._id := Post._id p;
     Post.title := default (Post.title p) (JsString.trim <$> set_title c);
     Post.slug := default (Post.slug p) (slugSetter <$> set_slug c);
     Post.content := default (Post.content p) (set_content c);
     Post.image := default (Post.image p) (JsString.trim <$> set_image c);
     Post.status := default (Post.status p) (set_status c);
     Post.tags := default (Post.tags p) (set_tags c);
     Post.author := default (Post.author p) (set_author c);
     Post.publishedAt := default (Post.publishedAt p) (set_publishedAt c);
     Post.deletedAt := default (Post.deletedAt p) (set_deletedAt c);
     Post.createdAt := Post.createdAt p;
     Post.updatedAt := now |}.

(** An update document without operators other than [$set], applied to
    a post. *)
Definition applyPostUpdate (now : Date) (u : UpdatePostData) (p : Post.doc) : Post.doc :=
  setPostPaths now (castUpdate u) p.

(** The update validators ([runValidators: true]) look at the paths the
    update sets. *)
Definition Post_validateUpdate (u : UpdatePostData) : bool :=
  let c := castUpdate u in
  match set_title c with Some t => (3 <=? String.length (JsString.trim t))%nat | None => true end
  && match set_slug c with Some s => negb (JsString.isEmpty (slugSetter s)) | None => true end
  && match set_content c with Some x => (10 <=? String.length x)%nat | None => true end.

(** What the MongoDB server makes of a post under an update document
    that carries operators other than [$set], or the error it answers
    with (two operators on one path, an operator that does not fit the
    value).  Those operators are not interpreted here. *)
Variable serverUpdatePost : Date -> UpdatePostData -> Post.doc -> Outcome Post.doc.

(** [Post.findOneAndUpdate({ _id: id, status: { $ne: "deleted" } }, u,
    { new: true })]: the updated document, or null when none matches; the
    write is refused when it moves the slug onto that of another post. *)
Definition Post_findOneAndUpdate (id : ObjectId) (f : Post.doc -> Post.doc)
  : Db (option Post.doc) :=
  fun st =>
    match findFirst (livePost id) (posts st) with
    | None => (Ok None, st)
    | Some p =>
        if negb (String.eqb (Post.slug (f p)) (Post.slug p)) && slugTaken (f p) st
        then (Throw (LibError "E11000 duplicate key error"), st)
        else (Ok (Some (f p)), setPosts (updateFirst (livePost id) f (posts st)) st)
    end.

(** The same for an update that the server computes and may refuse. *)
Definition Post_findOneAndUpdateWith (id : ObjectId) (f : Post.doc -> Outcome Post.doc)
  : Db (option Post.doc) :=
  fun st =>
    match findFirst (livePost id) (posts st) with
    | None => (Ok None, st)
    | Some p =>
        match f p with
        | Throw e => (Throw e, st)
        | Ok p' =>
            if negb (String.eqb (Post.slug p') (Post.slug p)) && slugTaken p' st
            then (Throw (LibError "E11000 duplicate key error"), st)
            else (Ok (Some p'), setPosts (updateFirst (livePost id) (fun _ => p') (posts st)) st)
        end
    end.

Definition updatePost (now : Date) (id : ObjectId) (data : UpdatePostData) : Db Post.doc :=
  let u := updatePayload now data in
  if negb (Post_validateUpdate u) then throw (LibError "ValidationError")
  else
    r ← match up_operators u with
        | [] => Post_findOneAndUpdate id (applyPostUpdate now u)
        | _ :: _ => Post_findOneAndUpdateWith id (serverUpdatePost now u)
        end;
    match r with
    | Some p => mret p
    | None => throw (AppError "Post not found" 404)
    end.

(** The update document of [deletePost]:
    [{ status: "deleted", deletedAt: new Date(), publishedAt: null }]. *)
Definition markPostDeleted (now : Date) (p : Post.doc) : Post.doc :=
  {| Post._id := Post._id p; Post.title := Post.title p; Post.slug := Post.slug p;
     Post.content := Post.content p; Post.image := Post.image p;
     Post.status := deleted; Post.tags := Post.tags p; Post.author := Post.author p;
     Post.publishedAt := None; Post.deletedAt := Some now;
     Post.createdAt := Post.createdAt p; Post.updatedAt := now |}.

Definition deletePost (now : Date) (id : ObjectId) : Db Post.doc :=
  r ← Post_findOneAndUpdate id (markPostDeleted now);
  match r with
  | Some p => mret p
  | None => throw (AppError "Post not found" 404)
  end.

Definition getPostById (id : ObjectId) : Db Post.doc :=
  st ← getStore;
  match findFirst (livePost id) (posts st) with
  | Some p => mret p
  | None => throw (AppError "Post not found" 404)
  end.

(** *** The Author model and service ([services/author.service.ts]) *)

(** [{ _id: id, status: { $ne: "deleted" } }] *)
Definition liveAuthor (id : ObjectId) (a : Author.doc) : bool :=
  (Author._id a =? id)%nat && negb (bool_decide (Author.status a = removed)).

Definition Author_findById (id : ObjectId) (st : Store) : option Author.doc :=
  findFirst (fun a => (Author._id a =? id)%nat) (authors st).

Definition setAuthors (l : list Author.doc) (st : Store) : Store :=
  {| users := users st; authors := l; posts := posts st; nextId := nextId st |}.

Definition Author_validate (a : Author.doc) : bool :=
  (2 <=? String.length (Author.name a))%nat && negb (JsString.isEmpty (Author.email a)).

(** [createAuthor]: [Author.create({ ...data, status: "active",
    deletedAt: null })]. *)
Definition createAuthor (now : Date) (data : CreateAuthorData) : Db Author.doc :=
  fun st =>
    let a := {| Author._id := nextId st; Author.name := JsString.trim (ca_name data);
                Author.email := emailSetter (ca_email data);
                Author.bio := default "" (ca_bio data);
                Author.status := active; Author.deletedAt := None;
                Author.createdAt := now; Author.updatedAt := now |} in
    if negb (Author_validate a) then (Throw (LibError "ValidationError"), st)
    else if existsb (fun o => String.eqb (Author.email o) (Author.email a)) (authors st)
    then (Throw (LibError "E11000 duplicate key error"), st)
    else (Ok a, {| users := users st; authors := (authors st ++ [a])%list;
                   posts := posts st; nextId := S (nextId st) |}).


(** [Post.countDocuments({ author: id, status: { $ne: "deleted" } })] *)
Definition activePostsCount (id : ObjectId) (st : Store) : nat :=
  countWhere (fun p => (Post.author p =? id)%nat
                       && negb (bool_decide (Post.status p = deleted))) (posts st).

(** [author.status = "deleted"; author.deletedAt = new Date()] *)
Definition markAuthorDeleted (now : Date) (a : Author.doc) : Author.doc :=
  {| Author._id := Author._id a; Author.name := Author.name a;
     Author.email := Author.email a; Author.bio := Author.bio a;
     Author.status := removed; Author.deletedAt := Some now;
     Author.createdAt := Author.createdAt a; Author.updatedAt := now |}.

(** [author.save()]: the document with this [_id] is replaced. *)
Definition Author_save (a : Author.doc) : Db unit :=
  fun st =>
    (Ok tt, setAuthors (updateFirst (fun o => (Author._id o =? Author._id a)%nat)
                                    (fun _ => a) (authors st)) st).

Definition referentialConflict : JsError :=
  AppError
    "Cannot delete author: this author still has posts. Delete the author's posts first."
    400.

Definition deleteAuthor (now : Date) (id : ObjectId) : Db Author.doc :=
  st ← getStore;
  match findFirst (liveAuthor id) (authors st) with
  | None => throw (AppError "Author not found" 404)
  | Some author =>
      if (0 <? activePostsCount (Author._id author) st)%nat
      then throw referentialConflict
      else
        let author' := markAuthorDeleted now author in
        _ ← Author_save author';
        mret author'
  end.

(** *** The user controller ([controllers/user.controller.ts]) *)

Definition setUsers (l : list User.doc) (st : Store) : Store :=
  {| users := l; authors := authors st; posts := posts st; nextId := nextId st |}.

Definition User_findById (id : ObjectId) (st : Store) : option User.doc :=
  findFirst (fun u => (User._id u =? id)%nat) (users st).

(** [User.findByIdAndUpdate(id, update, { new: true })] *)
Definition User_findByIdAndUpdate (id : ObjectId) (f : User.doc -> User.doc)
  : Db (option User.doc) :=
  fun st =>
    match User_findById id st with
    | None => (Ok None, st)
    | Some u =>
        (Ok (Some (f u)),
         setUsers (updateFirst (fun u => (User._id u =? id)%nat) f (users st)) st)
    end.

(** [{ isActive: false, deletedAt: new Date() }] *)
Definition markUserInactive (now : Date) (u : User.doc) : User.doc :=
  {| User._id := User._id u; User.name := User.name u; User.email := User.email u;
     User.password := User.password u; User.role := User.role u;
     User.isActive := false; User.deletedAt := Some now;
     User.createdAt := User.createdAt u; User.updatedAt := now |}.

(** [{ role }] *)
Definition setUserRole (now : Date) (r : Role) (u : User.doc) : User.doc :=
  {| User._id := User._id u; User.name := User.name u; User.email := User.email u;
     User.password := User.password u; User.role := r;
     User.isActive := User.isActive u; User.deletedAt := User.deletedAt u;
     User.createdAt := User.createdAt u; User.updatedAt := now |}.

Definition deactivateUser (now : Date) (id : ObjectId) : Db User.doc :=
  r ← User_findByIdAndUpdate id (markUserInactive now);
  match r with
  | Some u => mret u
  | None => throw (AppError "User not found" 404)
  end.

Definition updateUserRole (now : Date) (id : ObjectId) (r : Role) : Db User.doc :=
  res ← User_findByIdAndUpdate id (setUserRole now r);
  match res with
  | Some u => mret u
  | None => throw (AppError "User not found" 404)
  end.

(** *** The list endpoints *)

(** The store's matching and ordering of the documents of each
    collection (see [exec]), and the reading of a path parameter as an
    ObjectId ([Types.ObjectId.isValid] and [new Types.ObjectId]). *)
Variable compilePost : list FindArg -> option (Post.doc -> bool).
Variable sortPosts : string -> list Post.doc -> list Post.doc.
Variable compileAuthor : list FindArg -> option (Author.doc -> bool).
Variable sortAuthors : string -> list Author.doc -> list Author.doc.
Variable compileUser : list FindArg -> option (User.doc -> bool).
Variable sortUsers : string -> list User.doc -> list User.doc.
Variable parseObjectId : string -> option ObjectId.

(** [Math.max(Math.ceil(total / limit), 1)] *)
Definition totalPagesOf (total : nat) (limit : JSNum) : JSNum :=
  JsMath.max (JsMath.ceilDiv (Num (Z.of_nat total)) limit) (Num 1).

(** [Promise.all([countQuery.query.countDocuments(), features.query])]
    and the response object built from the two results. *)
Definition listResponse {D : Type} (compile : list FindArg -> option (D -> bool))
    (sortDocs : string -> list D -> list D)
    (features countQuery : ApiFeatures.t) (docs : list D) : Db (ListResponse D) :=
  total ← liftOutcome (countDocuments compile (ApiFeatures.query countQuery) docs);
  data ← liftOutcome (exec compile sortDocs (ApiFeatures.query features) docs);
  mret {| resp_page := ApiFeatures.page features;
          resp_limit := ApiFeatures.limit features;
          resp_total := total;
          resp_totalPages := totalPagesOf total (ApiFeatures.limit features);
          resp_results := List.length data;
          resp_data := data |}.

Definition notDeleted : gmap string CondV := {[ "status" := CNe "deleted" ]}.

(** [if (query.authorId && !query.author) query.author = query.authorId] *)
Definition mapAuthorId (query : gmap string QVal) : gmap string QVal :=
  if JsValue.truthy (query !! "authorId") && negb (JsValue.truthy (query !! "author"))
  then <["author" := default QObj (query !! "authorId")]> query
  else query.

Definition getPosts (query0 : gmap string QVal) : Db (ListResponse Post.doc) :=
  let query := mapAuthorId query0 in
  let baseQuery := Query.start notDeleted in
  let features :=
    ApiFeatures.paginate 10 100
      (ApiFeatures.sort "-createdAt"
         (ApiFeatures.search ["title"; "content"; "slug"]
            (ApiFeatures.filter ["status"; "author"; "tag"]
               (ApiFeatures.new baseQuery query)))) in
  let countQuery :=
    ApiFeatures.search ["title"; "content"; "slug"]
      (ApiFeatures.filter ["status"; "author"; "tag"]
         (ApiFeatures.new (Query.start notDeleted) query)) in
  st ← getStore;
  listResponse compilePost sortPosts features countQuery (posts st).

Definition getPostsByAuthor (authorId : string) (query : gmap string QVal)
  : Db (ListResponse Post.doc) :=
  match parseObjectId authorId with
  | None => throw (AppError "Invalid author id" 400)
  | Some authorObjectId =>
      let scope : gmap string CondV :=
        <["author" := CId authorObjectId]> notDeleted in
      let features :=
        ApiFeatures.paginate 10 100
          (ApiFeatures.sort "-createdAt"
             (ApiFeatures.search ["title"; "content"; "slug"]
                (ApiFeatures.filter ["status"; "tag"]
                   (ApiFeatures.new (Query.start scope) query)))) in
      let countQuery :=
        ApiFeatures.search ["title"; "content"; "slug"]
          (ApiFeatures.filter ["status"; "tag"]
             (ApiFeatures.new (Query.start scope) query)) in
      st ← getStore;
      listResponse compilePost sortPosts features countQuery (posts st)
  end.

Definition getAuthors (query : gmap string QVal) : Db (ListResponse Author.doc) :=
  let features :=
    ApiFeatures.paginate 10 100
      (ApiFeatures.sort "-createdAt"
         (ApiFeatures.search ["name"; "email"]
            (ApiFeatures.filter ["name"; "email"]
               (ApiFeatures.new (Query.start notDeleted) query)))) in
  let countQuery :=
    ApiFeatures.search ["name"; "email"]
      (ApiFeatures.filter ["name"; "email"]
         (ApiFeatures.new (Query.start notDeleted) query)) in
  st ← getStore;
  listResponse compileAuthor sortAuthors features countQuery (authors st).

(** [{ isActive: true, role: { $in: ["admin", "super_admin"] } }] *)
Definition activeAdmins : gmap string CondV :=
  <["isActive" := CBool true]> {[ "role" := CIn ["admin"; "super_admin"] ]}.

Definition getUsers (query : gmap string QVal) : Db (ListResponse User.doc) :=
  let features :=
    ApiFeatures.paginate 10 100
      (ApiFeatures.sort "-createdAt"
         (ApiFeatures.search ["name"; "email"]
            (ApiFeatures.new (Query.start activeAdmins) query))) in
  let countQuery :=
    ApiFeatures.search ["name"; "email"]
      (ApiFeatures.new (Query.start activeAdmins) query) in
  st ← getStore;
  listResponse compileUser sortUsers features countQuery (users st).

(** *** Request validation ([middlewares/schemas.ts], [validate.ts]) *)

Definition registerSchema (d : RegisterData) : bool :=
  (2 <=? String.length (reg_name d))%nat && isEmail (reg_email d)
  && (6 <=? String.length (reg_password d))%nat.

Definition loginSchema (d : LoginData) : bool :=
  isEmail (login_email d) && (6 <=? String.length (login_password d))%nat.

Definition createAuthorSchema (d : CreateAuthorData) : bool :=
  (2 <=? String.length (ca_name d))%nat && isEmail (ca_email d).

(** [validate(schema)]: [schema.parse] throws a ZodError, which carries
    no status code. *)
Definition validate {B : Type} (schema : B -> bool) (body : B) : Db unit :=
  if schema body then mret tt else throw (LibError "ZodError").

(** *** Route tables ([routes/*.routes.ts])

    Each route is the chain of its middlewares followed by its
    controller.  Path parameters are ObjectIds ([idParamSchema]). *)

(** [router.post("/register", validate(registerSchema), register)] *)
Definition authRoutes_register (now : Date) (req : AuthRequest) (body : RegisterData)
  : Db AuthResult :=
  _ ← validate registerSchema body;
  register now body.

(** [router.post("/login", validate(loginSchema), login)] *)
Definition authRoutes_login (now : Date) (req : AuthRequest) (body : LoginData)
  : Db AuthResult :=
  _ ← validate loginSchema body;
  login now body.

(** [router.use(protect); router.get("/", superAdminOnly, getUsers)] *)
Definition userRoutes_list (now : Date) (req : AuthRequest) (query : gmap string QVal)
  : Db (ListResponse User.doc) :=
  req1 ← protect now req;
  _ ← superAdminOnly req1;
  getUsers query.

(** [router.patch("/:id", superAdminOnly, validate(idParamSchema),
    deactivateUser)] *)
Definition userRoutes_deactivate (now : Date) (req : AuthRequest) (id : ObjectId)
  : Db User.doc :=
  req1 ← protect now req;
  _ ← superAdminOnly req1;
  deactivateUser now id.

(** [router.patch("/:id/role", superAdminOnly, ..., updateUserRole)] *)
Definition userRoutes_role (now : Date) (req : AuthRequest) (id : ObjectId) (r : Role)
  : Db User.doc :=
  req1 ← protect now req;
  _ ← superAdminOnly req1;
  updateUserRole now id r.

(** [router.use(protect); router.post("/", adminOnly,
    validate(createAuthorSchema), createAuthor)] *)
Definition authorRoutes_create (now : Date) (req : AuthRequest) (body : CreateAuthorData)
  : Db Author.doc :=
  req1 ← protect now req;
  _ ← adminOnly req1;
  _ ← validate createAuthorSchema body;
  createAuthor now body.

(** [router.delete("/:id", adminOnly, validate(idParamSchema),
    deleteAuthor)] *)
Definition authorRoutes_delete (now : Date) (req : AuthRequest) (id : ObjectId)
  : Db Author.doc :=
  req1 ← protect now req;
  _ ← adminOnly req1;
  deleteAuthor now id.

(** [router.delete("/:id", adminOnly, validate(idParamSchema),
    deletePost)] *)
Definition postRoutes_delete (now : Date) (req : AuthRequest) (id : ObjectId)
  : Db Post.doc :=
  req1 ← protect now req;
  _ ← adminOnly req1;
  deletePost now id.

(** Whether a computation lets the request through. *)
Definition allows {A : Type} (m : Db A) (st : Store) : bool :=
  match m st with
  | (Ok _, _) => true
  | (Throw _, _) => false
  end.

(** The server has a signing key and a well-formed token lifetime. *)
Definition configured : Prop :=
  JWT_SECRET env <> "" /\ is_Some (timespan (JWT_EXPIRES_IN env)).

(** *** More of the Author service *)

(** The argument of a [$set] key in the body of an author update. *)
Record AuthorPaths := mkAuthorPaths {
  aset_name : option string;
  aset_email : option string;
  aset_bio : option string;
  aset_status : option AuthorStatus;
  aset_deletedAt : option (option Date)
}.

(** The body of an author update, as [updateAuthor] receives it ([data:
    any]).  The zod schema lists [name], [email] and [bio]; [status] and
    [deletedAt] are paths of the Author schema that a body may carry
    past [validate], and so are a [$set] key and other update
    operators. *)
Record UpdateAuthorData := mkUpdateAuthor {
  ua_name : option string;
  ua_email : option string;
  ua_bio : option string;
  ua_status : option AuthorStatus;
  ua_deletedAt : option (option Date);
  ua_set : option AuthorPaths;
  ua_operators : list UpdateOperator
}.

(** The [$set] document that Mongoose makes of an author update. *)
Definition castAuthorUpdate (u : UpdateAuthorData) : AuthorPaths :=
  match ua_set u with
  | Some s =>
      {| aset_name := setKey (ua_name u) (aset_name s);
         aset_email := setKey (ua_email u) (aset_email s);
         aset_bio := setKey (ua_bio u) (aset_bio s);
         aset_status := setKey (ua_status u) (aset_status s);
         aset_deletedAt := setKey (ua_deletedAt u) (aset_deletedAt s) |}
  | None =>
      {| aset_name := ua_name u; aset_email := ua_email u; aset_bio := ua_bio u;
         aset_status := ua_status u; aset_deletedAt := ua_deletedAt u |}
  end.

Definition setAuthorPaths (now : Date) (c : AuthorPaths) (a : Author.doc) : Author.doc :=
  {| Author._id := Author._id a;
     Author.name := default (Author.name a) (JsString.trim <$> aset_name c);
     Author.email := default (Author.email a) (emailSetter <$> aset_email c);
     Author.bio := default (Author.bio a) (aset_bio c);
     Author.status := default (Author.status a) (aset_status c);
     Author.deletedAt := default (Author.deletedAt a) (aset_deletedAt c);
     Author.createdAt := Author.createdAt a;
     Author.updatedAt := now |}.

Definition applyAuthorUpdate (now : Date) (u : UpdateAuthorData) (a : Author.doc)
  : Author.doc :=
  setAuthorPaths now (castAuthorUpdate u) a.

Definition Author_validateUpdate (u : UpdateAuthorData) : bool :=
  let c := castAuthorUpdate u in
  match aset_name c with Some n => (2 <=? String.length (JsString.trim n))%nat | None => true end
  && match aset_email c with Some e => negb (JsString.isEmpty (emailSetter e)) | None => true end.

(** What the MongoDB server makes of an author under an update document
    that carries operators other than [$set], or the error it answers
    with.  Those operators are not interpreted here. *)
Variable serverUpdateAuthor : Date -> UpdateAuthorData -> Author.doc -> Outcome Author.doc.

(** The unique index on [email]: another author has this e-mail. *)
Definition authorEmailTaken (a : Author.doc) (st : Store) : bool :=
  existsb (fun o => negb (Author._id o =? Author._id a)%nat
                    && String.eqb (Author.email o) (Author.email a)) (authors st).

(** [updateAuthor]: [Author.findOneAndUpdate({ _id: id, status: { $ne:
    "deleted" } }, data, { new: true, runValidators: true })]. *)
Definition updateAuthor (now : Date) (id : ObjectId) (data : UpdateAuthorData)
  : Db Author.doc :=
  if negb (Author_validateUpdate data) then throw (LibError "ValidationError")
  else
    fun st =>
      match findFirst (liveAuthor id) (authors st) with
      | None => (Throw (AppError "Author not found" 404), st)
      | Some a =>
          match match ua_operators data with
                | [] => Ok (applyAuthorUpdate now data a)
                | _ :: _ => serverUpdateAuthor now data a
                end with
          | Throw e => (Throw e, st)
          | Ok a' =>
              if negb (String.eqb (Author.email a') (Author.email a))
                 && authorEmailTaken a' st
              then (Throw (LibError "E11000 duplicate key error"), st)
              else (Ok a', setAuthors (updateFirst (liveAuthor id) (fun _ => a')
                                         (authors st)) st)
          end
      end.

(** *** The super admin seed ([seed/superAdminSeed.ts]) *)

Definition SEED_name : string := "Ali hadi".
Definition SEED_email : string := "superadmin@gmail.com".
Definition SEED_password : string := "1234134".
Definition SEED_role : Role := super_admin.

(** The assignments of the seed to an existing account. *)
Definition seedRefresh (hashed : string) (existing : User.doc) : User.doc :=
  let shouldUpdate :=
    negb (String.eqb (User.name existing) SEED_name)
    || negb (bool_decide (User.role existing = SEED_role))
    || negb (User.isActive existing) in
  {| User._id := User._id existing;
     User.name := if shouldUpdate then SEED_name else User.name existing;
     User.email := User.email existing;
     User.password := hashed;
     User.role := if shouldUpdate then SEED_role else User.role existing;
     User.isActive := if shouldUpdate then true else User.isActive existing;
     User.deletedAt := if shouldUpdate then None else User.deletedAt existing;
     User.createdAt := User.createdAt existing;
     User.updatedAt := User.updatedAt existing |}.

(** [doc.save()]: the validators run, the document with this [_id] is
    replaced and [updatedAt] refreshed. *)
Definition User_save (now : Date) (u : User.doc) : Db unit :=
  fun st =>
    if negb (User_validate u) then (Throw (LibError "ValidationError"), st)
    else
      (Ok tt,
       setUsers (updateFirst (fun o => (User._id o =? User._id u)%nat)
                   (fun _ => {| User._id := User._id u; User.name := User.name u;
                                User.email := User.email u; User.password := User.password u;
                                User.role := User.role u; User.isActive := User.isActive u;
                                User.deletedAt := User.deletedAt u;
                                User.createdAt := User.createdAt u;
                                User.updatedAt := now |}) (users st)) st).

Definition seedSuperAdmin (now : Date) : Db unit :=
  st ← getStore;
  let hashed := bcrypt_hash SEED_password 10 in
  match User_findOne_email SEED_email st with
  | None =>
      _ ← User_create now SEED_name SEED_email hashed SEED_role;
      mret tt
  | Some existing => User_save now (seedRefresh hashed existing)
  end.

(** *** Tags of a multipart body ([middlewares/normalizePostPayload.ts]) *)

(** An element of an array in a request body: a string or something
    else. *)
Inductive JsonItem :=
| ItemString (s : string)
| ItemOther.

(** A value of a request body. *)
Inductive JsonVal :=
| JNull
| JBool (b : bool)
| JNumber (z : Z)
| JString (s : string)
| JArray (l : list JsonItem)
| JObject.

(** [JSON.parse]; [None] when it throws. *)
Variable JSON_parse : string -> option JsonVal.

(** [l.filter((tag) => typeof tag === "string")] *)
Definition stringsOf (l : list JsonItem) : list string :=
  omap (fun v => match v with ItemString s => Some s | ItemOther => None end) l.

(** [s.split(",")] *)
Fixpoint splitComma_acc (s cur : string) : list string :=
  match s with
  | String c r =>
      if Ascii.eqb c ","%char then JsString.reverse cur :: splitComma_acc r EmptyString
      else splitComma_acc r (String c cur)
  | EmptyString => [JsString.reverse cur]
  end.

Definition splitComma (s : string) : list string := splitComma_acc s EmptyString.

(** [s.split(",").map((tag) => tag.trim()).filter(Boolean)] *)
Definition commaTags (s : string) : list string :=
  List.filter (fun t => negb (JsString.isEmpty t)) (List.map JsString.trim (splitComma s)).

(** [parseTags]; [None] is [undefined]. *)
Definition parseTags (value : JsonVal) : option (list string) :=
  match value with
  | JArray l => Some (stringsOf l)
  | JString s =>
      let trimmed := JsString.trim s in
      if JsString.isEmpty trimmed then Some []
      else if JsString.startsWith "[" trimmed then
        match JSON_parse trimmed with
        | Some (JArray l) => Some (stringsOf l)
        | _ => Some (commaTags trimmed)
        end
      else Some (commaTags trimmed)
  | _ => None
  end.

(** [normalizePostPayload], on the [tags] key of the body ([None] when
    the body has no such key). *)
Definition normalizeTags (tags : option JsonVal) : option JsonVal :=
  match tags with
  | Some v =>
      match parseTags v with
      | Some parsed => Some (JArray (List.map ItemString parsed))
      | None => Some v
      end
  | None => None
  end.

(** *** More routes *)

(** zod's [z.string().url()]. *)
Variable isUrl : string -> bool.

Definition createPostSchema (d : CreatePostData) : bool :=
  (3 <=? String.length (cp_title d))%nat && (3 <=? String.length (cp_slug d))%nat
  && (10 <=? String.length (cp_content d))%nat
  && match cp_image d with Some i => isUrl i | None => true end.

Definition updatePostSchema (d : UpdatePostData) : bool :=
  match up_title d with Some t => (3 <=? String.length t)%nat | None => true end
  && match up_slug d with Some s => (3 <=? String.length s)%nat | None => true end
  && match up_content d with Some c => (10 <=? String.length c)%nat | None => true end
  && match up_image d with Some i => isUrl i | None => true end.

Definition updateAuthorSchema (d : UpdateAuthorData) : bool :=
  match ua_name d with Some n => (2 <=? String.length n)%nat | None => true end
  && match ua_email d with Some e => isEmail e | None => true end.

(** [router.post("/", adminOnly, uploadPostImage.single("image"),
    normalizePostPayload, validate(createPostSchema), createPost)], for
    a request without an uploaded file and with its tags normalized. *)
Definition postRoutes_create (now : Date) (req : AuthRequest) (body : CreatePostData)
  : Db Post.doc :=
  req1 ← protect now req;
  _ ← adminOnly req1;
  _ ← validate createPostSchema body;
  createPost now body.

(** [router.patch("/:id", adminOnly, validate(idParamSchema), ...,
    validate(updatePostSchema), updatePost)] *)
Definition postRoutes_update (now : Date) (req : AuthRequest) (id : ObjectId)
    (body : UpdatePostData) : Db Post.doc :=
  req1 ← protect now req;
  _ ← adminOnly req1;
  _ ← validate updatePostSchema body;
  updatePost now id body.

(** [router.get("/:id", validate(idParamSchema), getPostById)] *)
Definition postRoutes_get (now : Date) (req : AuthRequest) (id : ObjectId) : Db Post.doc :=
  _ ← protect now req;
  getPostById id.

(** [router.get("/", getPosts)] *)
Definition postRoutes_list (now : Date) (req : AuthRequest) (query : gmap string QVal)
  : Db (ListResponse Post.doc) :=
  _ ← protect now req;
  getPosts query.

(** [router.patch("/:id", adminOnly, validate(idParamSchema),
    validate(updateAuthorSchema), updateAuthor)] *)
Definition authorRoutes_update (now : Date) (req : AuthRequest) (id : ObjectId)
    (body : UpdateAuthorData) : Db Author.doc :=
  req1 ← protect now req;
  _ ← adminOnly req1;
  _ ← validate updateAuthorSchema body;
  updateAuthor now id body.

(** The status code of the response: the controller's code on success,
    the error handler's on a throw. *)
Definition httpStatus {A : Type} (okStatus : nat) (m : Db A) (st : Store) : nat :=
  match (m st).1 with
  | Ok _ => okStatus
  | Throw e => (errorHandler e).1
  end.

(** * Properties *)

(** ** Strings: trimming *)

(** A string that does not begin, or does not end, with white space. *)
Definition noLeadingSpace (s : string) : Prop :=
  match s with
  | String c _ => JsString.isWhiteSpace c = false
  | EmptyString => True
  end.

Definition noTrailingSpace (s : string) : Prop := noLeadingSpace (JsString.reverse s).

Definition trimmed (s : string) : Prop := noLeadingSpace s /\ noTrailingSpace s.

(** The characters of a string. *)
Fixpoint chars (s : string) : list ascii :=
  match s with
  | String c r => c :: chars r
  | EmptyString => []
  end.

Lemma append_nil_l (t : string) : "" ++ t = t.
Proof. reflexivity. Qed.

Lemma append_cons (c : ascii) (s t : string) : String c s ++ t = String c (s ++ t).
Proof. reflexivity. Qed.

Ltac append_simpl := rewrite ?append_cons, ?append_nil_l in *.

Lemma append_assoc (s t u : string) : (s ++ t) ++ u = s ++ (t ++ u).
Proof. induction s as [|c s IH]; append_simpl; congruence. Qed.

Lemma rev_acc_app (s acc : string) :
  JsString.rev_acc s acc = JsString.reverse s ++ acc.
Proof.
  unfold JsString.reverse. revert acc.
  induction s as [|c s IH]; intros acc; simpl; [reflexivity|].
  rewrite IH, (IH (String c "")). rewrite append_assoc. reflexivity.
Qed.

Lemma reverse_cons (c : ascii) (s : string) :
  JsString.reverse (String c s) = JsString.reverse s ++ String c "".
Proof. unfold JsString.reverse at 1. simpl. apply rev_acc_app. Qed.

Lemma append_empty_r (s : string) : s ++ "" = s.
Proof. induction s as [|c s IH]; append_simpl; congruence. Qed.

Lemma reverse_app (s t : string) :
  JsString.reverse (s ++ t) = JsString.reverse t ++ JsString.reverse s.
Proof.
  induction s as [|c s IH]; append_simpl.
  - rewrite append_empty_r. reflexivity.
  - rewrite !reverse_cons, IH, append_assoc. reflexivity.
Qed.

Lemma reverse_involutive (s : string) : JsString.reverse (JsString.reverse s) = s.
Proof.
  induction s as [|c s IH]; [reflexivity|].
  rewrite reverse_cons, reverse_app, IH. reflexivity.
Qed.

Lemma trimStart_noLeadingSpace (s : string) : noLeadingSpace (JsString.trimStart s).
Proof.
  induction s as [|c s IH]; simpl; [exact I|].
  destruct (JsString.isWhiteSpace c) eqn:E; [exact IH|exact E].
Qed.

Lemma trimStart_id (s : string) : noLeadingSpace s -> JsString.trimStart s = s.
Proof. destruct s as [|c s]; simpl; [reflexivity|]. intros ->. reflexivity. Qed.

(** Leading white space is removed from the front part only, when the
    rest begins with another character. *)
Lemma trimStart_app (u : string) (c : ascii) (v : string) :
  JsString.isWhiteSpace c = false ->
  JsString.trimStart (u ++ String c v) = JsString.trimStart u ++ String c v.
Proof.
  intros Hc. induction u as [|a u IH]; append_simpl; simpl.
  - rewrite Hc. reflexivity.
  - destruct (JsString.isWhiteSpace a); [exact IH|reflexivity].
Qed.

Lemma trimEnd_noTrailingSpace (s : string) : noTrailingSpace (JsString.trimEnd s).
Proof.
  unfold noTrailingSpace, JsString.trimEnd. rewrite reverse_involutive.
  apply trimStart_noLeadingSpace.
Qed.

Lemma trimEnd_noLeadingSpace (s : string) :
  noLeadingSpace s -> noLeadingSpace (JsString.trimEnd s).
Proof.
  destruct s as [|c s]; [intros _; exact I|]. simpl. intros Hc.
  unfold JsString.trimEnd. rewrite reverse_cons, (trimStart_app _ c "" Hc), reverse_app.
  exact Hc.
Qed.

Lemma trimEnd_id (s : string) : noTrailingSpace s -> JsString.trimEnd s = s.
Proof.
  intros H. unfold JsString.trimEnd. rewrite (trimStart_id _ H). apply reverse_involutive.
Qed.

Lemma trim_trimmed (s : string) : trimmed (JsString.trim s).
Proof.
  split.
  - apply trimEnd_noLeadingSpace, trimStart_noLeadingSpace.
  - apply trimEnd_noTrailingSpace.
Qed.

Lemma trim_id (s : string) : trimmed s -> JsString.trim s = s.
Proof.
  intros [H1 H2]. unfold JsString.trim. rewrite (trimStart_id _ H1). apply trimEnd_id, H2.
Qed.

Lemma trim_idempotent (s : string) : JsString.trim (JsString.trim s) = JsString.trim s.
Proof. apply trim_id, trim_trimmed. Qed.

Lemma chars_app (s t : string) : chars (s ++ t) = (chars s ++ chars t)%list.
Proof. induction s as [|c s IH]; append_simpl; simpl; congruence. Qed.

Lemma chars_reverse (s : string) (c : ascii) :
  In c (chars (JsString.reverse s)) <-> In c (chars s).
Proof.
  induction s as [|a s IH]; [reflexivity|].
  rewrite reverse_cons, chars_app. simpl. rewrite in_app_iff, IH. simpl. tauto.
Qed.

Lemma chars_trimStart (s : string) (c : ascii) :
  In c (chars (JsString.trimStart s)) -> In c (chars s).
Proof.
  induction s as [|a s IH]; simpl; [tauto|].
  destruct (JsString.isWhiteSpace a); simpl; tauto.
Qed.

(** Trimming only removes characters. *)
Lemma chars_trim (s : string) (c : ascii) :
  In c (chars (JsString.trim s)) -> In c (chars s).
Proof.
  unfold JsString.trim, JsString.trimEnd. intros H.
  apply (proj1 (chars_reverse _ _)) in H. apply chars_trimStart in H.
  apply (proj1 (chars_reverse _ _)) in H. apply chars_trimStart. exact H.
Qed.

Lemma isEmpty_true (s : string) : JsString.isEmpty s = true <-> s = "".
Proof. destruct s; simpl; split; congruence. Qed.

(** ** Numbers: printing and parsing *)









(** ** Pagination *)

Example parseInt_examples :
  JsMath.parseInt "25" = Num 25 /\ JsMath.parseInt "  -7px" = Num (-7) /\
  JsMath.parseInt "2.5" = Num 2 /\ JsMath.parseInt "abc" = NaN /\
  JsMath.parseInt "" = NaN /\ JsMath.parseInt "+" = NaN /\
  JsMath.parseInt (ApiFeatures.numToString 10) = Num 10.
Proof. repeat split; reflexivity. Qed.

(** The strings that [paginate 10 100] hands to [parseInt]. *)
Definition pageParam (rq : gmap string QVal) : string :=
  JsValue.toString (JsValue.orElse (rq !! "page") (QStr "1")).

Definition limitParam (rq : gmap string QVal) : string :=
  JsValue.toString (JsValue.orElse (rq !! "limit") (QStr "10")).

Lemma paginate_fields (f : ApiFeatures.t) :
  let f' := ApiFeatures.paginate 10 100 f in
  ApiFeatures.page f' = JsMath.max (JsMath.parseInt (pageParam (ApiFeatures.reqQuery f))) (Num 1)
  /\ ApiFeatures.limit f'
     = JsMath.min (JsMath.max (JsMath.parseInt (limitParam (ApiFeatures.reqQuery f))) (Num 1))
                  (Num 100)
  /\ ApiFeatures.skip f'
     = JsMath.mul (JsMath.sub (ApiFeatures.page f') (Num 1)) (ApiFeatures.limit f')
  /\ skipArg (ApiFeatures.query f') = Some (ApiFeatures.skip f')
  /\ limitArg (ApiFeatures.query f') = Some (ApiFeatures.limit f')
  /\ finds (ApiFeatures.query f') = finds (ApiFeatures.query f)
  /\ sortArg (ApiFeatures.query f') = sortArg (ApiFeatures.query f).
Proof. repeat split. Qed.

(** When both parameters read as numbers (or are absent), the page is at
    least 1, the limit lies in [1, 100] and the offset is
    [(page - 1) * limit].  The equalities are those of exact integers:
    they are JavaScript's for a page within [Number.MAX_SAFE_INTEGER]
    and an offset within it; the bounds on the page and the limit hold
    of the rounded numbers as well. *)
Lemma paginate_numeric (f : ApiFeatures.t) (p l : Z) :
  JsMath.parseInt (pageParam (ApiFeatures.reqQuery f)) = Num p ->
  JsMath.parseInt (limitParam (ApiFeatures.reqQuery f)) = Num l ->
  let f' := ApiFeatures.paginate 10 100 f in
  exists page limit : Z,
    ApiFeatures.page f' = Num page /\ ApiFeatures.limit f' = Num limit
    /\ ApiFeatures.skip f' = Num ((page - 1) * limit)
    /\ page = Z.max p 1 /\ limit = Z.min (Z.max l 1) 100
    /\ 1 <= page /\ 1 <= limit <= 100.
Proof.
  intros Hp Hl f'. exists (Z.max p 1), (Z.min (Z.max l 1) 100).
  destruct (paginate_fields f) as (Hpage & Hlimit & Hskip & _).
  fold f' in Hpage, Hlimit, Hskip.
  rewrite Hskip, Hpage, Hlimit, Hp, Hl. simpl. repeat split; lia.
Qed.

Lemma paginate_defaults (f : ApiFeatures.t) :
  ApiFeatures.reqQuery f !! "page" = None ->
  ApiFeatures.reqQuery f !! "limit" = None ->
  let f' := ApiFeatures.paginate 10 100 f in
  ApiFeatures.page f' = Num 1 /\ ApiFeatures.limit f' = Num 10
  /\ ApiFeatures.skip f' = Num 0.
Proof.
  intros Hp Hl f'.
  destruct (paginate_numeric f 1 10) as (page & limit & H1 & H2 & H3 & -> & -> & _).
  - unfold pageParam. rewrite Hp. reflexivity.
  - unfold limitParam. rewrite Hl. reflexivity.
  - fold f' in H1, H2, H3. rewrite H1, H2, H3. repeat split.
Qed.

(** The limit that [paginate] computes is NaN or a number between 1 and
    100. *)
Lemma paginate_limit_cases (f : ApiFeatures.t) :
  ApiFeatures.limit (ApiFeatures.paginate 10 100 f) = NaN
  \/ exists l, ApiFeatures.limit (ApiFeatures.paginate 10 100 f) = Num l /\ 1 <= l <= 100.
Proof.
  destruct (paginate_fields f) as (_ & Hlimit & _). rewrite Hlimit.
  destruct (JsMath.parseInt _) as [|l]; simpl; [left; reflexivity|].
  right. eexists. split; [reflexivity|lia].
Qed.

Lemma paginate_limit_not_zero (f : ApiFeatures.t) :
  ApiFeatures.limit (ApiFeatures.paginate 10 100 f) <> Num 0.
Proof.
  destruct (paginate_limit_cases f) as [H|(l & H & Hl)]; rewrite H; [discriminate|].
  intros [= ->]. lia.
Qed.

(** A parameter that does not read as a number comes out of [paginate]
    as NaN, and so does the offset. *)
Lemma paginate_NaN_page (f : ApiFeatures.t) :
  JsMath.parseInt (pageParam (ApiFeatures.reqQuery f)) = NaN ->
  ApiFeatures.page (ApiFeatures.paginate 10 100 f) = NaN
  /\ ApiFeatures.skip (ApiFeatures.paginate 10 100 f) = NaN.
Proof.
  intros H. destruct (paginate_fields f) as (Hpage & _ & Hskip & _).
  rewrite Hskip, Hpage, H. split; reflexivity.
Qed.

Lemma paginate_NaN_limit (f : ApiFeatures.t) :
  JsMath.parseInt (limitParam (ApiFeatures.reqQuery f)) = NaN ->
  ApiFeatures.limit (ApiFeatures.paginate 10 100 f) = NaN
  /\ ApiFeatures.skip (ApiFeatures.paginate 10 100 f) = NaN.
Proof.
  intros H. destruct (paginate_fields f) as (_ & Hlimit & Hskip & _).
  rewrite Hskip, Hlimit, H. split; [reflexivity|].
  destruct (ApiFeatures.page _); reflexivity.
Qed.

(** C5 (as the code behaves on a non-numeric parameter).  For the request
    query [page=abc], [paginate] yields the page NaN and the offset NaN;
    for [limit=abc] it yields the limit NaN and the offset NaN: the
    non-numeric value is neither rejected nor brought into range, and NaN
    is what the query's [skip] and [limit] options receive. *)
Theorem paginate_non_numeric_is_NaN :
  let byPage :=
    ApiFeatures.paginate 10 100
      (ApiFeatures.new (Query.start ∅) {[ "page" := QStr "abc" ]}) in
  let byLimit :=
    ApiFeatures.paginate 10 100
      (ApiFeatures.new (Query.start ∅) {[ "limit" := QStr "abc" ]}) in
  (ApiFeatures.page byPage = NaN /\ ApiFeatures.limit byPage = Num 10
   /\ ApiFeatures.skip byPage = NaN
   /\ skipArg (ApiFeatures.query byPage) = Some NaN)
  /\ (ApiFeatures.page byLimit = Num 1 /\ ApiFeatures.limit byLimit = NaN
      /\ ApiFeatures.skip byLimit = NaN
      /\ limitArg (ApiFeatures.query byLimit) = Some NaN).
Proof. vm_compute. repeat split. Qed.

(** ** The list responses *)

Lemma ceilQuot_spec (a b : Z) :
  0 < b -> (JsMath.ceilQuot a b - 1) * b < a <= JsMath.ceilQuot a b * b.
Proof.
  intros Hb. unfold JsMath.ceilQuot.
  pose proof (Z.div_mod (- a) b ltac:(lia)) as Hdm.
  pose proof (Z.mod_pos_bound (- a) b Hb) as Hm.
  nia.
Qed.

Lemma sort_preserves (s : string) (X : ApiFeatures.t) :
  let X' := ApiFeatures.sort s X in
  finds (ApiFeatures.query X') = finds (ApiFeatures.query X)
  /\ skipArg (ApiFeatures.query X') = skipArg (ApiFeatures.query X)
  /\ limitArg (ApiFeatures.query X') = limitArg (ApiFeatures.query X)
  /\ ApiFeatures.reqQuery X' = ApiFeatures.reqQuery X
  /\ is_Some (sortArg (ApiFeatures.query X')).
Proof.
  unfold ApiFeatures.sort. simpl.
  destruct (JsString.isEmpty _); simpl; repeat split; eexists; reflexivity.
Qed.

Lemma search_preserves (fields : list string) (X : ApiFeatures.t) :
  let X' := ApiFeatures.search fields X in
  skipArg (ApiFeatures.query X') = skipArg (ApiFeatures.query X)
  /\ limitArg (ApiFeatures.query X') = limitArg (ApiFeatures.query X)
  /\ sortArg (ApiFeatures.query X') = sortArg (ApiFeatures.query X)
  /\ ApiFeatures.reqQuery X' = ApiFeatures.reqQuery X.
Proof.
  unfold ApiFeatures.search. simpl.
  destruct (_ || _); simpl; repeat split.
Qed.

Lemma filter_preserves (allowed : list string) (X : ApiFeatures.t) :
  let X' := ApiFeatures.filter allowed X in
  skipArg (ApiFeatures.query X') = skipArg (ApiFeatures.query X)
  /\ limitArg (ApiFeatures.query X') = limitArg (ApiFeatures.query X)
  /\ sortArg (ApiFeatures.query X') = sortArg (ApiFeatures.query X)
  /\ ApiFeatures.reqQuery X' = ApiFeatures.reqQuery X.
Proof. repeat split. Qed.

(** The filter and search stages on a fresh query leave [skip] and
    [limit] unset: this is the shape of every count query. *)
Definition unpaged (X : ApiFeatures.t) : Prop :=
  skipArg (ApiFeatures.query X) = None /\ limitArg (ApiFeatures.query X) = None.

Lemma unpaged_new (o : gmap string CondV) (rq : gmap string QVal) :
  unpaged (ApiFeatures.new (Query.start o) rq).
Proof. split; reflexivity. Qed.

Lemma unpaged_filter (allowed : list string) (X : ApiFeatures.t) :
  unpaged X -> unpaged (ApiFeatures.filter allowed X).
Proof. intros H. exact H. Qed.

Lemma unpaged_search (fields : list string) (X : ApiFeatures.t) :
  unpaged X -> unpaged (ApiFeatures.search fields X).
Proof.
  intros [H1 H2]. destruct (search_preserves fields X) as (E1 & E2 & _).
  split; congruence.
Qed.

Lemma applyLimit_length {D : Type} (q : MQuery) (l : Z) (x : list D) :
  limitArg q = Some (Num l) -> 1 <= l ->
  (List.length (applyLimit q x) <= Z.to_nat l)%nat.
Proof.
  intros Hq Hl. unfold applyLimit. rewrite Hq. simpl.
  destruct (Z.to_nat l) as [|k] eqn:E; [lia|].
  rewrite length_take. lia.
Qed.

(** The response of [listResponse], read off its definition. *)
Lemma listResponse_ok {D : Type} (compile : list FindArg -> option (D -> bool))
    (sortDocs : string -> list D -> list D) (F C : ApiFeatures.t)
    (docs : list D) (st st' : Store) (r : ListResponse D) :
  listResponse compile sortDocs F C docs st = (Ok r, st') ->
  st' = st
  /\ exists pc pd,
       compile (finds (ApiFeatures.query C)) = Some pc
       /\ compile (finds (ApiFeatures.query F)) = Some pd
       /\ resp_page r = ApiFeatures.page F
       /\ resp_limit r = ApiFeatures.limit F
       /\ resp_total r
          = List.length (applyLimit (ApiFeatures.query C)
                           (applySkip (ApiFeatures.query C) (List.filter pc docs)))
       /\ resp_totalPages r = totalPagesOf (resp_total r) (ApiFeatures.limit F)
       /\ resp_results r = List.length (resp_data r)
       /\ resp_data r
          = applyLimit (ApiFeatures.query F)
              (applySkip (ApiFeatures.query F)
                 (applySort sortDocs (ApiFeatures.query F) (List.filter pd docs))).
Proof.
  unfold listResponse, mbind, Db_bind, liftOutcome, mret, Db_ret, countDocuments, exec.
  destruct (compile (finds (ApiFeatures.query C))) as [pc|]; [|discriminate].
  destruct (compile (finds (ApiFeatures.query F))) as [pd|]; [|discriminate].
  intros [= <- <-]. split; [reflexivity|]. exists pc, pd. repeat split.
Qed.

(** A response whose limit is NaN has [totalPages] NaN. *)
Lemma listResponse_NaN {D : Type} (compile : list FindArg -> option (D -> bool))
    (sortDocs : string -> list D -> list D) (F C : ApiFeatures.t)
    (docs : list D) (st st' : Store) (r : ListResponse D) :
  listResponse compile sortDocs F C docs st = (Ok r, st') ->
  ApiFeatures.limit F = NaN ->
  resp_limit r = NaN /\ resp_totalPages r = NaN.
Proof.
  intros H HN. apply listResponse_ok in H as (_ & pc & pd & _ & _ & _ & Hl & _ & Htp & _).
  rewrite Hl, Htp, HN. split; reflexivity.
Qed.

(** What a list response holds when the data query is the count query
    [X] with the sort and paginate stages added: the total counts the
    documents that match the filter and search criteria of [X], whatever
    the page and limit are; the data query uses the same criteria;
    [totalPages] is computed from the total and the limit; and when the
    limit is a number it lies in [1, 100], bounds the length of the page
    and gives [totalPages = max(ceil(total / limit), 1)]. *)
Lemma listResponse_spec {D : Type} (compile : list FindArg -> option (D -> bool))
    (sortDocs : string -> list D -> list D) (X : ApiFeatures.t) (s : string)
    (docs : list D) (st st' : Store) (r : ListResponse D) :
  unpaged X ->
  listResponse compile sortDocs
    (ApiFeatures.paginate 10 100 (ApiFeatures.sort s X)) X docs st = (Ok r, st') ->
  st' = st
  /\ finds (ApiFeatures.query (ApiFeatures.paginate 10 100 (ApiFeatures.sort s X)))
     = finds (ApiFeatures.query X)
  /\ (exists pred, compile (finds (ApiFeatures.query X)) = Some pred
                   /\ resp_total r = List.length (List.filter pred docs))
  /\ resp_totalPages r = totalPagesOf (resp_total r) (resp_limit r)
  /\ resp_results r = List.length (resp_data r)
  /\ resp_limit r = ApiFeatures.limit (ApiFeatures.paginate 10 100 X)
  /\ (forall l, resp_limit r = Num l ->
        1 <= l <= 100
        /\ (List.length (resp_data r) <= Z.to_nat l)%nat
        /\ resp_totalPages r
           = Num (Z.max (JsMath.ceilQuot (Z.of_nat (resp_total r)) l) 1)).
Proof.
  intros [Hs Hl] H.
  destruct (sort_preserves s X) as (Efinds & _).
  set (F := ApiFeatures.paginate 10 100 (ApiFeatures.sort s X)) in *.
  assert (EF : finds (ApiFeatures.query F) = finds (ApiFeatures.query X)) by exact Efinds.
  assert (EL : limitArg (ApiFeatures.query F) = Some (ApiFeatures.limit F)) by reflexivity.
  assert (EX : ApiFeatures.limit F = ApiFeatures.limit (ApiFeatures.paginate 10 100 X))
    by reflexivity.
  pose proof (paginate_limit_cases (ApiFeatures.sort s X)) as Hcases. fold F in Hcases.
  clearbody F.
  apply listResponse_ok in H
    as (-> & pc & pd & Hpc & Hpd & Hpage & Hlim & Htot & Htp & Hres & Hdata).
  split; [reflexivity|]. split; [exact EF|].
  split.
  { exists pc. split; [exact Hpc|]. rewrite Htot.
    unfold applyLimit, applySkip. rewrite Hs, Hl. reflexivity. }
  split; [congruence|]. split; [exact Hres|]. split; [congruence|].
  intros l El. rewrite Hlim in El.
  assert (Hb : 1 <= l <= 100).
  { destruct Hcases as [HN|(l' & HL' & Hb)]; congruence. }
  split; [exact Hb|]. split.
  - rewrite Hdata. apply applyLimit_length; [|lia]. rewrite EL, El. reflexivity.
  - rewrite Htp, El. unfold totalPagesOf. simpl.
    destruct (l =? 0)%Z eqn:E0; [lia|]. reflexivity.
Qed.

Definition listResponseSpec {D : Type} (compile : list FindArg -> option (D -> bool))
    (X : ApiFeatures.t) (docs : list D) (r : ListResponse D) : Prop :=
  (exists pred, compile (finds (ApiFeatures.query X)) = Some pred
                /\ resp_total r = List.length (List.filter pred docs))
  /\ resp_totalPages r = totalPagesOf (resp_total r) (resp_limit r)
  /\ resp_results r = List.length (resp_data r)
  /\ resp_limit r = ApiFeatures.limit (ApiFeatures.paginate 10 100 X)
  /\ (forall l, resp_limit r = Num l ->
        1 <= l <= 100
        /\ (List.length (resp_data r) <= Z.to_nat l)%nat
        /\ resp_totalPages r
           = Num (Z.max (JsMath.ceilQuot (Z.of_nat (resp_total r)) l) 1)).

(** Every list endpoint: the store is left as it was, and the response
    satisfies [listResponseSpec] for the count query of the endpoint
    (the base scope with the filter and search stages, no pagination). *)
Lemma getPosts_spec (query : gmap string QVal) (st st' : Store)
    (r : ListResponse Post.doc) :
  getPosts query st = (Ok r, st') ->
  st' = st
  /\ listResponseSpec compilePost
       (ApiFeatures.search ["title"; "content"; "slug"]
          (ApiFeatures.filter ["status"; "author"; "tag"]
             (ApiFeatures.new (Query.start notDeleted) (mapAuthorId query))))
       (posts st) r.
Proof.
  unfold getPosts. intros H.
  apply listResponse_spec in H as (-> & _ & H).
  - split; [reflexivity|exact H].
  - apply unpaged_search, unpaged_filter, unpaged_new.
Qed.

Lemma getPostsByAuthor_spec (authorId : string) (query : gmap string QVal)
    (st st' : Store) (r : ListResponse Post.doc) :
  getPostsByAuthor authorId query st = (Ok r, st') ->
  st' = st
  /\ exists oid, parseObjectId authorId = Some oid
     /\ listResponseSpec compilePost
          (ApiFeatures.search ["title"; "content"; "slug"]
             (ApiFeatures.filter ["status"; "tag"]
                (ApiFeatures.new (Query.start (<["author" := CId oid]> notDeleted)) query)))
          (posts st) r.
Proof.
  unfold getPostsByAuthor. destruct (parseObjectId authorId) as [oid|]; [|discriminate].
  intros H. apply listResponse_spec in H as (-> & _ & H).
  - split; [reflexivity|]. exists oid. split; [reflexivity|exact H].
  - apply unpaged_search, unpaged_filter, unpaged_new.
Qed.

Lemma getAuthors_spec (query : gmap string QVal) (st st' : Store)
    (r : ListResponse Author.doc) :
  getAuthors query st = (Ok r, st') ->
  st' = st
  /\ listResponseSpec compileAuthor
       (ApiFeatures.search ["name"; "email"]
          (ApiFeatures.filter ["name"; "email"]
             (ApiFeatures.new (Query.start notDeleted) query)))
       (authors st) r.
Proof.
  unfold getAuthors. intros H.
  apply listResponse_spec in H as (-> & _ & H).
  - split; [reflexivity|exact H].
  - apply unpaged_search, unpaged_filter, unpaged_new.
Qed.

Lemma getUsers_spec (query : gmap string QVal) (st st' : Store)
    (r : ListResponse User.doc) :
  getUsers query st = (Ok r, st') ->
  st' = st
  /\ listResponseSpec compileUser
       (ApiFeatures.search ["name"; "email"]
          (ApiFeatures.new (Query.start activeAdmins) query))
       (users st) r.
Proof.
  unfold getUsers. intros H.
  apply listResponse_spec in H as (-> & _ & H).
  - split; [reflexivity|exact H].
  - apply unpaged_search, unpaged_new.
Qed.

(** A list endpoint answers whenever the filter can be cast. *)
Lemma getPosts_answers (query : gmap string QVal) (st : Store) (pred : Post.doc -> bool) :
  compilePost
    (finds (ApiFeatures.query
       (ApiFeatures.search ["title"; "content"; "slug"]
          (ApiFeatures.filter ["status"; "author"; "tag"]
             (ApiFeatures.new (Query.start notDeleted) (mapAuthorId query))))))
  = Some pred ->
  exists r, getPosts query st = (Ok r, st).
Proof.
  intros Hc. unfold getPosts, listResponse, mbind, Db_bind, getStore, liftOutcome,
    mret, Db_ret, countDocuments, exec.
  set (X := ApiFeatures.search _ _) in *.
  destruct (sort_preserves "-createdAt" X) as (Efinds & _).
  change (finds (ApiFeatures.query
            (ApiFeatures.paginate 10 100 (ApiFeatures.sort "-createdAt" X))))
    with (finds (ApiFeatures.query (ApiFeatures.sort "-createdAt" X))).
  rewrite Efinds, Hc. eexists. reflexivity.
Qed.

(** ** Collections and the monad: auxiliary facts *)

Lemma isEmpty_false (s : string) : s <> "" -> JsString.isEmpty s = false.
Proof. destruct s; [congruence|reflexivity]. Qed.

Lemma findFirst_None_existsb {D : Type} (p : D -> bool) (l : list D) :
  findFirst p l = None -> existsb p l = false.
Proof.
  unfold findFirst. induction l as [|d l IH]; simpl; [reflexivity|].
  destruct (p d); [discriminate|exact IH].
Qed.

Lemma findFirst_Some {D : Type} (p : D -> bool) (l : list D) (d : D) :
  findFirst p l = Some d -> In d l /\ p d = true.
Proof. unfold findFirst. apply List.find_some. Qed.

Lemma findFirst_None_forall {D : Type} (p : D -> bool) (l : list D) :
  (forall d, In d l -> p d = false) -> findFirst p l = None.
Proof.
  unfold findFirst. induction l as [|d l IH]; simpl; intros H; [reflexivity|].
  rewrite (H d (or_introl eq_refl)). apply IH. intros x Hx. apply H. right. exact Hx.
Qed.

(** Updating the first match in place: the first match is now its
    image, provided the update keeps it a match. *)
Lemma findFirst_updateFirst {D : Type} (p : D -> bool) (f : D -> D) (l : list D) (d : D) :
  findFirst p l = Some d -> p (f d) = true ->
  findFirst p (updateFirst p f l) = Some (f d).
Proof.
  unfold findFirst. induction l as [|x l IH]; simpl; [discriminate|].
  destruct (p x) eqn:Ex.
  - intros [= ->] Hf. simpl. rewrite Hf. reflexivity.
  - intros Hd Hf. simpl. rewrite Ex. apply IH; assumption.
Qed.

(** The same when the update goes by a stronger predicate [p] than the
    lookup [q]. *)
Lemma findFirst_updateFirst_by {D : Type} (p q : D -> bool) (f : D -> D) (l : list D)
    (d : D) :
  findFirst p l = Some d -> findFirst q l = Some d -> q (f d) = true ->
  findFirst q (updateFirst p f l) = Some (f d).
Proof.
  unfold findFirst. induction l as [|x l IH]; simpl; [discriminate|].
  intros Hp Hq Hf. destruct (p x) eqn:Ep.
  - injection Hp as ->. simpl. rewrite Hf. reflexivity.
  - simpl. destruct (q x) eqn:Eq.
    + injection Hq as ->. apply List.find_some in Hp as [_ Hp]. congruence.
    + apply IH; assumption.
Qed.

Lemma In_updateFirst {D : Type} (p : D -> bool) (f : D -> D) (l : list D) (d : D) :
  findFirst p l = Some d -> In (f d) (updateFirst p f l).
Proof.
  unfold findFirst. induction l as [|x l IH]; simpl; [discriminate|].
  destruct (p x) eqn:Ex.
  - intros [= ->]. left. reflexivity.
  - intros Hd. right. apply IH. exact Hd.
Qed.

Lemma updateFirst_length {D : Type} (p : D -> bool) (f : D -> D) (l : list D) :
  List.length (updateFirst p f l) = List.length l.
Proof.
  induction l as [|x l IH]; simpl; [reflexivity|].
  destruct (p x); simpl; congruence.
Qed.

(** With unique ids, the live document with a given id is the document
    with that id. *)
Lemma findFirst_unique_id {D : Type} (key : D -> nat) (p : D -> bool) (l : list D)
    (d : D) (id : nat) :
  NoDup (List.map key l) ->
  findFirst (fun x => (key x =? id)%nat && p x) l = Some d ->
  findFirst (fun x => (key x =? id)%nat) l = Some d.
Proof.
  unfold findFirst. induction l as [|x l IH]; simpl; [discriminate|].
  intros Hnd Hd. inversion Hnd as [|? ? Hx Hnd']; subst.
  destruct (Nat.eqb_spec (key x) id) as [E|NE]; simpl in Hd.
  - destruct (p x); [exact Hd|].
    apply List.find_some in Hd as [Hin Hk]. apply andb_prop in Hk as [Hk _].
    apply Nat.eqb_eq in Hk. exfalso. apply Hx.
    rewrite E, <- Hk. apply list_elem_of_In, List.in_map. exact Hin.
  - apply IH; assumption.
Qed.

(** ** Login and deactivated accounts *)

(** C1 (as the code behaves).  Login with the e-mail and the correct
    password of a stored user returns a token carrying that user's id
    and role, and leaves the store as it is, whatever the account's
    [isActive] flag says, so also for a deactivated account: [login]
    looks the user up by e-mail alone and never reads the flag, where
    the user list scopes its query by [isActive: true]. *)
Theorem login_ignores_isActive (now : Date) (data : LoginData) (st : Store)
    (u : User.doc) (d : Z) :
  User_findOne_email (login_email data) st = Some u ->
  bcrypt_compare (login_password data) (User.password u) = true ->
  JWT_SECRET env <> "" ->
  timespan (JWT_EXPIRES_IN env) = Some d ->
  login now data st
  = (Ok {| token :=
             jwt_encode
               {| payload := {| userId := ObjectId_toString (User._id u);
                                tokenRole := roleName (User.role u) |};
                  iat := seconds now; exp := seconds now + d;
                  signedWith := JWT_SECRET env |};
           resultUser := publicUser u |}, st).
Proof.
  intros Hfind Hpw Hkey Hspan.
  unfold login. db_unfold. rewrite Hfind, Hpw. simpl.
  unfold signToken, jwt_sign. rewrite (isEmpty_false _ Hkey), Hspan. reflexivity.
Qed.

(** ** Soft delete of a record already deleted *)

Lemma deletePost_NotFound (now : Date) (id : ObjectId) (st : Store) :
  (forall p, In p (posts st) -> Post._id p = id -> Post.status p = deleted) ->
  deletePost now id st = (Throw (AppError "Post not found" 404), st).
Proof.
  intros H. unfold deletePost, Post_findOneAndUpdate. db_unfold.
  rewrite findFirst_None_forall; [reflexivity|].
  intros p Hp. unfold livePost.
  destruct (Nat.eqb_spec (Post._id p) id) as [E|]; [|reflexivity].
  rewrite (H p Hp E). reflexivity.
Qed.

Lemma deleteAuthor_NotFound (now : Date) (id : ObjectId) (st : Store) :
  (forall a, In a (authors st) -> Author._id a = id -> Author.status a = removed) ->
  deleteAuthor now id st = (Throw (AppError "Author not found" 404), st).
Proof.
  intros H. unfold deleteAuthor. db_unfold.
  rewrite findFirst_None_forall; [reflexivity|].
  intros a Ha. unfold liveAuthor.
  destruct (Nat.eqb_spec (Author._id a) id) as [E|]; [|reflexivity].
  rewrite (H a Ha E). reflexivity.
Qed.


(** C2 (the user path).  Deactivating a user twice: the second call, on
    the account that the first call made inactive, does not answer
    NotFound; it succeeds again and moves [deletedAt] from the time of
    the first call to the time of the second. *)
Theorem deactivateUser_twice (t1 t2 : Date) (id : ObjectId) (st : Store) (u : User.doc) :
  User_findById id st = Some u ->
  exists st1 st2,
    deactivateUser t1 id st = (Ok (markUserInactive t1 u), st1)
    /\ User_findById id st1 = Some (markUserInactive t1 u)
    /\ User.isActive (markUserInactive t1 u) = false
    /\ deactivateUser t2 id st1 = (Ok (markUserInactive t2 (markUserInactive t1 u)), st2)
    /\ User_findById id st2 = Some (markUserInactive t2 (markUserInactive t1 u))
    /\ User.deletedAt (markUserInactive t2 (markUserInactive t1 u)) = Some t2.
Proof.
  intros Hfind.
  assert (Hkeep : forall t v, (User._id v =? id)%nat = true ->
                              (User._id (markUserInactive t v) =? id)%nat = true)
    by (intros t v Hv; exact Hv).
  assert (Hid : (User._id u =? id)%nat = true)
    by (apply findFirst_Some in Hfind as [_ H]; exact H).
  assert (H1 : User_findById id
                 (setUsers (updateFirst (fun v => (User._id v =? id)%nat)
                              (markUserInactive t1) (users st)) st)
               = Some (markUserInactive t1 u)).
  { unfold User_findById. simpl. apply findFirst_updateFirst; [exact Hfind|].
    apply Hkeep, Hid. }
  eexists. eexists. split; [|split; [|split; [|split; [|split]]]].
  - unfold deactivateUser, User_findByIdAndUpdate. db_unfold. rewrite Hfind. reflexivity.
  - exact H1.
  - reflexivity.
  - unfold deactivateUser, User_findByIdAndUpdate. db_unfold. rewrite H1. reflexivity.
  - unfold User_findById. simpl. apply findFirst_updateFirst.
    + exact H1.
    + apply Hkeep, Hkeep, Hid.
  - reflexivity.
Qed.

(** ** Registration *)

(** A registration payload is accepted when it passes the zod schema
    of the route and the document built from it passes the validators
    of the User schema. *)
Definition acceptedRegistration (now : Date) (id : ObjectId) (data : RegisterData) : bool :=
  registerSchema data
  && User_validate
       (newUser now id (reg_name data) (reg_email data)
          (bcrypt_hash (reg_password data) 10) (default admin (reg_role data))).

(** C3.  The register route has no authentication middleware and takes
    the role from the payload: for an accepted payload with an unused
    e-mail and [role = super_admin], whatever the request's headers, it
    stores a new user whose role is super_admin and answers with that
    user and with a token whose payload carries the role
    ["super_admin"]. *)
Theorem register_honours_role (now : Date) (req : AuthRequest) (data : RegisterData)
    (st : Store) (d : Z) :
  acceptedRegistration now (nextId st) data = true ->
  User_findOne_email (reg_email data) st = None ->
  reg_role data = Some super_admin ->
  JWT_SECRET env <> "" ->
  timespan (JWT_EXPIRES_IN env) = Some d ->
  let u := newUser now (nextId st) (reg_name data) (reg_email data)
             (bcrypt_hash (reg_password data) 10) super_admin in
  authRoutes_register now req data st
  = (Ok {| token :=
             jwt_encode
               {| payload := {| userId := ObjectId_toString (nextId st);
                                tokenRole := "super_admin" |};
                  iat := seconds now; exp := seconds now + d;
                  signedWith := JWT_SECRET env |};
           resultUser := {| pu_id := nextId st; pu_name := User.name u;
                            pu_email := User.email u; pu_role := super_admin |} |},
     {| users := (users st ++ [u])%list; authors := authors st;
        posts := posts st; nextId := S (nextId st) |})
  /\ User.role u = super_admin /\ User.isActive u = true.
Proof.
  intros Hacc Hfree Hrole Hkey Hspan u.
  unfold acceptedRegistration in Hacc. rewrite Hrole in Hacc. simpl in Hacc.
  apply andb_prop in Hacc as [Hzod Hval]. fold u in Hval.
  split; [|split; reflexivity].
  unfold authRoutes_register, validate, register, User_create. db_unfold.
  rewrite Hzod, Hfree, Hrole. simpl. fold u. rewrite Hval. simpl.
  apply findFirst_None_existsb in Hfree. unfold User_findOne_email in Hfree.
  change (User.email u) with (emailSetter (reg_email data)).
  rewrite Hfree.
  unfold signToken, jwt_sign. rewrite (isEmpty_false _ Hkey), Hspan. reflexivity.
Qed.

(** ** The referential guard on authors *)


(** ** Post life cycle *)

Lemma updatePayload_status (now : Date) (data : UpdatePostData) :
  let u := updatePayload now data in
  up_status u = up_status data
  /\ (up_status data = Some published ->
        up_publishedAt u = Some (Some now) /\ up_deletedAt u = Some None)
  /\ (up_status data = Some draft ->
        up_publishedAt u = Some None /\ up_deletedAt u = Some None)
  /\ (up_status data = Some deleted ->
        up_publishedAt u = Some None /\ up_deletedAt u = Some (Some now)).
Proof.
  unfold updatePayload.
  destruct data as [t s c i [[| |]|] tg a pa da se ops]; destruct i; simpl;
    repeat split; intros; try discriminate; reflexivity.
Qed.

(** The service carries the [$set] key and the other operators of the
    body along as they are, and leaves the dates of a body without a
    top-level status alone. *)
Lemma updatePayload_carries (now : Date) (data : UpdatePostData) :
  let u := updatePayload now data in
  up_set u = up_set data /\ up_operators u = up_operators data
  /\ (up_status data = None ->
        up_publishedAt u = up_publishedAt data /\ up_deletedAt u = up_deletedAt data).
Proof.
  unfold updatePayload.
  destruct data as [t s c i [[| |]|] tg a pa da se ops]; destruct i; simpl;
    repeat split; intros; try discriminate; reflexivity.
Qed.

(** A top-level key of the update document is the key that is set. *)
Lemma castUpdate_top (u : UpdatePostData) :
  (forall s, up_status u = Some s -> set_status (castUpdate u) = Some s)
  /\ (forall d, up_publishedAt u = Some d -> set_publishedAt (castUpdate u) = Some d)
  /\ (forall d, up_deletedAt u = Some d -> set_deletedAt (castUpdate u) = Some d).
Proof.
  unfold castUpdate.
  destruct (up_set u); simpl; repeat split; intros ? ->; reflexivity.
Qed.

(** What [updatePost] returns when it succeeds on a body without
    operators other than [$set]: the image under the adjusted payload of
    the live post with this id, stored in its place. *)
Lemma updatePost_ok (now : Date) (id : ObjectId) (data : UpdatePostData)
    (st st' : Store) (p : Post.doc) :
  up_operators data = [] ->
  updatePost now id data st = (Ok p, st') ->
  exists p0,
    findFirst (livePost id) (posts st) = Some p0
    /\ p = applyPostUpdate now (updatePayload now data) p0
    /\ st' = setPosts (updateFirst (livePost id)
                         (applyPostUpdate now (updatePayload now data)) (posts st)) st.
Proof.
  intros Hops. unfold updatePost, Post_findOneAndUpdate. db_unfold.
  destruct (updatePayload_carries now data) as (_ & Eops & _).
  rewrite Eops, Hops.
  destruct (Post_validateUpdate _); simpl; [|discriminate].
  destruct (findFirst (livePost id) (posts st)) as [p0|] eqn:E; [|discriminate].
  destruct (_ && _); [discriminate|].
  intros [= <- <-]. exists p0. repeat split.
Qed.

(** [updatePost] succeeds on a live post when the body has no operator
    other than [$set], the payload passes the update validators and
    does not move the slug onto another post. *)
Lemma updatePost_succeeds (now : Date) (id : ObjectId) (data : UpdatePostData)
    (st : Store) (p0 : Post.doc) :
  up_operators data = [] ->
  findFirst (livePost id) (posts st) = Some p0 ->
  Post_validateUpdate (updatePayload now data) = true ->
  slugTaken (applyPostUpdate now (updatePayload now data) p0) st = false ->
  exists st', updatePost now id data st
              = (Ok (applyPostUpdate now (updatePayload now data) p0), st').
Proof.
  intros Hops Hfind Hval Hslug. unfold updatePost, Post_findOneAndUpdate. db_unfold.
  destruct (updatePayload_carries now data) as (_ & Eops & _).
  rewrite Eops, Hops, Hval. simpl. rewrite Hfind, Hslug, andb_false_r.
  eexists. reflexivity.
Qed.

(** The case that the service handles.  When an update of a post
    that is not deleted succeeds and its body has no operator other
    than [$set], the post it returns is the one stored under the id; if
    the body has the top-level key [status: "published"], that post has
    [publishedAt] set (to now) and [deletedAt] null; if it has the
    top-level key [status: "draft"], it has [publishedAt] null; and
    this whatever the body's [$set] key says, since a top-level key
    goes before it. *)
Lemma updatePost_status_dates (now : Date) (id : ObjectId) (data : UpdatePostData)
    (st st' : Store) (p : Post.doc) :
  up_operators data = [] ->
  updatePost now id data st = (Ok p, st') ->
  (Post._id p = id /\ In p (posts st')
   /\ (NoDup (List.map Post._id (posts st)) -> Post_findById id st' = Some p))
  /\ (up_status data = Some published ->
        Post.status p = published /\ Post.publishedAt p = Some now
        /\ Post.publishedAt p <> None /\ Post.deletedAt p = None)
  /\ (up_status data = Some draft ->
        Post.status p = draft /\ Post.publishedAt p = None /\ Post.deletedAt p = None).
Proof.
  intros Hops H. apply updatePost_ok in H as (p0 & Hfind & -> & ->); [|exact Hops].
  destruct (updatePayload_status now data) as (Hst & Hpub & Hdraft & _).
  destruct (castUpdate_top (updatePayload now data)) as (Cs & Cp & Cd).
  assert (Hid : Post._id p0 = id).
  { apply findFirst_Some in Hfind as [_ Hl]. unfold livePost in Hl.
    apply andb_prop in Hl as [Hl _]. apply Nat.eqb_eq in Hl. exact Hl. }
  split; [split; [exact Hid|split]|split].
  - simpl. apply In_updateFirst. exact Hfind.
  - intros Hnd. unfold Post_findById. simpl.
    apply findFirst_updateFirst_by.
    + exact Hfind.
    + exact (findFirst_unique_id Post._id _ _ _ _ Hnd Hfind).
    + apply Nat.eqb_eq. exact Hid.
  - intros Hs. destruct (Hpub Hs) as [Hp Hd]. rewrite Hs in Hst.
    unfold applyPostUpdate, setPostPaths. simpl.
    rewrite (Cs _ Hst), (Cp _ Hp), (Cd _ Hd). simpl.
    repeat split. discriminate.
  - intros Hs. destruct (Hdraft Hs) as [Hp Hd]. rewrite Hs in Hst.
    unfold applyPostUpdate, setPostPaths. simpl.
    rewrite (Cs _ Hst), (Cp _ Hp), (Cd _ Hd). simpl.
    repeat split.
Qed.

(** The body [{ "$set": { "status": s } }]. *)
Definition setStatusOnly (s : PostStatus) : UpdatePostData :=
  {| up_title := None; up_slug := None; up_content := None; up_image := None;
     up_status := None; up_tags := None; up_author := None;
     up_publishedAt := None; up_deletedAt := None;
     up_set := Some {| set_title := None; set_slug := None; set_content := None;
                       set_image := None; set_status := Some s;
                       set_tags := None; set_author := None;
                       set_publishedAt := None; set_deletedAt := None |};
     up_operators := [] |}.

(** C7 (as the code behaves on a [$set] body).  The body
    [{ "$set": { "status": s } }] passes [updatePostSchema], which lets
    unlisted keys through, and [updatePost], which looks at the
    top-level [status] only, applies it to every post that is not
    deleted: the post it returns and stores has the status [s] while
    its [publishedAt] and [deletedAt] are those it had before.  A draft
    published this way has [publishedAt] null, and a published post
    made a draft this way keeps its [publishedAt]. *)
Theorem updatePost_set_status_keeps_dates (now : Date) (id : ObjectId) (s : PostStatus)
    (st : Store) (p0 : Post.doc) :
  findFirst (livePost id) (posts st) = Some p0 ->
  updatePostSchema (setStatusOnly s) = true
  /\ exists p st',
       updatePost now id (setStatusOnly s) st = (Ok p, st')
       /\ Post._id p = id /\ In p (posts st')
       /\ Post.status p = s
       /\ Post.publishedAt p = Post.publishedAt p0
       /\ Post.deletedAt p = Post.deletedAt p0
       /\ (Post.status p0 = draft -> Post.publishedAt p0 = None -> s = published ->
           Post.status p = published /\ Post.publishedAt p = None).
Proof.
  intros Hfind. split; [reflexivity|].
  assert (Hid : Post._id p0 = id).
  { apply findFirst_Some in Hfind as [_ Hl]. unfold livePost in Hl.
    apply andb_prop in Hl as [Hl _]. apply Nat.eqb_eq in Hl. exact Hl. }
  exists (applyPostUpdate now (setStatusOnly s) p0),
         (setPosts (updateFirst (livePost id) (applyPostUpdate now (setStatusOnly s))
                      (posts st)) st).
  split.
  - unfold updatePost, Post_findOneAndUpdate. db_unfold.
    assert (E : updatePayload now (setStatusOnly s) = setStatusOnly s) by reflexivity.
    rewrite E. simpl. rewrite Hfind. simpl. rewrite String.eqb_refl. reflexivity.
  - split; [exact Hid|]. split; [simpl; apply In_updateFirst; exact Hfind|].
    split; [reflexivity|]. split; [reflexivity|]. split; [reflexivity|].
    intros _ Hp ->. split; [reflexivity|exact Hp].
Qed.

(** C8.  A creation payload whose status is deleted is rejected with
    the status code 400 and the store is left as it was; and whenever
    [createPost] does store a post, the post is the one appended to the
    collection, its status is not deleted and its [deletedAt] is null. *)
Theorem createPost_never_deleted (now : Date) (data : CreatePostData) (st : Store) :
  (cp_status data = Some deleted ->
     createPost now data st
     = (Throw (AppError "Cannot create a post with status 'deleted'" 400), st)
     /\ isValidationFailed (AppError "Cannot create a post with status 'deleted'" 400)
     /\ (errorHandler (AppError "Cannot create a post with status 'deleted'" 400)).1 = 400%nat)
  /\ (forall p st', createPost now data st = (Ok p, st') ->
        st' = addPost p st
        /\ Post.status p <> deleted /\ Post.deletedAt p = None)
  /\ (forall e st', createPost now data st = (Throw e, st') -> st' = st).
Proof.
  split; [|split].
  - intros Hdel. unfold createPost. rewrite Hdel. simpl. repeat split.
  - intros p st'. unfold createPost, Post_create. db_unfold.
    destruct (bool_decide (cp_status data = Some deleted)) eqn:Ed; [discriminate|].
    apply bool_decide_eq_false in Ed.
    destruct (negb (Post_validate _)); [discriminate|].
    destruct (slugTaken _ st); [discriminate|].
    intros [= <- <-]. simpl. split; [reflexivity|]. split; [|reflexivity].
    destruct (cp_status data) as [[| |]|]; simpl; congruence.
  - intros e st'. unfold createPost, Post_create. db_unfold.
    destruct (bool_decide (cp_status data = Some deleted)); [intros [= _ <-]; reflexivity|].
    destruct (negb (Post_validate _)); [intros [= _ <-]; reflexivity|].
    destruct (slugTaken _ st); [intros [= _ <-]; reflexivity|discriminate].
Qed.

(** [createPost] stores the post when the payload's status is not
    deleted, the document passes the validators and the slug is free. *)
Lemma createPost_succeeds (now : Date) (data : CreatePostData) (st : Store) :
  let p := newPost now (nextId st) data (createPublishedAt now data)
             (imageOrDefault (cp_image data)) in
  cp_status data <> Some deleted ->
  Post_validate p = true -> slugTaken p st = false ->
  createPost now data st = (Ok p, addPost p st).
Proof.
  intros p Hnd Hv Hs. unfold createPost, Post_create. db_unfold.
  rewrite bool_decide_eq_false_2 by exact Hnd.
  fold p. rewrite Hv, Hs. reflexivity.
Qed.

(** ** Role checks *)

Definition forbiddenSuperAdmin : JsError := AppError "Forbidden (super admin only)" 403.

(** C9.  For a request that [protect] has authenticated: with the role
    admin, the super-admin check throws Forbidden (so the user list
    answers Forbidden) while the admin check passes (so author create
    goes on to validation and the controller); with the role
    super_admin both checks pass. *)
Theorem role_checks (now : Date) (req0 req : AuthRequest) (u : AuthUser) (st : Store)
    (query : gmap string QVal) (body : CreateAuthorData) :
  protect now req0 st = (Ok req, st) ->
  user req = Some u ->
  (authRole u = "admin" ->
     superAdminOnly req st = (Throw forbiddenSuperAdmin, st)
     /\ isForbidden forbiddenSuperAdmin
     /\ userRoutes_list now req0 query st = (Throw forbiddenSuperAdmin, st)
     /\ adminOnly req st = (Ok req, st)
     /\ authorRoutes_create now req0 body st
        = (_ ← validate createAuthorSchema body; createAuthor now body) st)
  /\ (authRole u = "super_admin" ->
        superAdminOnly req st = (Ok req, st)
        /\ adminOnly req st = (Ok req, st)
        /\ userRoutes_list now req0 query st = getUsers query st
        /\ authorRoutes_create now req0 body st
           = (_ ← validate createAuthorSchema body; createAuthor now body) st).
Proof.
  intros Hprot Huser.
  assert (Hrole : requestRole req = Some (authRole u))
    by (unfold requestRole; rewrite Huser; reflexivity).
  split; intros Hr; rewrite Hr in Hrole.
  - assert (Hs : superAdminOnly req st = (Throw forbiddenSuperAdmin, st))
      by (unfold superAdminOnly; rewrite Hrole; reflexivity).
    assert (Ha : adminOnly req st = (Ok req, st))
      by (unfold adminOnly; rewrite Hrole; reflexivity).
    split; [exact Hs|]. split; [reflexivity|]. split; [|split; [exact Ha|]].
    + unfold userRoutes_list. unfold mbind at 1, Db_bind. rewrite Hprot.
      unfold mbind at 1, Db_bind. rewrite Hs. reflexivity.
    + unfold authorRoutes_create. unfold mbind at 1, Db_bind. rewrite Hprot.
      unfold mbind at 1, Db_bind. rewrite Ha. reflexivity.
  - assert (Hs : superAdminOnly req st = (Ok req, st))
      by (unfold superAdminOnly; rewrite Hrole; reflexivity).
    assert (Ha : adminOnly req st = (Ok req, st))
      by (unfold adminOnly; rewrite Hrole; reflexivity).
    split; [exact Hs|]. split; [exact Ha|]. split.
    + unfold userRoutes_list. unfold mbind at 1, Db_bind. rewrite Hprot.
      unfold mbind at 1, Db_bind. rewrite Hs. reflexivity.
    + unfold authorRoutes_create. unfold mbind at 1, Db_bind. rewrite Hprot.
      unfold mbind at 1, Db_bind. rewrite Ha. reflexivity.
Qed.

(** ** Authentication does not read the store *)

(** [protect] never writes the store, and its outcome at a given time is
    the same in every store. *)
Lemma protect_reads_no_store (now : Date) (req : AuthRequest) (st1 st2 : Store) :
  (protect now req st1).1 = (protect now req st2).1
  /\ (protect now req st1).2 = st1.
Proof.
  unfold protect. destruct (authorization req) as [auth|]; [|split; reflexivity].
  destruct (negb _); [split; reflexivity|].
  destruct (jwt_verify _ _ _); split; reflexivity.
Qed.

Lemma jwt_verify_payload (tok secret : string) (now : Date) (p : TokenPayload) :
  jwt_verify tok secret now = Ok p ->
  exists j, jwt_decode tok = Some j /\ payload j = p
            /\ signedWith j = secret /\ seconds now < exp j.
Proof.
  unfold jwt_verify. destruct (jwt_decode tok) as [j|]; [|discriminate].
  destruct (JsString.isEmpty secret); [discriminate|].
  destruct (String.eqb_spec (signedWith j) secret) as [E|]; simpl; [|discriminate].
  destruct (Z.leb_spec (exp j) (seconds now)); [discriminate|].
  intros [= <-]. exists j. repeat split; assumption.
Qed.

(** A token that [signToken] issued passes [protect] until it expires,
    and the identity attached is the payload that was signed; this holds
    for a codec that reads back what it wrote and writes no space. *)
Lemma protect_issued_token (now now' : Date) (p : TokenPayload) (d : Z)
    (req : AuthRequest) (st : Store) :
  let j := {| payload := p; iat := seconds now; exp := seconds now + d;
              signedWith := JWT_SECRET env |} in
  JWT_SECRET env <> "" ->
  timespan (JWT_EXPIRES_IN env) = Some d ->
  jwt_decode (jwt_encode j) = Some j ->
  JsString.splitSpace ("Bearer " ++ jwt_encode j) !! 1%nat = Some (jwt_encode j) ->
  seconds now' < seconds now + d ->
  authorization req = Some ("Bearer " ++ jwt_encode j) ->
  signToken now p = Ok (jwt_encode j)
  /\ protect now' req st
     = (Ok {| authorization := authorization req;
              user := Some {| authUserId := userId p; authRole := tokenRole p |} |}, st).
Proof.
  intros j Hkey Hspan Hdec Hsplit Hexp Hauth. split.
  - unfold signToken, jwt_sign. rewrite (isEmpty_false _ Hkey), Hspan. reflexivity.
  - assert (Hpre : JsString.startsWith "Bearer " ("Bearer " ++ jwt_encode j) = true)
      by (unfold JsString.startsWith; simpl; destruct (jwt_encode j); reflexivity).
    unfold protect. rewrite Hauth, Hpre, Hsplit. simpl.
    unfold jwt_verify. rewrite Hdec, (isEmpty_false _ Hkey). simpl.
    rewrite String.eqb_refl. simpl.
    destruct (Z.leb_spec (seconds now + d) (seconds now')); [lia|]. reflexivity.
Qed.

(** C10.  Two requests that bear the same Authorization header and both
    pass [protect] (the token is valid and unexpired at both times),
    served at any two times against any two states of the store: the
    store is not written, the identity attached to the request is the
    same, and the admin and super-admin checks give the same outcome.
    The second store may be the first after the token's user has been
    deactivated or given another role.  Served at the same time, the two
    requests get the same outcome from [protect] even when it refuses
    them. *)
Theorem auth_independent_of_store (now1 now2 : Date) (req1 req2 r1 r2 : AuthRequest)
    (st1 st2 s1 s2 : Store) :
  authorization req1 = authorization req2 ->
  protect now1 req1 st1 = (Ok r1, s1) ->
  protect now2 req2 st2 = (Ok r2, s2) ->
  s1 = st1 /\ s2 = st2
  /\ user r1 = user r2
  /\ (protect now1 req1 st1).1 = (protect now1 req2 st2).1
  /\ (adminOnly r1 s1).1 = (adminOnly r2 s2).1
  /\ (superAdminOnly r1 s1).1 = (superAdminOnly r2 s2).1
  /\ allows (adminOnly r1) s1 = allows (adminOnly r2) s2
  /\ allows (superAdminOnly r1) s1 = allows (superAdminOnly r2) s2.
Proof.
  intros Hauth H1 H2.
  assert (Hsame : (protect now1 req1 st1).1 = (protect now1 req2 st2).1).
  { unfold protect. rewrite <- Hauth.
    destruct (authorization req1) as [auth|]; [|reflexivity].
    destruct (negb _); [reflexivity|].
    destruct (jwt_verify _ _ _); reflexivity. }
  unfold protect in H1, H2. rewrite <- Hauth in H2.
  destruct (authorization req1) as [auth|]; [|discriminate].
  destruct (negb _); [discriminate|].
  destruct (jwt_verify _ _ now1) as [p1|] eqn:V1; [|discriminate].
  destruct (jwt_verify _ _ now2) as [p2|] eqn:V2; [|discriminate].
  apply jwt_verify_payload in V1 as (j1 & D1 & <- & _).
  apply jwt_verify_payload in V2 as (j2 & D2 & <- & _).
  rewrite D1 in D2. injection D2 as <-.
  injection H1 as <- <-. injection H2 as <- <-.
  split; [reflexivity|]. split; [reflexivity|]. split; [reflexivity|].
  split; [exact Hsame|].
  unfold allows, adminOnly, superAdminOnly, requestRole. simpl.
  repeat split;
    repeat match goal with |- context [bool_decide ?P] => destruct (bool_decide P) end;
    reflexivity.
Qed.

(** * Further properties of the services *)

(** ** Credentials *)

Lemma findFirst_app_None {D : Type} (p : D -> bool) (l : list D) (x : D) :
  findFirst p l = None -> findFirst p (l ++ [x])%list = if p x then Some x else None.
Proof.
  unfold findFirst. induction l as [|d l IH]; simpl; [reflexivity|].
  destruct (p d); [discriminate|exact IH].
Qed.

(** What a successful [register] has done. *)
Lemma register_inv (now : Date) (data : RegisterData) (st st' : Store) (r : AuthResult) :
  register now data st = (Ok r, st') ->
  let u := newUser now (nextId st) (reg_name data) (reg_email data)
             (bcrypt_hash (reg_password data) 10) (default admin (reg_role data)) in
  User_findOne_email (reg_email data) st = None
  /\ User_validate u = true
  /\ st' = {| users := (users st ++ [u])%list; authors := authors st;
              posts := posts st; nextId := S (nextId st) |}
  /\ resultUser r = publicUser u
  /\ signToken now {| userId := ObjectId_toString (nextId st);
                      tokenRole := roleName (default admin (reg_role data)) |}
     = Ok (token r).
Proof.
  intros H u. unfold register, User_create in H. db_unfold.
  destruct (User_findOne_email (reg_email data) st) eqn:Ef; [discriminate|].
  fold u in H. destruct (User_validate u) eqn:Ev; simpl in H; [|discriminate].
  destruct (existsb _ (users st)); [discriminate|].
  simpl in H. destruct (signToken _ _) as [tok|] eqn:Es; [|discriminate].
  injection H as <- <-. repeat split; assumption.
Qed.

(** X1.  A login with an e-mail that no account has, or with a password
    that bcrypt does not accept for the account, is refused with one and
    the same 401 error, and the store is left as it was. *)
Theorem login_rejects_bad_credentials (now : Date) (data : LoginData) (st : Store) :
  (User_findOne_email (login_email data) st = None
   \/ exists u, User_findOne_email (login_email data) st = Some u
                /\ bcrypt_compare (login_password data) (User.password u) = false) ->
  login now data st = (Throw (AppError "Invalid email or password" 401), st).
Proof.
  intros [H|(u & H & Hpw)]; unfold login; db_unfold; rewrite H; [reflexivity|].
  rewrite Hpw. reflexivity.
Qed.

(** X2.  After a successful registration, a second registration with
    the same e-mail, up to letter case and surrounding white space and
    whatever its name, password and role, is refused with 409 and
    changes nothing. *)
Theorem register_twice_conflict (now now' : Date) (data data' : RegisterData)
    (st st' : Store) (r : AuthResult) :
  register now data st = (Ok r, st') ->
  emailSetter (reg_email data') = emailSetter (reg_email data) ->
  register now' data' st' = (Throw (AppError "Email already in use" 409), st').
Proof.
  intros H He. apply register_inv in H as (Hfree & _ & -> & _).
  unfold register. db_unfold.
  unfold User_findOne_email in *. simpl. rewrite He.
  rewrite (findFirst_app_None _ _ _ Hfree). simpl.
  rewrite String.eqb_refl. reflexivity.
Qed.

(** X3.  After a successful registration, a login with the same e-mail
    and password succeeds at any later time and answers with the same
    user (id, name, e-mail and role), provided bcrypt accepts the
    password for the hash it made of it. *)
Theorem register_then_login (now now' : Date) (data : RegisterData)
    (st st' : Store) (r : AuthResult) :
  register now data st = (Ok r, st') ->
  bcrypt_compare (reg_password data) (bcrypt_hash (reg_password data) 10) = true ->
  exists tok,
    login now' {| login_email := reg_email data; login_password := reg_password data |} st'
    = (Ok {| token := tok; resultUser := resultUser r |}, st')
    /\ signToken now' {| userId := ObjectId_toString (pu_id (resultUser r));
                         tokenRole := roleName (pu_role (resultUser r)) |} = Ok tok.
Proof.
  intros H Hpw. apply register_inv in H as (Hfree & _ & -> & Hr & Hs).
  unfold signToken, jwt_sign in Hs.
  destruct (JsString.isEmpty (JWT_SECRET env)) eqn:Ek; [discriminate|].
  destruct (timespan (JWT_EXPIRES_IN env)) as [d|] eqn:Et; [|discriminate].
  eexists. unfold login. db_unfold. simpl.
  unfold User_findOne_email in *. simpl. rewrite (findFirst_app_None _ _ _ Hfree). simpl.
  rewrite String.eqb_refl. simpl. rewrite Hpw. simpl.
  unfold signToken, jwt_sign. rewrite Ek, Et, Hr. simpl. split; reflexivity.
Qed.

(** ** The guards *)

(** X4.  [protect] never writes the store.  When it lets a request
    through, the Authorization header began with "Bearer ", the word
    after the first space verified as a token, and the identity it
    attached is the payload of that token; when it refuses, the error is
    a 401 with one of its two messages. *)
Theorem protect_outcomes (now : Date) (req : AuthRequest) (st : Store) :
  (protect now req st).2 = st
  /\ (forall r, (protect now req st).1 = Ok r ->
        exists auth p,
          authorization req = Some auth
          /\ JsString.startsWith "Bearer " auth = true
          /\ jwt_verify (default "" (JsString.splitSpace auth !! 1%nat)) (JWT_SECRET env) now
             = Ok p
          /\ r = {| authorization := Some auth;
                    user := Some {| authUserId := userId p; authRole := tokenRole p |} |})
  /\ (forall e, (protect now req st).1 = Throw e ->
        statusCode e = Some 401%nat
        /\ (message e = "Not authorized (missing token)"
            \/ message e = "Invalid or expired token")).
Proof.
  unfold protect. destruct (authorization req) as [auth|] eqn:Ea.
  2: { split; [reflexivity|]. split; [discriminate|].
       intros e [= <-]. split; [reflexivity|left; reflexivity]. }
  destruct (JsString.startsWith "Bearer " auth) eqn:Eb; simpl.
  2: { split; [reflexivity|]. split; [discriminate|].
       intros e [= <-]. split; [reflexivity|left; reflexivity]. }
  destruct (jwt_verify _ _ _) as [p|err] eqn:Ev; simpl.
  - split; [reflexivity|]. split; [|discriminate].
    intros r [= <-]. exists auth, p. repeat split; assumption.
  - split; [reflexivity|]. split; [discriminate|].
    intros e [= <-]. split; [reflexivity|right; reflexivity].
Qed.

(** X5.  A token that [signToken] issued at [now] for a lifetime of [d]
    seconds passes [protect] exactly as long as the clock (in whole
    seconds) is before [now + d]; this holds for a codec that reads back
    what it wrote and writes no space. *)
Theorem token_lifetime (now now' : Date) (p : TokenPayload) (d : Z)
    (req : AuthRequest) (st : Store) :
  let j := {| payload := p; iat := seconds now; exp := seconds now + d;
              signedWith := JWT_SECRET env |} in
  JWT_SECRET env <> "" ->
  timespan (JWT_EXPIRES_IN env) = Some d ->
  jwt_decode (jwt_encode j) = Some j ->
  JsString.splitSpace ("Bearer " ++ jwt_encode j) !! 1%nat = Some (jwt_encode j) ->
  authorization req = Some ("Bearer " ++ jwt_encode j) ->
  signToken now p = Ok (jwt_encode j)
  /\ (allows (protect now' req) st = true <-> seconds now' < seconds now + d)
  /\ (seconds now + d <= seconds now' ->
      protect now' req st = (Throw (AppError "Invalid or expired token" 401), st)).
Proof.
  intros j Hkey Hspan Hdec Hsplit Hauth.
  assert (Hlate : seconds now + d <= seconds now' ->
                  protect now' req st = (Throw (AppError "Invalid or expired token" 401), st)).
  { intros Hle.
    assert (Hpre : JsString.startsWith "Bearer " ("Bearer " ++ jwt_encode j) = true)
      by (unfold JsString.startsWith; simpl; destruct (jwt_encode j); reflexivity).
    unfold protect. rewrite Hauth, Hpre, Hsplit. simpl.
    unfold jwt_verify. rewrite Hdec, (isEmpty_false _ Hkey). simpl.
    rewrite String.eqb_refl. simpl.
    destruct (Z.leb_spec (seconds now + d) (seconds now')); [reflexivity|lia]. }
  split; [|split; [|exact Hlate]].
  - unfold signToken, jwt_sign. rewrite (isEmpty_false _ Hkey), Hspan. reflexivity.
  - split.
    + intros Hal. destruct (Z.lt_ge_cases (seconds now') (seconds now + d)) as [Hlt|Hge];
        [exact Hlt|].
      unfold allows in Hal. rewrite (Hlate Hge) in Hal. discriminate.
    + intros Hlt. unfold allows.
      rewrite (proj2 (protect_issued_token now now' p d req st Hkey Hspan Hdec Hsplit
                        Hlt Hauth)).
      reflexivity.
Qed.

(** X6.  The two role checks: the admin check passes exactly the roles
    "admin" and "super_admin"; whatever passes the super-admin check
    passes the admin check; a request without an identity is refused by
    both with 403; and neither check writes the store or alters the
    request. *)
Theorem role_hierarchy (req : AuthRequest) (st : Store) :
  (allows (adminOnly req) st = true
   <-> requestRole req = Some "admin" \/ requestRole req = Some "super_admin")
  /\ (allows (superAdminOnly req) st = true <-> requestRole req = Some "super_admin")
  /\ (allows (superAdminOnly req) st = true -> allows (adminOnly req) st = true)
  /\ (user req = None ->
      adminOnly req st = (Throw (AppError "Forbidden (admin only)" 403), st)
      /\ superAdminOnly req st = (Throw forbiddenSuperAdmin, st))
  /\ (forall r st', adminOnly req st = (Ok r, st') -> r = req /\ st' = st)
  /\ (forall r st', superAdminOnly req st = (Ok r, st') -> r = req /\ st' = st)
  /\ (adminOnly req st).2 = st /\ (superAdminOnly req st).2 = st.
Proof.
  assert (Hnone : user req = None -> requestRole req = None)
    by (unfold requestRole; intros ->; reflexivity).
  unfold allows, adminOnly, superAdminOnly.
  destruct (decide (requestRole req = Some "admin")) as [Ea|Ea];
    destruct (decide (requestRole req = Some "super_admin")) as [Es|Es];
    rewrite ?(bool_decide_eq_true_2 _ Ea), ?(bool_decide_eq_false_2 _ Ea),
            ?(bool_decide_eq_true_2 _ Es), ?(bool_decide_eq_false_2 _ Es); simpl;
    (split; [|split; [|split; [|split; [|split; [|split; [|split]]]]]]);
    try reflexivity; try tauto; try (split; intros; try discriminate; tauto);
    try (intros H; apply Hnone in H; congruence);
    try (intros r st' [= <- <-]; split; reflexivity);
    try (intros r st' H; discriminate).
Qed.

(** ** The stages of the list pipeline *)

Lemma lookup_without_reserved (rq : gmap string QVal) (k : string) (v : QVal) :
  foldr delete rq ApiFeatures.reserved !! k = Some v
  <-> (k ∉ ApiFeatures.reserved) /\ rq !! k = Some v.
Proof.
  unfold ApiFeatures.reserved. simpl.
  rewrite !lookup_delete_Some. rewrite !not_elem_of_cons. split.
  - intros (? & ? & ? & ? & ? & ?). repeat split; try congruence.
    apply not_elem_of_nil.
  - intros ((? & ? & ? & ? & ? & _) & ?). repeat split; congruence.
Qed.

(** X7.  The filter object that [filter] hands to [find]: it never has
    one of the keys page, limit, sort, order and q; with a non-empty
    allow-list each of its keys is on the list, except that an allowed,
    non-empty [tag] appears under the key [tags]; and each value is the
    request's value for that key (for [tags], the request's [tag]). *)
Theorem filterObject_allow_list (allowed : list string) (rq : gmap string QVal)
    (k : string) (v : QVal) :
  ApiFeatures.filterObject allowed rq !! k = Some v ->
  (k ∉ ApiFeatures.reserved)
  /\ (allowed <> [] -> k ∈ allowed \/ (k = "tags" /\ "tag" ∈ allowed))
  /\ (rq !! k = Some v
      \/ (k = "tags" /\ rq !! "tag" = Some v /\ JsValue.truthy (Some v) = true))
  /\ (k = "tag" -> v = QStr "").
Proof.
  unfold ApiFeatures.filterObject.
  set (q1 := foldr delete rq ApiFeatures.reserved).
  set (q2 := match allowed with [] => q1 | _ => _ end).
  assert (Hq2 : forall k v, q2 !! k = Some v ->
                  (k ∉ ApiFeatures.reserved) /\ rq !! k = Some v
                  /\ (allowed <> [] -> k ∈ allowed)).
  { intros k' v' H. subst q2. destruct allowed as [|a l].
    - apply lookup_without_reserved in H as [H1 H2].
      split; [exact H1|]. split; [exact H2|]. congruence.
    - apply map_lookup_filter_Some in H as [H Hin]. simpl in Hin.
      apply lookup_without_reserved in H as [H1 H2].
      split; [exact H1|]. split; [exact H2|]. intros _. exact Hin. }
  destruct (JsValue.truthy (q2 !! "tag")) eqn:Et.
  - destruct (q2 !! "tag") as [t|] eqn:Etag; [|discriminate]. simpl.
    intros H. apply lookup_delete_Some in H as [Hne H].
    apply lookup_insert_Some in H as [[<- <-]|[Hne2 H]].
    + destruct (Hq2 _ _ Etag) as (_ & Hrq & Hall).
      split; [|split; [|split]].
      * unfold ApiFeatures.reserved. rewrite !not_elem_of_cons.
        repeat split; try discriminate. apply not_elem_of_nil.
      * intros Ha. right. split; [reflexivity|exact (Hall Ha)].
      * right. repeat split; assumption.
      * discriminate.
    + destruct (Hq2 _ _ H) as (Hres & Hrq & Hall).
      split; [exact Hres|]. split; [intros Ha; left; exact (Hall Ha)|].
      split; [left; exact Hrq|]. congruence.
  - intros H. destruct (Hq2 _ _ H) as (Hres & Hrq & Hall).
    split; [exact Hres|]. split; [intros Ha; left; exact (Hall Ha)|].
    split; [left; exact Hrq|].
    intros ->. rewrite H in Et. simpl in Et.
    destruct v as [s| |]; try discriminate.
    destruct s; [reflexivity|discriminate].
Qed.

(** The search pattern: [String(q || "").trim()]. *)
Definition searchPattern (rq : gmap string QVal) : string :=
  JsString.trim (JsValue.toString (JsValue.orElse (rq !! "q") (QStr ""))).

(** X8.  [search] leaves the query as it is when [q] is absent, empty or
    blank, or when no field is given; otherwise it adds one [$or] clause
    with one alternative per field, in order, whose pattern is [q]
    without its surrounding white space, and that pattern is not
    empty. *)
Theorem search_clause (fields : list string) (f : ApiFeatures.t) :
  let q := searchPattern (ApiFeatures.reqQuery f) in
  (ApiFeatures.reqQuery f !! "q" = None -> ApiFeatures.search fields f = f)
  /\ (q = "" \/ fields = [] -> ApiFeatures.search fields f = f)
  /\ (q <> "" -> fields <> [] ->
      ApiFeatures.search fields f
      = ApiFeatures.withQuery
          (Query.find (FOr (List.map (fun fld => (fld, q)) fields)) (ApiFeatures.query f)) f
      /\ finds (ApiFeatures.query (ApiFeatures.search fields f))
         = (finds (ApiFeatures.query f) ++ [FOr (List.map (fun fld => (fld, q)) fields)])%list)
  /\ trimmed q.
Proof.
  intros q. unfold ApiFeatures.search. fold (searchPattern (ApiFeatures.reqQuery f)). fold q.
  split; [|split; [|split]].
  - intros Hq. assert (q = "") as -> by (subst q; unfold searchPattern; rewrite Hq; reflexivity).
    reflexivity.
  - intros [-> | ->]; [reflexivity|]. rewrite orb_true_r. reflexivity.
  - intros Hq Hf. rewrite (isEmpty_false _ Hq). destruct fields; [congruence|]. simpl.
    split; reflexivity.
  - apply trim_trimmed.
Qed.

(** The strings that [paginate] parses, for any default limit. *)
Definition limitParamWith (defaultLimit : Z) (rq : gmap string QVal) : string :=
  JsValue.toString
    (JsValue.orElse (rq !! "limit") (QStr (ApiFeatures.numToString defaultLimit))).

(** X9.  For any default and maximum limit with [1 <= maxLimit]: when
    the page and limit parameters read as the numbers [p] and [l], the
    page is [max p 1], the limit is [min (max l 1) maxLimit], both at
    least 1, the limit at most [maxLimit], and the offset is
    [(page - 1) * limit], which is not negative; the query receives this
    offset and limit.  This is stated for numbers within
    [Number.MAX_SAFE_INTEGER], the offset included, where the
    arithmetic of JavaScript is exact; the page, the limit and the
    offset are then within it too. *)
Theorem paginate_bounds (defaultLimit maxLimit p l : Z) (f : ApiFeatures.t) :
  1 <= maxLimit ->
  JsMath.safe defaultLimit -> JsMath.safe maxLimit ->
  JsMath.safe p -> JsMath.safe l ->
  JsMath.safe ((Z.max p 1 - 1) * Z.min (Z.max l 1) maxLimit) ->
  JsMath.parseInt (pageParam (ApiFeatures.reqQuery f)) = Num p ->
  JsMath.parseInt (limitParamWith defaultLimit (ApiFeatures.reqQuery f)) = Num l ->
  let f' := ApiFeatures.paginate defaultLimit maxLimit f in
  let page := Z.max p 1 in
  let limit := Z.min (Z.max l 1) maxLimit in
  ApiFeatures.page f' = Num page /\ ApiFeatures.limit f' = Num limit
  /\ ApiFeatures.skip f' = Num ((page - 1) * limit)
  /\ skipArg (ApiFeatures.query f') = Some (Num ((page - 1) * limit))
  /\ limitArg (ApiFeatures.query f') = Some (Num limit)
  /\ 1 <= page /\ 1 <= limit <= maxLimit /\ 0 <= (page - 1) * limit
  /\ JsMath.safe page /\ JsMath.safe limit /\ JsMath.safe ((page - 1) * limit).
Proof.
  intros Hm _ Hsm Hsp Hsl Hss Hp Hl f' page limit.
  unfold pageParam in Hp. unfold limitParamWith in Hl.
  subst f'. unfold ApiFeatures.paginate. simpl. rewrite Hp, Hl. simpl.
  fold page. fold limit.
  assert (Hpage : JsMath.safe page).
  { unfold JsMath.safe, JsMath.MAX_SAFE_INTEGER in *. subst page. simpl in *. lia. }
  assert (Hlimit : JsMath.safe limit).
  { unfold JsMath.safe, JsMath.MAX_SAFE_INTEGER in *. subst limit. simpl in *. lia. }
  assert (Hskip : 0 <= (page - 1) * limit) by (subst page limit; nia).
  split; [reflexivity|]. split; [reflexivity|]. split; [reflexivity|].
  split; [reflexivity|]. split; [reflexivity|].
  split; [lia|]. split; [lia|]. split; [exact Hskip|].
  split; [exact Hpage|]. split; [exact Hlimit|exact Hss].
Qed.


(** ** The list endpoints *)

(** The filter object at a key other than [tag] and [tags], for a
    non-empty allow-list. *)
Lemma filterObject_lookup (allowed : list string) (rq : gmap string QVal) (k : string) :
  allowed <> [] -> k <> "tag" -> k <> "tags" ->
  ApiFeatures.filterObject allowed rq !! k
  = if bool_decide (k ∈ allowed /\ k ∉ ApiFeatures.reserved) then rq !! k else None.
Proof.
  intros Ha Ht Hts. unfold ApiFeatures.filterObject.
  destruct allowed as [|a l]; [congruence|].
  set (q2 := base.filter _ _).
  assert (Hq2 : q2 !! k = if bool_decide (k ∈ a :: l /\ k ∉ ApiFeatures.reserved)
                          then rq !! k else None).
  { subst q2. apply option_eq. intros v.
    rewrite map_lookup_filter_Some, lookup_without_reserved. simpl.
    case_bool_decide as Hd.
    - tauto.
    - split; [tauto|discriminate]. }
  destruct (JsValue.truthy (q2 !! "tag")).
  - rewrite lookup_delete_ne, lookup_insert_ne by congruence. exact Hq2.
  - exact Hq2.
Qed.

Lemma In_applyLimit {D : Type} (q : MQuery) (l : list D) (d : D) :
  In d (applyLimit q l) -> In d l.
Proof.
  unfold applyLimit. destruct (limitArg q) as [n|]; [|tauto].
  destruct (optionCount n) as [|k]; [tauto|].
  intros H. rewrite <- (firstn_skipn (S k) l). apply in_or_app. left. exact H.
Qed.

Lemma In_applySkip {D : Type} (q : MQuery) (l : list D) (d : D) :
  In d (applySkip q l) -> In d l.
Proof.
  unfold applySkip. destruct (skipArg q) as [n|]; [|tauto].
  intros H. rewrite <- (firstn_skipn (optionCount n) l). apply in_or_app. right. exact H.
Qed.

(** What a list response says about the documents [docs] of a
    collection, for the find conditions of [X]: the store derives one
    predicate from them; [total] is the number of documents that
    satisfy it; [data] holds only such documents, when the store's
    ordering returns only documents it was given; [results] is the
    length of [data]; [totalPages] is computed from the total and the
    limit; and when the limit is a number it lies in [1, 100], [data] is
    no longer than the limit and [totalPages] is
    [max(ceil(total / limit), 1)]. *)
Definition listAnswer {D : Type} (compile : list FindArg -> option (D -> bool))
    (sortDocs : string -> list D -> list D) (X : ApiFeatures.t) (docs : list D)
    (r : ListResponse D) : Prop :=
  exists pred,
    compile (finds (ApiFeatures.query X)) = Some pred
    /\ resp_total r = List.length (List.filter pred docs)
    /\ ((forall k l d, In d (sortDocs k l) -> In d l) ->
        forall d, In d (resp_data r) -> In d docs /\ pred d = true)
    /\ resp_totalPages r = totalPagesOf (resp_total r) (resp_limit r)
    /\ resp_results r = List.length (resp_data r)
    /\ resp_limit r = ApiFeatures.limit (ApiFeatures.paginate 10 100 X)
    /\ (forall l, resp_limit r = Num l ->
          1 <= l <= 100
          /\ (List.length (resp_data r) <= Z.to_nat l)%nat
          /\ resp_totalPages r
             = Num (Z.max (JsMath.ceilQuot (Z.of_nat (resp_total r)) l) 1)).

Lemma listResponse_answer {D : Type} (compile : list FindArg -> option (D -> bool))
    (sortDocs : string -> list D -> list D) (X : ApiFeatures.t) (s : string)
    (docs : list D) (st st' : Store) (r : ListResponse D) :
  unpaged X ->
  listResponse compile sortDocs
    (ApiFeatures.paginate 10 100 (ApiFeatures.sort s X)) X docs st = (Ok r, st') ->
  st' = st /\ listAnswer compile sortDocs X docs r.
Proof.
  intros HX H.
  destruct (listResponse_spec _ _ _ _ _ _ _ _ HX H)
    as (-> & EF & (pred & Hpred & Htot) & Htp & Hres & Hlim & Hnum).
  split; [reflexivity|]. exists pred.
  split; [exact Hpred|]. split; [exact Htot|]. split.
  - intros Hsort d Hd.
    apply listResponse_ok in H as (_ & pc & pd & Hpc & Hpd & _ & _ & _ & _ & _ & Hdata).
    rewrite EF, Hpred in Hpd. injection Hpd as <-.
    rewrite Hdata in Hd. apply In_applyLimit, In_applySkip in Hd.
    unfold applySort in Hd. destruct (sortArg _) as [k|]; [apply Hsort in Hd|];
      apply filter_In in Hd; exact Hd.
  - split; [exact Htp|]. split; [exact Hres|]. split; [exact Hlim|exact Hnum].
Qed.

(** The find conditions of a list endpoint with a filter stage: the
    base scope, the filter object of the request, and at most one
    search clause. *)
Lemma scoped_finds (base : gmap string CondV) (allowed fields : list string)
    (rq : gmap string QVal) :
  exists rest,
    finds (ApiFeatures.query
             (ApiFeatures.search fields
                (ApiFeatures.filter allowed (ApiFeatures.new (Query.start base) rq))))
    = (FObj base :: FObj (CReq <$> ApiFeatures.filterObject allowed rq) :: rest)%list
    /\ (rest = []
        \/ rest = [FOr (List.map (fun fld => (fld, searchPattern rq)) fields)]).
Proof.
  unfold ApiFeatures.search.
  destruct (_ || _); simpl; eexists; split; try reflexivity; [left|right]; reflexivity.
Qed.

(** X11.  Each of the four list endpoints, when it answers, leaves the
    store untouched, and the find conditions it hands to the store are,
    in this order, its base scope, the filter object of the request
    (none for the user list) and at most one search clause.  The
    response satisfies [listAnswer] for these conditions: [total] is
    the number of documents that satisfy the predicate the store
    derives from them, whatever the page and limit; [data] holds only
    such documents; and [results], [totalPages] and the limit are
    related as [listAnswer] says.  A [status] parameter of the post
    list is part of its filter object, which comes after the scope's
    own condition on [status], so nothing is said here about deleted
    posts being left out then; the filter object of the author list has
    no [status] key. *)
Theorem list_endpoints_consistent :
  (forall query st st' r,
     getPosts query st = (Ok r, st') ->
     let X := ApiFeatures.search ["title"; "content"; "slug"]
                (ApiFeatures.filter ["status"; "author"; "tag"]
                   (ApiFeatures.new (Query.start notDeleted) (mapAuthorId query))) in
     let fo := ApiFeatures.filterObject ["status"; "author"; "tag"] (mapAuthorId query) in
     st' = st
     /\ (exists rest,
           finds (ApiFeatures.query X)
           = (FObj notDeleted :: FObj (CReq <$> fo) :: rest)%list
           /\ (rest = []
               \/ rest = [FOr (List.map (fun fld => (fld, searchPattern (mapAuthorId query)))
                                 ["title"; "content"; "slug"])]))
     /\ fo !! "status" = query !! "status"
     /\ listAnswer compilePost sortPosts X (posts st) r)
  /\ (forall authorId query st st' r,
        getPostsByAuthor authorId query st = (Ok r, st') ->
        exists oid,
          parseObjectId authorId = Some oid
          /\ let X := ApiFeatures.search ["title"; "content"; "slug"]
                        (ApiFeatures.filter ["status"; "tag"]
                           (ApiFeatures.new
                              (Query.start (<["author" := CId oid]> notDeleted)) query)) in
             let fo := ApiFeatures.filterObject ["status"; "tag"] query in
             st' = st
             /\ (exists rest,
                   finds (ApiFeatures.query X)
                   = (FObj (<["author" := CId oid]> notDeleted) :: FObj (CReq <$> fo)
                        :: rest)%list
                   /\ (rest = []
                       \/ rest = [FOr (List.map (fun fld => (fld, searchPattern query))
                                         ["title"; "content"; "slug"])]))
             /\ fo !! "status" = query !! "status"
             /\ listAnswer compilePost sortPosts X (posts st) r)
  /\ (forall query st st' r,
        getAuthors query st = (Ok r, st') ->
        let X := ApiFeatures.search ["name"; "email"]
                   (ApiFeatures.filter ["name"; "email"]
                      (ApiFeatures.new (Query.start notDeleted) query)) in
        let fo := ApiFeatures.filterObject ["name"; "email"] query in
        st' = st
        /\ (exists rest,
              finds (ApiFeatures.query X)
              = (FObj notDeleted :: FObj (CReq <$> fo) :: rest)%list
              /\ (rest = []
                  \/ rest = [FOr (List.map (fun fld => (fld, searchPattern query))
                                    ["name"; "email"])]))
        /\ fo !! "status" = None
        /\ listAnswer compileAuthor sortAuthors X (authors st) r)
  /\ (forall query st st' r,
        getUsers query st = (Ok r, st') ->
        let X := ApiFeatures.search ["name"; "email"]
                   (ApiFeatures.new (Query.start activeAdmins) query) in
        st' = st
        /\ (finds (ApiFeatures.query X) = [FObj activeAdmins]
            \/ finds (ApiFeatures.query X)
               = [FObj activeAdmins;
                  FOr (List.map (fun fld => (fld, searchPattern query)) ["name"; "email"])])
        /\ listAnswer compileUser sortUsers X (users st) r).
Proof.
  split; [|split; [|split]].
  - intros query st st' r H X fo. unfold getPosts in H.
    apply listResponse_answer in H as [-> H];
      [|apply unpaged_search, unpaged_filter, unpaged_new].
    split; [reflexivity|]. split; [apply scoped_finds|]. split; [|exact H].
    subst fo. rewrite filterObject_lookup by discriminate.
    rewrite bool_decide_eq_true_2
      by (apply (bool_decide_unpack _); vm_compute; exact I).
    unfold mapAuthorId. destruct (_ && _); [|reflexivity].
    rewrite lookup_insert_ne by discriminate. reflexivity.
  - intros authorId query st st' r H. unfold getPostsByAuthor in H.
    destruct (parseObjectId authorId) as [oid|]; [|discriminate].
    exists oid. split; [reflexivity|]. intros X fo.
    apply listResponse_answer in H as [-> H];
      [|apply unpaged_search, unpaged_filter, unpaged_new].
    split; [reflexivity|]. split; [apply scoped_finds|]. split; [|exact H].
    subst fo. rewrite filterObject_lookup by discriminate.
    rewrite bool_decide_eq_true_2
      by (apply (bool_decide_unpack _); vm_compute; exact I).
    reflexivity.
  - intros query st st' r H X fo. unfold getAuthors in H.
    apply listResponse_answer in H as [-> H];
      [|apply unpaged_search, unpaged_filter, unpaged_new].
    split; [reflexivity|]. split; [apply scoped_finds|]. split; [|exact H].
    subst fo. rewrite filterObject_lookup by discriminate.
    rewrite bool_decide_eq_false_2
      by (apply (bool_decide_unpack _); vm_compute; exact I).
    reflexivity.
  - intros query st st' r H X. unfold getUsers in H.
    apply listResponse_answer in H as [-> H]; [|apply unpaged_search, unpaged_new].
    split; [reflexivity|]. split; [|exact H].
    subst X. unfold ApiFeatures.search.
    destruct (_ || _); simpl; [left|right]; reflexivity.
Qed.

(** The size of a page: [results] is the limit, cut down to what is left
    of the matching documents after the offset. *)
Definition pageSizeSpec {D : Type} (r : ListResponse D) : Prop :=
  forall p l, resp_page r = Num p -> resp_limit r = Num l ->
    resp_results r
    = Nat.min (Z.to_nat l) (resp_total r - Z.to_nat ((p - 1) * l))
    /\ (resp_results r <= resp_total r)%nat
    /\ ((resp_total r <= Z.to_nat ((p - 1) * l))%nat -> resp_data r = []).

Lemma listResponse_pageSize {D : Type} (compile : list FindArg -> option (D -> bool))
    (sortDocs : string -> list D -> list D) (X : ApiFeatures.t) (s : string)
    (docs : list D) (st st' : Store) (r : ListResponse D) :
  (forall k l, List.length (sortDocs k l) = List.length l) ->
  unpaged X ->
  listResponse compile sortDocs
    (ApiFeatures.paginate 10 100 (ApiFeatures.sort s X)) X docs st = (Ok r, st') ->
  pageSizeSpec r.
Proof.
  intros Hsort [Hs Hl] H p l Hp Hlim.
  destruct (sort_preserves s X) as (Efinds & _ & _ & _ & [so Eso]).
  set (F := ApiFeatures.paginate 10 100 (ApiFeatures.sort s X)) in *.
  assert (EF : finds (ApiFeatures.query F) = finds (ApiFeatures.query X)) by exact Efinds.
  assert (ES : skipArg (ApiFeatures.query F) = Some (ApiFeatures.skip F)) by reflexivity.
  assert (EL : limitArg (ApiFeatures.query F) = Some (ApiFeatures.limit F)) by reflexivity.
  assert (EK : ApiFeatures.skip F
               = JsMath.mul (JsMath.sub (ApiFeatures.page F) (Num 1)) (ApiFeatures.limit F))
    by reflexivity.
  assert (EO : sortArg (ApiFeatures.query F) = Some so) by exact Eso.
  pose proof (paginate_limit_cases (ApiFeatures.sort s X)) as Hcases. fold F in Hcases.
  clearbody F.
  apply listResponse_ok in H
    as (-> & pc & pd & Hpc & Hpd & Hpage & Hlimit & Htot & _ & Hres & Hdata).
  rewrite EF, Hpc in Hpd. injection Hpd as <-.
  rewrite Hpage in Hp. rewrite Hlimit in Hlim.
  assert (Hb : 1 <= l <= 100) by (destruct Hcases as [HN|(l' & HL' & Hb)]; congruence).
  rewrite Hp, Hlim in EK. simpl in EK.
  assert (Htotal : resp_total r = List.length (List.filter pc docs)).
  { rewrite Htot. unfold applyLimit, applySkip. rewrite Hs, Hl. reflexivity. }
  assert (Hlen : resp_results r
                 = Nat.min (Z.to_nat l) (resp_total r - Z.to_nat ((p - 1) * l))).
  { rewrite Hres, Hdata, Htotal. unfold applyLimit, applySkip, applySort.
    rewrite EL, ES, EO, Hlim, EK. simpl.
    destruct (Z.to_nat l) as [|k] eqn:E; [lia|].
    rewrite length_take, length_drop, Hsort. reflexivity. }
  split; [exact Hlen|]. split; [lia|].
  intros Hpast. apply nil_length_inv. rewrite <- Hres, Hlen. lia.
Qed.

(** X12.  When the store's ordering keeps the number of documents, every
    list endpoint returns [min(limit, total - (page - 1) * limit)]
    documents for a numeric page and limit (none when the offset is past
    the total), and never more than [total]. *)
Theorem list_endpoints_page_size :
  (forall k l, List.length (sortPosts k l) = List.length l) ->
  (forall k l, List.length (sortAuthors k l) = List.length l) ->
  (forall k l, List.length (sortUsers k l) = List.length l) ->
  (forall query st st' r, getPosts query st = (Ok r, st') -> pageSizeSpec r)
  /\ (forall authorId query st st' r,
        getPostsByAuthor authorId query st = (Ok r, st') -> pageSizeSpec r)
  /\ (forall query st st' r, getAuthors query st = (Ok r, st') -> pageSizeSpec r)
  /\ (forall query st st' r, getUsers query st = (Ok r, st') -> pageSizeSpec r).
Proof.
  intros HP HA HU. split; [|split; [|split]].
  - intros query st st' r H. unfold getPosts in H.
    eapply listResponse_pageSize; [exact HP| |exact H].
    apply unpaged_search, unpaged_filter, unpaged_new.
  - intros authorId query st st' r H. unfold getPostsByAuthor in H.
    destruct (parseObjectId authorId); [|discriminate].
    eapply listResponse_pageSize; [exact HP| |exact H].
    apply unpaged_search, unpaged_filter, unpaged_new.
  - intros query st st' r H. unfold getAuthors in H.
    eapply listResponse_pageSize; [exact HA| |exact H].
    apply unpaged_search, unpaged_filter, unpaged_new.
  - intros query st st' r H. unfold getUsers in H.
    eapply listResponse_pageSize; [exact HU| |exact H].
    apply unpaged_search, unpaged_new.
Qed.

(** X13.  In the post list, [authorId] is an alias of [author]: it never
    reaches the filter itself; an [author] parameter that is present and
    not empty is the one used; otherwise a non-empty [authorId] is used
    as [author]. *)
Theorem authorId_alias (rq : gmap string QVal) :
  let fo := ApiFeatures.filterObject ["status"; "author"; "tag"] (mapAuthorId rq) in
  fo !! "authorId" = None
  /\ (JsValue.truthy (rq !! "author") = true -> fo !! "author" = rq !! "author")
  /\ (JsValue.truthy (rq !! "author") = false ->
      JsValue.truthy (rq !! "authorId") = true ->
      fo !! "author" = rq !! "authorId")
  /\ (JsValue.truthy (rq !! "authorId") = false -> fo !! "author" = rq !! "author").
Proof.
  intros fo. subst fo.
  rewrite !filterObject_lookup by discriminate.
  rewrite bool_decide_eq_false_2
    by (apply (bool_decide_unpack _); vm_compute; exact I).
  rewrite bool_decide_eq_true_2
    by (apply (bool_decide_unpack _); vm_compute; exact I).
  unfold mapAuthorId. split; [reflexivity|]. split; [|split].
  - intros ->. rewrite andb_false_r. reflexivity.
  - intros Ha Hb. rewrite Ha, Hb. simpl. rewrite lookup_insert_eq.
    destruct (rq !! "authorId"); [reflexivity|simpl in Hb; discriminate].
  - intros ->. reflexivity.
Qed.

(** X14.  The author-scoped post list refuses a path parameter that is
    not an ObjectId with 400, leaving the store untouched; otherwise its
    count query starts from the scope [{ author, status: { $ne: "deleted"
    } }], followed by the request's filter object, which has no [author]
    and no [_id] key (the request cannot name another author), followed
    by at most the search clause. *)
Theorem getPostsByAuthor_scope (authorId : string) (query : gmap string QVal) (st : Store) :
  (parseObjectId authorId = None ->
     getPostsByAuthor authorId query st = (Throw (AppError "Invalid author id" 400), st))
  /\ (forall oid, parseObjectId authorId = Some oid ->
        let fo := ApiFeatures.filterObject ["status"; "tag"] query in
        let X := ApiFeatures.search ["title"; "content"; "slug"]
                   (ApiFeatures.filter ["status"; "tag"]
                      (ApiFeatures.new (Query.start (<["author" := CId oid]> notDeleted))
                         query)) in
        fo !! "author" = None /\ fo !! "_id" = None
        /\ exists rest,
             finds (ApiFeatures.query X)
             = (FObj (<["author" := CId oid]> notDeleted) :: FObj (CReq <$> fo) :: rest)%list
             /\ (rest = []
                 \/ rest = [FOr (List.map (fun fld => (fld, searchPattern query))
                                   ["title"; "content"; "slug"])])).
Proof.
  split.
  - intros H. unfold getPostsByAuthor. rewrite H. reflexivity.
  - intros oid _ fo X. subst fo.
    rewrite !filterObject_lookup by discriminate.
    rewrite !bool_decide_eq_false_2
      by (apply (bool_decide_unpack _); vm_compute; exact I).
    split; [reflexivity|]. split; [reflexivity|].
    subst X. unfold ApiFeatures.search.
    destruct (_ || _); simpl; eexists; split; try reflexivity; [left|right]; reflexivity.
Qed.

(** ** Posts: dates, soft delete and the author guard *)

(** A post whose dates agree with its status: [publishedAt] is set
    exactly on a published post and [deletedAt] exactly on a deleted
    one. *)
Definition Post_consistent (p : Post.doc) : bool :=
  match Post.status p with
  | draft => bool_decide (Post.publishedAt p = None) && bool_decide (Post.deletedAt p = None)
  | published => bool_decide (Post.publishedAt p <> None) && bool_decide (Post.deletedAt p = None)
  | deleted => bool_decide (Post.publishedAt p = None) && bool_decide (Post.deletedAt p <> None)
  end.

Definition postsConsistent (st : Store) : Prop :=
  Forall (fun p => Post_consistent p = true) (posts st).

(** The body [{ status }]. *)
Definition statusOnly (s : PostStatus) : UpdatePostData :=
  {| up_title := None; up_slug := None; up_content := None; up_image := None;
     up_status := Some s; up_tags := None; up_author := None;
     up_publishedAt := None; up_deletedAt := None;
     up_set := None; up_operators := [] |}.

Lemma Forall_updateFirst {D : Type} (P : D -> Prop) (p : D -> bool) (f : D -> D)
    (l : list D) :
  Forall P l -> (forall d, p d = true -> P d -> P (f d)) -> Forall P (updateFirst p f l).
Proof.
  intros Hl Hf. induction Hl as [|x l Hx Hl IH]; simpl; [constructor|].
  destruct (p x) eqn:E; constructor; auto.
Qed.

Lemma updateFirst_ext {D : Type} (p : D -> bool) (f g : D -> D) (l : list D) :
  (forall d, f d = g d) -> updateFirst p f l = updateFirst p g l.
Proof.
  intros H. induction l as [|x l IH]; simpl; [reflexivity|].
  rewrite H, IH. reflexivity.
Qed.




(** A body of an update that leaves the dates to the service: no
    top-level [publishedAt] or [deletedAt] key, a [$set] key, if any,
    that assigns none of [status], [publishedAt] and [deletedAt], and no
    other update operator. *)
Definition datesLeftToService (data : UpdatePostData) : Prop :=
  up_publishedAt data = None /\ up_deletedAt data = None
  /\ up_operators data = []
  /\ (forall s, up_set data = Some s ->
        set_status s = None /\ set_publishedAt s = None /\ set_deletedAt s = None).

(** Keys that neither the top level nor the [$set] of an update
    document holds are not set. *)
Lemma castUpdate_absent (u : UpdatePostData) :
  (forall s, up_set u = Some s ->
     set_status s = None /\ set_publishedAt s = None /\ set_deletedAt s = None) ->
  (up_status u = None -> set_status (castUpdate u) = None)
  /\ (up_publishedAt u = None -> set_publishedAt (castUpdate u) = None)
  /\ (up_deletedAt u = None -> set_deletedAt (castUpdate u) = None).
Proof.
  intros H. unfold castUpdate. destruct (up_set u) as [s|].
  - destruct (H s eq_refl) as (E1 & E2 & E3).
    cbn [set_status set_publishedAt set_deletedAt]. rewrite E1, E2, E3.
    repeat split; intros ->; reflexivity.
  - cbn [set_status set_publishedAt set_deletedAt]. repeat split; intros ->; reflexivity.
Qed.

Lemma applyPostUpdate_consistent (now : Date) (data : UpdatePostData) (p : Post.doc) :
  datesLeftToService data ->
  Post_consistent p = true ->
  Post_consistent (applyPostUpdate now (updatePayload now data) p) = true.
Proof.
  intros (Hpa & Hda & _ & Hset) H.
  destruct (updatePayload_status now data) as (Hst & Hpub & Hdraft & Hdel).
  destruct (updatePayload_carries now data) as (Eset & _ & Hnone).
  destruct (castUpdate_top (updatePayload now data)) as (Cs & Cp & Cd).
  destruct (castUpdate_absent (updatePayload now data)) as (As & Ap & Ad).
  { rewrite Eset. exact Hset. }
  unfold applyPostUpdate, setPostPaths, Post_consistent.
  cbn [Post.status Post.publishedAt Post.deletedAt].
  destruct (up_status data) as [[| |]|] eqn:Es.
  - destruct (Hdraft eq_refl) as [Hp Hd].
    rewrite (Cs _ Hst), (Cp _ Hp), (Cd _ Hd). reflexivity.
  - destruct (Hpub eq_refl) as [Hp Hd].
    rewrite (Cs _ Hst), (Cp _ Hp), (Cd _ Hd). reflexivity.
  - destruct (Hdel eq_refl) as [Hp Hd].
    rewrite (Cs _ Hst), (Cp _ Hp), (Cd _ Hd). reflexivity.
  - destruct (Hnone eq_refl) as [Hp Hd]. rewrite Hpa in Hp. rewrite Hda in Hd.
    rewrite (As Hst), (Ap Hp), (Ad Hd). exact H.
Qed.

(** X15.  The dates of the stored posts stay in step with their status
    ([publishedAt] set exactly when published, [deletedAt] exactly when
    deleted) under [createPost] for a body without a [publishedAt] key,
    under [deletePost], and under [updatePost] for a body that leaves
    the dates to the service: one without top-level [publishedAt] and
    [deletedAt] keys, without update operators other than [$set], and
    whose [$set], if any, assigns none of [status], [publishedAt] and
    [deletedAt]; and this whether they succeed or throw. *)
Theorem posts_stay_consistent (st : Store) :
  postsConsistent st ->
  (forall now data, cp_publishedAt data = None ->
     postsConsistent (createPost now data st).2)
  /\ (forall now id data, datesLeftToService data ->
        postsConsistent (updatePost now id data st).2)
  /\ (forall now id, postsConsistent (deletePost now id st).2).
Proof.
  intros Hst. split; [|split].
  - intros now data Hpa. unfold createPost, Post_create. db_unfold.
    destruct (bool_decide (cp_status data = Some deleted)) eqn:Ed; [exact Hst|].
    apply bool_decide_eq_false in Ed.
    destruct (negb (Post_validate _)); [exact Hst|].
    destruct (slugTaken _ st); [exact Hst|].
    unfold postsConsistent. simpl. apply Forall_app. split; [exact Hst|].
    constructor; [|constructor].
    unfold Post_consistent, createPublishedAt. simpl. rewrite Hpa.
    destruct (cp_status data) as [[| |]|]; simpl; try reflexivity. congruence.
  - intros now id data Hd. unfold updatePost, Post_findOneAndUpdate. db_unfold.
    destruct (updatePayload_carries now data) as (_ & Eops & _).
    destruct Hd as (Hpa & Hda & Hops & Hset). rewrite Eops, Hops.
    destruct (negb (Post_validateUpdate _)); [exact Hst|].
    destruct (findFirst (livePost id) (posts st)); [|exact Hst].
    destruct (_ && _); [exact Hst|].
    unfold postsConsistent. simpl. apply Forall_updateFirst; [exact Hst|].
    intros q _ Hq. apply applyPostUpdate_consistent; [|exact Hq].
    exact (conj Hpa (conj Hda (conj Hops Hset))).
  - intros now id. unfold deletePost, Post_findOneAndUpdate. db_unfold.
    destruct (findFirst (livePost id) (posts st)); [|exact Hst].
    destruct (_ && _); [exact Hst|].
    unfold postsConsistent. simpl. apply Forall_updateFirst; [exact Hst|].
    intros q _ _. reflexivity.
Qed.


Lemma applyPostUpdate_statusOnly_deleted (now : Date) (p : Post.doc) :
  applyPostUpdate now (updatePayload now (statusOnly deleted)) p = markPostDeleted now p.
Proof. destruct p. reflexivity. Qed.

(** X17.  An update whose body has the top-level key [status:
    "deleted"], and no update operator other than [$set], is a soft
    delete: the post it returns has status deleted, [deletedAt] set to
    now and [publishedAt] null, whatever dates the body carried and
    whatever its [$set] key says; and with the body [{ status:
    "deleted" }] alone, [updatePost] succeeds exactly when [deletePost]
    does and leaves every store exactly as [deletePost] leaves it.  (A
    status that is set inside [$set] gets no dates from the service,
    which does not look inside it.) *)
Theorem update_to_deleted_is_delete (now : Date) (id : ObjectId) (st : Store) :
  (forall data st' p,
     up_status data = Some deleted ->
     up_operators data = [] ->
     updatePost now id data st = (Ok p, st') ->
     Post.status p = deleted /\ Post.deletedAt p = Some now /\ Post.publishedAt p = None)
  /\ (updatePost now id (statusOnly deleted) st).2 = (deletePost now id st).2
  /\ allows (updatePost now id (statusOnly deleted)) st = allows (deletePost now id) st.
Proof.
  split.
  - intros data st' p Hs Hops H.
    apply updatePost_ok in H as (p0 & _ & -> & _); [|exact Hops].
    destruct (updatePayload_status now data) as (Hst & _ & _ & Hdel).
    destruct (castUpdate_top (updatePayload now data)) as (Cs & Cp & Cd).
    destruct (Hdel Hs) as [Hp Hd]. rewrite Hs in Hst.
    unfold applyPostUpdate, setPostPaths. simpl.
    rewrite (Cs _ Hst), (Cp _ Hp), (Cd _ Hd). repeat split.
  - assert (E : updatePost now id (statusOnly deleted) st = deletePost now id st).
    { unfold updatePost, deletePost, Post_findOneAndUpdate. db_unfold. simpl.
      destruct (findFirst (livePost id) (posts st)) as [p0|]; [|reflexivity].
      rewrite applyPostUpdate_statusOnly_deleted.
      rewrite (updateFirst_ext _ _ (markPostDeleted now) _
                 (applyPostUpdate_statusOnly_deleted now)).
      reflexivity. }
    unfold allows. rewrite E. split; reflexivity.
Qed.

(** X18.  Whether [createPost] stores a post, and which posts are
    stored afterwards, does not depend on the authors collection, which
    it leaves as it is: a post can be created for an author that is
    deleted or does not exist. *)
Theorem createPost_does_not_check_author (now : Date) (data : CreatePostData)
    (st : Store) (l : list Author.doc) :
  allows (createPost now data) (setAuthors l st) = allows (createPost now data) st
  /\ posts (createPost now data (setAuthors l st)).2 = posts (createPost now data st).2
  /\ authors (createPost now data (setAuthors l st)).2 = l.
Proof.
  unfold allows, createPost, Post_create. db_unfold.
  destruct (bool_decide (cp_status data = Some deleted)); [repeat split|].
  change (nextId (setAuthors l st)) with (nextId st).
  destruct (negb (Post_validate _)); [repeat split|].
  change (slugTaken ?p (setAuthors l st)) with (slugTaken p st).
  destruct (slugTaken _ st); repeat split.
Qed.


(** ** Authors and users: soft delete and the flags that go with it *)

Definition Author_consistent (a : Author.doc) : bool :=
  match Author.status a with
  | active => bool_decide (Author.deletedAt a = None)
  | removed => bool_decide (Author.deletedAt a <> None)
  end.

Definition authorsConsistent (st : Store) : Prop :=
  Forall (fun a => Author_consistent a = true) (authors st).

Definition User_consistent (u : User.doc) : bool :=
  Bool.eqb (User.isActive u) (bool_decide (User.deletedAt u = None)).

Definition usersConsistent (st : Store) : Prop :=
  Forall (fun u => User_consistent u = true) (users st).

(** The body [{ status: "deleted" }] of an author update. *)
Definition authorStatusOnly (s : AuthorStatus) : UpdateAuthorData :=
  {| ua_name := None; ua_email := None; ua_bio := None;
     ua_status := Some s; ua_deletedAt := None;
     ua_set := None; ua_operators := [] |}.

Lemma liveAuthor_id (id : ObjectId) (a : Author.doc) :
  liveAuthor id a = true -> Author._id a = id /\ Author.status a <> removed.
Proof.
  unfold liveAuthor. intros H. apply andb_prop in H as [Hi Hs].
  apply Nat.eqb_eq in Hi. apply negb_true_iff, bool_decide_eq_false in Hs. auto.
Qed.


Lemma findFirst_exists {D : Type} (p : D -> bool) (l : list D) (d : D) :
  In d l -> p d = true -> exists d', findFirst p l = Some d'.
Proof.
  intros Hin Hp. unfold findFirst. destruct (List.find p l) as [d'|] eqn:E; [eauto|].
  rewrite (List.find_none _ _ E d Hin) in Hp. discriminate.
Qed.

Lemma NoDup_key_inj {D : Type} (key : D -> nat) (l : list D) (x y : D) :
  NoDup (List.map key l) -> In x l -> In y l -> key x = key y -> x = y.
Proof.
  induction l as [|z l IH]; simpl; [tauto|].
  intros Hnd Hx Hy Hk. inversion Hnd as [|? ? Hz Hnd']; subst.
  destruct Hx as [<-|Hx], Hy as [<-|Hy]; try reflexivity.
  - exfalso. apply Hz. rewrite Hk. apply list_elem_of_In, List.in_map. exact Hy.
  - exfalso. apply Hz. rewrite <- Hk. apply list_elem_of_In, List.in_map. exact Hx.
  - apply IH; assumption.
Qed.

Lemma findFirst_by_key {D : Type} (key : D -> nat) (l : list D) (d : D) :
  NoDup (List.map key l) -> In d l ->
  findFirst (fun x => (key x =? key d)%nat) l = Some d.
Proof.
  intros Hnd Hin.
  destruct (findFirst_exists (fun x => (key x =? key d)%nat) l d Hin (Nat.eqb_refl _))
    as [d' Hd'].
  rewrite Hd'. f_equal. apply findFirst_Some in Hd' as [Hin' Hk].
  apply Nat.eqb_eq in Hk. exact (NoDup_key_inj key l _ _ Hnd Hin' Hin Hk).
Qed.

Lemma In_updateFirst_other {D : Type} (p : D -> bool) (f : D -> D) (l : list D) (d : D) :
  In d l -> p d = false -> In d (updateFirst p f l).
Proof.
  induction l as [|x l IH]; simpl; [tauto|].
  intros [<-|Hin] Hp.
  - rewrite Hp. left. reflexivity.
  - destruct (p x); right; auto.
Qed.


(** A body of an author update that leaves the soft-delete fields
    alone: no top-level [status] or [deletedAt] key, a [$set] key, if
    any, that assigns neither, and no other update operator. *)
Definition statusLeftAlone (data : UpdateAuthorData) : Prop :=
  ua_status data = None /\ ua_deletedAt data = None
  /\ ua_operators data = []
  /\ (forall s, ua_set data = Some s -> aset_status s = None /\ aset_deletedAt s = None).

Lemma applyAuthorUpdate_consistent (now : Date) (data : UpdateAuthorData) (a : Author.doc) :
  statusLeftAlone data ->
  Author_consistent a = true ->
  Author_consistent (applyAuthorUpdate now data a) = true.
Proof.
  intros (Hs & Hd & _ & Hset) H.
  unfold applyAuthorUpdate, setAuthorPaths, Author_consistent, castAuthorUpdate.
  destruct (ua_set data) as [s|].
  - destruct (Hset s eq_refl) as (E1 & E2).
    cbn [Author.status Author.deletedAt aset_status aset_deletedAt].
    rewrite Hs, Hd, E1, E2. exact H.
  - cbn [Author.status Author.deletedAt aset_status aset_deletedAt].
    rewrite Hs, Hd. exact H.
Qed.

(** X21.  The [deletedAt] date of the stored authors stays in step with
    their status (set exactly on a deleted author) under [createAuthor],
    under [deleteAuthor] and under [updateAuthor] for a body that
    leaves the soft-delete fields alone: one without top-level [status]
    and [deletedAt] keys, without update operators other than [$set],
    and whose [$set], if any, assigns neither; and this whether they
    succeed or throw. *)
Theorem authors_stay_consistent (st : Store) :
  authorsConsistent st ->
  (forall now data, authorsConsistent (createAuthor now data st).2)
  /\ (forall now id data, statusLeftAlone data ->
        authorsConsistent (updateAuthor now id data st).2)
  /\ (forall now id, authorsConsistent (deleteAuthor now id st).2).
Proof.
  intros Hst. split; [|split].
  - intros now data. unfold createAuthor.
    destruct (negb (Author_validate _)); [exact Hst|].
    destruct (existsb _ _); [exact Hst|].
    unfold authorsConsistent. simpl. apply Forall_app. split; [exact Hst|].
    constructor; [reflexivity|constructor].
  - intros now id data Hd. unfold updateAuthor. db_unfold.
    destruct (negb (Author_validateUpdate _)); [exact Hst|].
    destruct (findFirst (liveAuthor id) (authors st)) as [a|] eqn:Ea; [|exact Hst].
    pose proof Hd as (_ & _ & Hops & _). rewrite Hops.
    destruct (_ && _); [exact Hst|].
    assert (Ha : Author_consistent (applyAuthorUpdate now data a) = true).
    { apply applyAuthorUpdate_consistent; [exact Hd|].
      apply findFirst_Some in Ea as [Hin _].
      unfold authorsConsistent in Hst. rewrite List.Forall_forall in Hst.
      exact (Hst a Hin). }
    unfold authorsConsistent. simpl. apply Forall_updateFirst; [exact Hst|].
    intros x _ _. exact Ha.
  - intros now id. unfold deleteAuthor, Author_save. db_unfold.
    destruct (findFirst (liveAuthor id) (authors st)); [|exact Hst].
    destruct (0 <? _)%nat; [exact Hst|].
    unfold authorsConsistent. simpl. apply Forall_updateFirst; [exact Hst|].
    intros x _ _. reflexivity.
Qed.

(** X22.  The update route is a way around the guard of [deleteAuthor].
    The body [{ status: "deleted" }] passes [updateAuthorSchema], which
    does not list [status], and [updateAuthor] applies it to an author
    that is not deleted without counting the author's posts: the author
    gets the status deleted while [deletedAt] stays as it was and the
    posts are untouched. *)
Theorem updateAuthor_can_delete (now : Date) (id : ObjectId) (st : Store) (a : Author.doc) :
  findFirst (liveAuthor id) (authors st) = Some a ->
  updateAuthorSchema (authorStatusOnly removed) = true
  /\ exists a' st',
       updateAuthor now id (authorStatusOnly removed) st = (Ok a', st')
       /\ Author._id a' = id
       /\ Author.status a' = removed
       /\ Author.deletedAt a' = Author.deletedAt a
       /\ In a' (authors st')
       /\ posts st' = posts st
       /\ activePostsCount id st' = activePostsCount id st.
Proof.
  intros Hfind. split; [reflexivity|].
  destruct (liveAuthor_id _ _ (proj2 (findFirst_Some _ _ _ Hfind))) as [Hid _].
  unfold updateAuthor. db_unfold. simpl. rewrite Hfind. simpl.
  rewrite String.eqb_refl. simpl.
  do 2 eexists. split; [reflexivity|]. simpl.
  split; [exact Hid|]. split; [reflexivity|]. split; [reflexivity|].
  split; [|split; reflexivity].
  exact (In_updateFirst (liveAuthor id)
           (fun _ => applyAuthorUpdate now (authorStatusOnly removed) a) _ a Hfind).
Qed.

Lemma register_store (now : Date) (data : RegisterData) (st : Store) :
  (register now data st).2 = st
  \/ exists u, (register now data st).2
               = {| users := (users st ++ [u])%list; authors := authors st;
                    posts := posts st; nextId := S (nextId st) |}
               /\ User.isActive u = true /\ User.deletedAt u = None.
Proof.
  unfold register, User_create. db_unfold.
  destruct (User_findOne_email _ st); [left; reflexivity|].
  destruct (negb (User_validate _)); [left; reflexivity|].
  destruct (existsb _ _); [left; reflexivity|].
  right. eexists. split.
  - destruct (signToken _ _); reflexivity.
  - split; reflexivity.
Qed.

(** X23.  The [deletedAt] date of the stored users stays in step with
    their [isActive] flag (set exactly on a deactivated account) under
    [register], [deactivateUser], [updateUserRole] and the super admin
    seed, whether they succeed or throw. *)
Theorem users_stay_consistent (st : Store) :
  usersConsistent st ->
  (forall now data, usersConsistent (register now data st).2)
  /\ (forall now id, usersConsistent (deactivateUser now id st).2)
  /\ (forall now id r, usersConsistent (updateUserRole now id r st).2)
  /\ (forall now, usersConsistent (seedSuperAdmin now st).2).
Proof.
  intros Hst. split; [|split; [|split]].
  - intros now data. destruct (register_store now data st) as [->|(u & -> & Ha & Hd)];
      [exact Hst|].
    unfold usersConsistent. simpl. apply Forall_app. split; [exact Hst|].
    constructor; [|constructor]. unfold User_consistent. rewrite Ha, Hd. reflexivity.
  - intros now id. unfold deactivateUser, User_findByIdAndUpdate. db_unfold.
    destruct (User_findById id st); [|exact Hst].
    unfold usersConsistent. simpl. apply Forall_updateFirst; [exact Hst|].
    intros x _ _. reflexivity.
  - intros now id r. unfold updateUserRole, User_findByIdAndUpdate. db_unfold.
    destruct (User_findById id st); [|exact Hst].
    unfold usersConsistent. simpl. apply Forall_updateFirst; [exact Hst|].
    intros x _ Hx. exact Hx.
  - intros now. unfold seedSuperAdmin, User_create, User_save. db_unfold.
    destruct (User_findOne_email SEED_email st) as [e|] eqn:E.
    + destruct (negb (User_validate _)); [exact Hst|].
      unfold usersConsistent. simpl. apply Forall_updateFirst; [exact Hst|].
      intros x _ _. unfold User_consistent, seedRefresh. simpl.
      apply findFirst_Some in E as [Hin _].
      unfold usersConsistent in Hst. rewrite List.Forall_forall in Hst.
      specialize (Hst e Hin). unfold User_consistent in Hst.
      destruct (_ || _); [reflexivity|exact Hst].
    + destruct (negb (User_validate _)); [exact Hst|].
      destruct (existsb _ _); [exact Hst|].
      unfold usersConsistent. simpl. apply Forall_app. split; [exact Hst|].
      constructor; [reflexivity|constructor].
Qed.

(** X24.  The super admin seed.  When the seed succeeds on a store with
    unique ids, the account found under the seed e-mail is active, has
    the role super_admin, the seed name and the hash of the seed
    password, whatever that account was before; every user with another
    e-mail is still stored unchanged; and if bcrypt accepts a password
    against its own hash and the server is configured, logging in with
    the seed credentials then succeeds for that account. *)
Theorem seedSuperAdmin_establishes_account (now : Date) (st st' : Store) :
  NoDup (List.map User._id (users st)) ->
  seedSuperAdmin now st = (Ok tt, st') ->
  exists u,
    User_findOne_email SEED_email st' = Some u
    /\ User.name u = SEED_name /\ User.role u = super_admin
    /\ User.isActive u = true
    /\ User.password u = bcrypt_hash SEED_password 10
    /\ (forall v, In v (users st) -> User.email v <> SEED_email -> In v (users st'))
    /\ (bcrypt_compare SEED_password (bcrypt_hash SEED_password 10) = true ->
        configured ->
        forall now', exists tok,
          login now' {| login_email := SEED_email; login_password := SEED_password |} st'
          = (Ok {| token := tok; resultUser := publicUser u |}, st')).
Proof.
  intros Hnd H.
  assert (Hlogin : forall u, User_findOne_email SEED_email st' = Some u ->
            User.password u = bcrypt_hash SEED_password 10 ->
            bcrypt_compare SEED_password (bcrypt_hash SEED_password 10) = true ->
            configured ->
            forall now', exists tok,
              login now' {| login_email := SEED_email; login_password := SEED_password |} st'
              = (Ok {| token := tok; resultUser := publicUser u |}, st')).
  { intros u Hu Hp Hb [Hkey [d Hd]] now'. unfold login. db_unfold. simpl.
    rewrite Hu, Hp, Hb. simpl. unfold signToken, jwt_sign.
    rewrite (isEmpty_false _ Hkey), Hd. eexists. reflexivity. }
  revert H. unfold seedSuperAdmin, User_create, User_save. db_unfold.
  destruct (User_findOne_email SEED_email st) as [e|] eqn:E.
  - destruct (negb (User_validate _)); [discriminate|]. intros H.
    pose (r := seedRefresh (bcrypt_hash SEED_password 10) e).
    pose (u := {| User._id := User._id e; User.name := User.name r;
                  User.email := User.email e;
                  User.password := bcrypt_hash SEED_password 10;
                  User.role := User.role r; User.isActive := User.isActive r;
                  User.deletedAt := User.deletedAt r;
                  User.createdAt := User.createdAt e; User.updatedAt := now |}).
    assert (Hst' : st' = setUsers (updateFirst (fun o => (User._id o =? User._id e)%nat)
                                     (fun _ => u) (users st)) st).
    { injection H as <-. reflexivity. }
    clear H. subst st'.
    unfold User_findOne_email in E.
    pose proof (findFirst_Some _ _ _ E) as [Hin Hmail].
    pose proof (findFirst_by_key User._id _ _ Hnd Hin) as Hbyid.
    assert (Hu : User_findOne_email SEED_email
                   (setUsers (updateFirst (fun o => (User._id o =? User._id e)%nat)
                                (fun _ => u) (users st)) st) = Some u).
    { unfold User_findOne_email. simpl.
      apply (findFirst_updateFirst_by _ _ (fun _ => u) _ _ Hbyid E). exact Hmail. }
    exists u. split; [exact Hu|].
    split; [|split; [|split; [|split; [reflexivity|split]]]].
    + subst u. unfold seedRefresh. simpl.
      destruct (String.eqb_spec (User.name e) SEED_name) as [->|]; simpl; [|reflexivity].
      destruct (_ || _); reflexivity.
    + subst u. unfold seedRefresh. simpl.
      destruct (negb (String.eqb _ _)); simpl; [reflexivity|].
      destruct (bool_decide_reflect (User.role e = SEED_role)) as [->|]; simpl;
        [|reflexivity].
      destruct (negb _); reflexivity.
    + subst u. unfold seedRefresh. simpl.
      destruct (negb (String.eqb _ _)); simpl; [reflexivity|].
      destruct (negb (bool_decide _)); simpl; [reflexivity|].
      destruct (User.isActive e); reflexivity.
    + intros v Hv Hne. simpl. apply In_updateFirst_other; [exact Hv|].
      apply Nat.eqb_neq. intros Hk.
      apply Hne. rewrite (NoDup_key_inj User._id _ _ _ Hnd Hv Hin Hk).
      apply String.eqb_eq in Hmail. exact Hmail.
    + apply Hlogin; [exact Hu|reflexivity].
  - destruct (negb (User_validate _)); [discriminate|].
    destruct (existsb _ _); [discriminate|]. intros H.
    pose (u := newUser now (nextId st) SEED_name SEED_email (bcrypt_hash SEED_password 10)
                 SEED_role).
    assert (Hst' : st' = {| users := (users st ++ [u])%list; authors := authors st;
                            posts := posts st; nextId := S (nextId st) |}).
    { injection H as <-. reflexivity. }
    clear H. subst st'.
    assert (Hu : User_findOne_email SEED_email
                   {| users := (users st ++ [u])%list; authors := authors st;
                      posts := posts st; nextId := S (nextId st) |} = Some u).
    { unfold User_findOne_email. simpl. rewrite (findFirst_app_None _ _ _ E).
      reflexivity. }
    exists u. split; [exact Hu|].
    split; [reflexivity|]. split; [reflexivity|]. split; [reflexivity|].
    split; [reflexivity|]. split.
    + intros v Hv _. simpl. apply in_or_app. left. exact Hv.
    + apply Hlogin; [exact Hu|reflexivity].
Qed.

(** ** Duplicate keys *)

(** X25.  Unique keys and the status code of a clash.  A slug stays
    reserved by every stored post, deleted ones included: creating a
    post whose slug, lower-cased and trimmed, is that of a stored post
    stores nothing and is answered with 500, since the error of the
    unique index carries no status code; the same holds for an author
    whose e-mail is that of a stored author.  [register] looks the
    e-mail up first and answers 409. *)
Theorem duplicate_key_status (now : Date) (st : Store) :
  (forall data q,
     In q (posts st) -> Post._id q <> nextId st ->
     Post.slug q = slugSetter (cp_slug data) ->
     cp_status data <> Some deleted ->
     httpStatus 201 (createPost now data) st = 500%nat
     /\ (createPost now data st).2 = st)
  /\ (forall data a,
        In a (authors st) -> Author.email a = emailSetter (ca_email data) ->
        httpStatus 201 (createAuthor now data) st = 500%nat
        /\ (createAuthor now data st).2 = st)
  /\ (forall data u,
        In u (users st) -> User.email u = emailSetter (reg_email data) ->
        httpStatus 201 (register now data) st = 409%nat
        /\ (register now data st).2 = st).
Proof.
  split; [|split].
  - intros data q Hin Hid Hslug Hnd.
    unfold httpStatus, createPost, Post_create. db_unfold.
    rewrite (bool_decide_eq_false_2 _ Hnd).
    destruct (negb (Post_validate _)); [split; reflexivity|].
    assert (Ht : slugTaken (newPost now (nextId st) data (createPublishedAt now data)
                              (imageOrDefault (cp_image data))) st = true).
    { unfold slugTaken. apply existsb_exists. exists q. split; [exact Hin|].
      simpl. rewrite Hslug, String.eqb_refl, andb_true_r.
      apply negb_true_iff, Nat.eqb_neq. exact Hid. }
    rewrite Ht. split; reflexivity.
  - intros data a Hin Hmail. unfold httpStatus, createAuthor.
    destruct (negb (Author_validate _)); [split; reflexivity|].
    assert (Ht : existsb (fun o => String.eqb (Author.email o) (emailSetter (ca_email data)))
                   (authors st) = true).
    { apply existsb_exists. exists a. split; [exact Hin|].
      rewrite Hmail. apply String.eqb_refl. }
    simpl. rewrite Ht. split; reflexivity.
  - intros data u Hin Hmail. unfold httpStatus, register. db_unfold.
    destruct (findFirst_exists
                (fun v => String.eqb (User.email v) (emailSetter (reg_email data)))
                (users st) u Hin) as [u' Hu'].
    { rewrite Hmail. apply String.eqb_refl. }
    unfold User_findOne_email. rewrite Hu'. split; reflexivity.
Qed.

(** ** The routes *)

(** The request passes [protect] and bears one of the roles. *)
Definition passes (now : Date) (req : AuthRequest) (roles : list string) (st : Store) : Prop :=
  exists req1 role,
    protect now req st = (Ok req1, st)
    /\ requestRole req1 = Some role /\ In role roles.

Lemma guarded_writes {A : Type} (now : Date) (req : AuthRequest) (check : Middleware)
    (roles : list string) (k : Db A) (st : Store) :
  (forall r s, (check r s).2 = s) ->
  (forall r r' s, check r s = (Ok r', s) ->
     exists role, requestRole r = Some role /\ In role roles) ->
  ((req1 ← protect now req; _ ← check req1; k) st).2 = st \/ passes now req roles st.
Proof.
  intros Hframe Hrole. db_unfold.
  destruct (protect_reads_no_store now req st st) as [_ Hp].
  destruct (protect now req st) as [[r|e] s] eqn:Ep; simpl in Hp; subst s;
    [|left; reflexivity].
  pose proof (Hframe r st) as Hc.
  destruct (check r st) as [[r'|e] s] eqn:Ec; simpl in Hc; subst s;
    [|left; reflexivity].
  right. destruct (Hrole _ _ _ Ec) as (role & Hr & Hin). exists r, role. auto.
Qed.

Lemma adminOnly_frame (r : AuthRequest) (s : Store) : (adminOnly r s).2 = s.
Proof. unfold adminOnly. destruct (_ && _); reflexivity. Qed.

Lemma superAdminOnly_frame (r : AuthRequest) (s : Store) : (superAdminOnly r s).2 = s.
Proof. unfold superAdminOnly. destruct (negb _); reflexivity. Qed.

Lemma adminOnly_role (r r' : AuthRequest) (s : Store) :
  adminOnly r s = (Ok r', s) ->
  exists role, requestRole r = Some role /\ In role ["admin"; "super_admin"].
Proof.
  unfold adminOnly.
  destruct (bool_decide_reflect (requestRole r = Some "admin")) as [E|_]; simpl.
  - intros _. exists "admin". split; [exact E|]. left. reflexivity.
  - destruct (bool_decide_reflect (requestRole r = Some "super_admin")) as [E|_]; simpl;
      [|discriminate].
    intros _. exists "super_admin". split; [exact E|]. right. left. reflexivity.
Qed.

Lemma superAdminOnly_role (r r' : AuthRequest) (s : Store) :
  superAdminOnly r s = (Ok r', s) ->
  exists role, requestRole r = Some role /\ In role ["super_admin"].
Proof.
  unfold superAdminOnly.
  destruct (bool_decide_reflect (requestRole r = Some "super_admin")) as [E|_]; simpl;
    [|discriminate].
  intros _. exists "super_admin". split; [exact E|]. left. reflexivity.
Qed.

(** X26.  No write without authorisation.  Each route that creates,
    updates or deletes a post or an author leaves the store as it was
    unless the request passes [protect] with a token whose role is admin
    or super_admin; the routes that deactivate a user or change a role
    leave it as it was unless the role is super_admin. *)
Theorem writes_need_authorisation (now : Date) (req : AuthRequest) (st : Store) :
  (forall body, (postRoutes_create now req body st).2 = st
                \/ passes now req ["admin"; "super_admin"] st)
  /\ (forall id body, (postRoutes_update now req id body st).2 = st
                      \/ passes now req ["admin"; "super_admin"] st)
  /\ (forall id, (postRoutes_delete now req id st).2 = st
                 \/ passes now req ["admin"; "super_admin"] st)
  /\ (forall body, (authorRoutes_create now req body st).2 = st
                   \/ passes now req ["admin"; "super_admin"] st)
  /\ (forall id body, (authorRoutes_update now req id body st).2 = st
                      \/ passes now req ["admin"; "super_admin"] st)
  /\ (forall id, (authorRoutes_delete now req id st).2 = st
                 \/ passes now req ["admin"; "super_admin"] st)
  /\ (forall id, (userRoutes_deactivate now req id st).2 = st
                 \/ passes now req ["super_admin"] st)
  /\ (forall id r, (userRoutes_role now req id r st).2 = st
                   \/ passes now req ["super_admin"] st).
Proof.
  repeat split; intros;
    first [ apply (guarded_writes now req adminOnly);
            [exact adminOnly_frame|exact adminOnly_role]
          | apply (guarded_writes now req superAdminOnly);
            [exact superAdminOnly_frame|exact superAdminOnly_role] ].
Qed.

(** X27.  The status code of a refused body.  The error handler never
    answers with status 0 or an empty message, and reports the code and
    message of an [AppError] as they are; an error without a status
    code becomes 500.  A body that the schema of [validate] rejects
    therefore gets the status 500, not 400, and what follows [validate]
    in the route does not run: the store is left as it was.  This is so
    on the register and login routes. *)
Theorem rejected_body_is_500 :
  (forall e, (0 < (errorHandler e).1)%nat
             /\ JsString.isEmpty (errorHandler e).2 = false)
  /\ (forall msg code, (0 < code)%nat -> msg <> "" ->
        errorHandler (AppError msg code) = (code, msg))
  /\ (forall msg, (errorHandler (LibError msg)).1 = 500%nat)
  /\ (forall (B A : Type) (schema : B -> bool) (body : B) (k : Db A) (ok : nat) (st : Store),
        schema body = false ->
        httpStatus ok (_ ← validate schema body; k) st = 500%nat
        /\ ((_ ← validate schema body; k) st).2 = st)
  /\ (forall now req body st,
        registerSchema body = false ->
        httpStatus 201 (authRoutes_register now req body) st = 500%nat
        /\ (authRoutes_register now req body st).2 = st)
  /\ (forall now req body st,
        loginSchema body = false ->
        httpStatus 200 (authRoutes_login now req body) st = 500%nat
        /\ (authRoutes_login now req body st).2 = st).
Proof.
  assert (Hgen : forall (B A : Type) (schema : B -> bool) (body : B) (k : Db A) (ok : nat)
                        (st : Store),
            schema body = false ->
            httpStatus ok (_ ← validate schema body; k) st = 500%nat
            /\ ((_ ← validate schema body; k) st).2 = st).
  { intros B A schema body k ok st H. unfold httpStatus, validate. db_unfold.
    rewrite H. split; reflexivity. }
  split; [|split; [|split; [|split; [|split]]]].
  - intros [msg [[|c]|]]; unfold errorHandler; simpl;
      (split; [lia|destruct msg; reflexivity]).
  - intros msg [|c] Hc Hm; [lia|]. unfold errorHandler. simpl.
    rewrite (isEmpty_false _ Hm). reflexivity.
  - reflexivity.
  - exact Hgen.
  - intros now req body st H. apply Hgen. exact H.
  - intros now req body st H. apply Hgen. exact H.
Qed.

(** ** Tags of a multipart body *)

Lemma stringsOf_ItemString (l : list string) : stringsOf (List.map ItemString l) = l.
Proof. unfold stringsOf. induction l as [|x l IH]; simpl; [reflexivity|]. f_equal. exact IH. Qed.

Lemma splitComma_acc_chars (s cur t : string) :
  ~ In ","%char (chars cur) -> In t (splitComma_acc s cur) -> ~ In ","%char (chars t).
Proof.
  revert cur. induction s as [|c r IH]; simpl; intros cur Hcur Ht.
  - destruct Ht as [<-|[]]. rewrite chars_reverse. exact Hcur.
  - destruct (Ascii.eqb_spec c ","%char) as [->|Hc].
    + destruct Ht as [<-|Ht].
      * rewrite chars_reverse. exact Hcur.
      * apply (IH EmptyString); [simpl; tauto|exact Ht].
    + apply (IH (String c cur)); [|exact Ht].
      simpl. intros [E|E]; [congruence|exact (Hcur E)].
Qed.

Lemma commaTags_spec (s t : string) :
  In t (commaTags s) -> t <> "" /\ trimmed t /\ ~ In ","%char (chars t).
Proof.
  unfold commaTags. intros H. apply filter_In in H as [H Hne].
  apply in_map_iff in H as (x & <- & Hx).
  split; [|split].
  - intros E. rewrite E in Hne. discriminate.
  - apply trim_trimmed.
  - intros Hc. apply chars_trim in Hc.
    exact (splitComma_acc_chars s EmptyString x (fun F => F) Hx Hc).
Qed.

(** X28.  [parseTags] gives no answer exactly on a value that is neither
    an array nor a string; an array keeps its strings, in order; a blank
    string gives no tags; any other string either is a JSON array,
    whose strings are kept, or is cut at the commas, and then every tag
    is trimmed, not empty and free of commas. *)
Theorem parseTags_cases (value : JsonVal) :
  (parseTags value = None
   <-> (forall l, value <> JArray l) /\ (forall s, value <> JString s))
  /\ (forall l, value = JArray l -> parseTags value = Some (stringsOf l))
  /\ (forall s, value = JString s -> JsString.trim s = "" -> parseTags value = Some [])
  /\ (forall s tags,
        value = JString s -> parseTags value = Some tags ->
        (exists l, JsString.startsWith "[" (JsString.trim s) = true
                   /\ JSON_parse (JsString.trim s) = Some (JArray l)
                   /\ tags = stringsOf l)
        \/ (forall t, In t tags -> t <> "" /\ trimmed t /\ ~ In ","%char (chars t))).
Proof.
  split; [|split; [|split]].
  - split.
    + intros H. split; intros x ->; simpl in H; [discriminate|].
      destruct (JsString.isEmpty _); [discriminate|].
      destruct (JsString.startsWith _ _); [|discriminate].
      destruct (JSON_parse _) as [[]|]; discriminate.
    + intros [Ha Hs]. destruct value; try reflexivity.
      * exfalso. exact (Hs s eq_refl).
      * exfalso. exact (Ha l eq_refl).
  - intros l ->. reflexivity.
  - intros s -> E. simpl. rewrite E. reflexivity.
  - intros s tags -> H. simpl in H.
    destruct (JsString.isEmpty (JsString.trim s)).
    { injection H as <-. right. intros t []. }
    destruct (JsString.startsWith "[" (JsString.trim s)) eqn:Eb.
    + destruct (JSON_parse (JsString.trim s)) as [[| | | |l|]|] eqn:Ej;
        try (injection H as <-; right; intros t Ht; exact (commaTags_spec _ _ Ht)).
      injection H as <-. left. exists l. repeat split.
    + injection H as <-. right. intros t Ht. exact (commaTags_spec _ _ Ht).
Qed.

(** X29.  [normalizePostPayload] turns a [tags] value that is an array
    or a string into an array of strings only, which is what
    [z.array(z.string())] accepts, leaves any other value and a body
    without the key alone, and is idempotent. *)
Theorem normalizeTags_idempotent (tags : option JsonVal) :
  normalizeTags (normalizeTags tags) = normalizeTags tags
  /\ (forall v, tags = Some v ->
        (exists l, v = JArray l) \/ (exists s, v = JString s) ->
        exists l, normalizeTags tags = Some (JArray (List.map ItemString l)))
  /\ (forall v, tags = Some v ->
        (forall l, v <> JArray l) -> (forall s, v <> JString s) ->
        normalizeTags tags = tags)
  /\ (tags = None -> normalizeTags tags = None).
Proof.
  assert (Hfix : forall l, normalizeTags (Some (JArray (List.map ItemString l)))
                           = Some (JArray (List.map ItemString l))).
  { intros l. simpl. rewrite stringsOf_ItemString. reflexivity. }
  split; [|split; [|split]].
  - destruct tags as [v|]; [|reflexivity].
    change (normalizeTags (Some v))
      with (match parseTags v with
            | Some parsed => Some (JArray (List.map ItemString parsed))
            | None => Some v
            end).
    destruct (parseTags v) as [parsed|] eqn:E.
    + apply Hfix.
    + unfold normalizeTags. rewrite E. reflexivity.
  - intros v -> [[l ->]|[s ->]].
    + eexists. reflexivity.
    + unfold normalizeTags. destruct (parseTags (JString s)) as [parsed|] eqn:E.
      * eexists. reflexivity.
      * simpl in E. destruct (JsString.isEmpty _); [discriminate|].
        destruct (JsString.startsWith _ _); [|discriminate].
        destruct (JSON_parse _) as [[]|]; discriminate.
  - intros v -> Ha Hs. destruct v; try reflexivity.
    + exfalso. exact (Hs s eq_refl).
    + exfalso. exact (Ha l eq_refl).
  - intros ->. reflexivity.
Qed.

(** ** The setters of the e-mail and slug paths *)

Lemma isWhiteSpace_lowerChar (c : ascii) :
  JsString.isWhiteSpace (JsString.lowerChar c) = JsString.isWhiteSpace c.
Proof. destruct c as [[] [] [] [] [] [] [] []]; vm_compute; reflexivity. Qed.

Lemma lowerChar_idempotent (c : ascii) :
  JsString.lowerChar (JsString.lowerChar c) = JsString.lowerChar c.
Proof. destruct c as [[] [] [] [] [] [] [] []]; vm_compute; reflexivity. Qed.

Lemma toLowerCase_idempotent (s : string) :
  JsString.toLowerCase (JsString.toLowerCase s) = JsString.toLowerCase s.
Proof.
  induction s as [|c s IH]; simpl; [reflexivity|].
  rewrite lowerChar_idempotent, IH. reflexivity.
Qed.

Lemma toLowerCase_trimStart (s : string) :
  JsString.toLowerCase (JsString.trimStart s) = JsString.trimStart (JsString.toLowerCase s).
Proof.
  induction s as [|c s IH]; simpl; [reflexivity|].
  rewrite isWhiteSpace_lowerChar. destruct (JsString.isWhiteSpace c); [exact IH|reflexivity].
Qed.

Lemma toLowerCase_rev_acc (s acc : string) :
  JsString.toLowerCase (JsString.rev_acc s acc)
  = JsString.rev_acc (JsString.toLowerCase s) (JsString.toLowerCase acc).
Proof.
  revert acc. induction s as [|c s IH]; simpl; intros acc; [reflexivity|].
  rewrite IH. reflexivity.
Qed.

Lemma toLowerCase_trim (s : string) :
  JsString.toLowerCase (JsString.trim s) = JsString.trim (JsString.toLowerCase s).
Proof.
  unfold JsString.trim, JsString.trimEnd, JsString.reverse.
  rewrite toLowerCase_rev_acc, toLowerCase_trimStart, toLowerCase_rev_acc,
    toLowerCase_trimStart. reflexivity.
Qed.

(** X30.  The setters of the [email] and [slug] paths ([lowercase] and
    [trim]) produce normal forms: applying them again changes nothing,
    and the result is trimmed.  The stored value of such a path is
    therefore found again by a lookup of itself, and an e-mail lookup
    does not depend on the letter case or the surrounding white space
    of the e-mail asked for. *)
Theorem setters_normalise (s : string) :
  emailSetter (emailSetter s) = emailSetter s
  /\ slugSetter (slugSetter s) = slugSetter s
  /\ trimmed (emailSetter s)
  /\ JsString.toLowerCase (emailSetter s) = emailSetter s
  /\ (forall st, User_findOne_email (emailSetter s) st = User_findOne_email s st)
  /\ (forall s' st, emailSetter s' = emailSetter s ->
        User_findOne_email s' st = User_findOne_email s st).
Proof.
  assert (Hidem : emailSetter (emailSetter s) = emailSetter s).
  { unfold emailSetter. rewrite <- toLowerCase_trim, toLowerCase_idempotent.
    rewrite trim_idempotent. reflexivity. }
  split; [exact Hidem|]. split; [exact Hidem|]. split; [|split; [|split]].
  - unfold emailSetter. rewrite toLowerCase_trim. apply trim_trimmed.
  - unfold emailSetter. apply toLowerCase_idempotent.
  - intros st. unfold User_findOne_email. rewrite Hidem. reflexivity.
  - intros s' st E. unfold User_findOne_email. rewrite E. reflexivity.
Qed.

End Server.

(** * The services under the reference instance *)

Module Run.

Definition login := login Reference.bcrypt_compare Reference.jwt_encode Reference.timespan Reference.env.

Definition authRoutes_register :=
  authRoutes_register Reference.bcrypt_hash Reference.jwt_encode Reference.timespan
    Reference.isEmail Reference.env.

Definition protect := protect Reference.jwt_decode Reference.env.

Definition compilePost := @Reference.compile Post.doc Reference.postField.
Definition sortPosts := @Reference.sortDocs Post.doc Post.createdAt.
Definition compileUser := @Reference.compile User.doc Reference.userField.
Definition sortUsers := @Reference.sortDocs User.doc User.createdAt.

Definition getPosts := getPosts compilePost sortPosts.

Definition userRoutes_list :=
  userRoutes_list Reference.jwt_decode Reference.env compileUser sortUsers.

Definition authorRoutes_create :=
  authorRoutes_create Reference.jwt_decode Reference.isEmail Reference.env.

(** One hundred and one drafts by Jane. *)
Definition draftNo (i : nat) : Post.doc :=
  {| Post._id := (100 + i)%nat;
     Post.title := "Draft " ++ ApiFeatures.numToString (Z.of_nat i);
     Post.slug := "draft-" ++ ApiFeatures.numToString (Z.of_nat i);
     Post.content := "Work in progress.";
     Post.image := DEFAULT_POST_IMAGE; Post.status := draft; Post.tags := [];
     Post.author := 10%nat; Post.publishedAt := None; Post.deletedAt := None;
     Post.createdAt := 1696000000000 + Z.of_nat i;
     Post.updatedAt := 1696000000000 + Z.of_nat i |}.

Definition manyDrafts : Store :=
  {| users := []; authors := [Sample.jane];
     posts := List.map draftNo (seq 0 101); nextId := 300%nat |}.

(** The request of an admin (Carol) with the token of her login at
    [t0], as [protect] passes it on. *)
Definition carolRequest : AuthRequest :=
  {| authorization := authorization (Sample.bearer (Sample.tokenOf Sample.carol Sample.t0));
     user := Some {| authUserId := "3"; authRole := "admin" |} |}.

(** The sample store after Carol has been given another role and then
    deactivated. *)
Definition afterDeactivation : Store :=
  (deactivateUser Sample.t1 3%nat (updateUserRole Sample.t1 3%nat super_admin Sample.store).2).2.

(** The sample store with Jane's two live posts deleted. *)
Definition postsDeleted : Store :=
  (deletePost Sample.t1 21%nat (deletePost Sample.t1 20%nat Sample.store).2).2.

Definition register :=
  register Reference.bcrypt_hash Reference.jwt_encode Reference.timespan Reference.env.

(** A stand-in for the server that refuses every update operator other
    than [$set]. *)
Definition serverUpdatePost (now : Date) (u : UpdatePostData) (p : Post.doc)
  : Outcome Post.doc :=
  Throw (LibError "MongoServerError").

Definition serverUpdateAuthor (now : Date) (u : UpdateAuthorData) (a : Author.doc)
  : Outcome Author.doc :=
  Throw (LibError "MongoServerError").

Definition updatePost := updatePost serverUpdatePost.

Definition updateAuthor := updateAuthor serverUpdateAuthor.

Definition isUrl (s : string) : bool :=
  JsString.startsWith "http://" s || JsString.startsWith "https://" s.

Definition seedSuperAdmin := seedSuperAdmin Reference.bcrypt_hash.

Definition compileAuthor := @Reference.compile Author.doc Reference.authorField.
Definition sortAuthors := @Reference.sortDocs Author.doc Author.createdAt.

(** A second registration under Mallory's e-mail, written otherwise. *)
Definition eve : RegisterData :=
  {| reg_name := "Eve"; reg_email := "  MALLORY@example.com ";
     reg_password := "whatever1"; reg_role := None |}.


(** A request for the second page of at most 250 posts. *)
Definition secondPage : gmap string QVal :=
  {[ "limit" := QStr "250"; "page" := QStr "2" ]}.

End Run.

(** ** Pagination on a non-numeric limit *)

(** C6 (as the code behaves on a non-numeric limit).  The post list
    requested with [limit=abc] over a collection of 101 live posts: the
    response carries the limit NaN and [totalPages] NaN, and its data
    holds all 101 posts, more than any limit the pipeline allows. *)
Theorem getPosts_non_numeric_limit :
  exists data,
    Run.getPosts {[ "limit" := QStr "abc" ]} Run.manyDrafts
    = (Ok {| resp_page := Num 1; resp_limit := NaN; resp_total := 101;
             resp_totalPages := NaN; resp_results := 101; resp_data := data |},
       Run.manyDrafts)
    /\ List.length data = 101%nat.
Proof. eexists. vm_compute. split; reflexivity. Qed.

(** With a numeric limit the same request is bounded. *)
Example getPosts_numeric_limit :
  exists data,
    Run.getPosts {[ "limit" := QStr "250"; "page" := QStr "2" ]} Run.manyDrafts
    = (Ok {| resp_page := Num 2; resp_limit := Num 100; resp_total := 101;
             resp_totalPages := Num 2; resp_results := 1; resp_data := data |},
       Run.manyDrafts)
    /\ data = [Run.draftNo 0].
Proof. eexists. vm_compute. split; reflexivity. Qed.

(** The search scenario of the specification: [q=express&page=1&limit=5]
    returns the posts whose title, content or slug contains "express". *)
Example getPosts_search :
  Run.getPosts {[ "q" := QStr "express"; "page" := QStr "1"; "limit" := QStr "5" ]}
    Sample.store
  = (Ok {| resp_page := Num 1; resp_limit := Num 5; resp_total := 1;
           resp_totalPages := Num 1; resp_results := 1; resp_data := [Sample.post1] |},
     Sample.store).
Proof. vm_compute. reflexivity. Qed.

(** Registering with [role = super_admin] and no credentials, then
    listing the users with the token received: the list is served. *)
Example register_then_list_users :
  (Run.authRoutes_register Sample.t0 Sample.anonymous Sample.mallory Sample.store).1
  = Ok {| token := "30.super_admin.1700000000.1700604800.s3cret";
          resultUser := {| pu_id := 30%nat; pu_name := "Mallory";
                           pu_email := "mallory@example.com";
                           pu_role := super_admin |} |}
  /\ allows
       (Run.userRoutes_list Sample.t1
          (Sample.bearer "30.super_admin.1700000000.1700604800.s3cret") ∅)
       (Run.authRoutes_register Sample.t0 Sample.anonymous Sample.mallory Sample.store).2
     = true.
Proof. vm_compute. split; reflexivity. Qed.

(** ** Runs on the sample data *)

(** Bob's account is deactivated; a login with his e-mail and password
    still answers with a token for his id and role. *)
Lemma login_of_deactivated_user :
  User_findById 2%nat Sample.store = Some Sample.bob
  /\ User.isActive Sample.bob = false
  /\ Run.login Sample.t0
       {| login_email := "bob@example.com"; login_password := "hunter22" |} Sample.store
     = (Ok {| token := Sample.tokenOf Sample.bob Sample.t0;
              resultUser := {| pu_id := 2%nat; pu_name := "Bob";
                               pu_email := "bob@example.com"; pu_role := admin |} |},
        Sample.store)
  /\ Sample.tokenOf Sample.bob Sample.t0 = "2.admin.1700000000.1700604800.s3cret".
Proof. vm_compute. repeat split. Qed.

Lemma login_ignores_isActive_witness :
  User.isActive Sample.bob = false
  /\ Run.login Sample.t0
       {| login_email := " Bob@Example.com"; login_password := "hunter22" |} Sample.store
     = (Ok {| token := Sample.tokenOf Sample.bob Sample.t0;
              resultUser := publicUser Sample.bob |}, Sample.store).
Proof.
  split; [reflexivity|].
  apply (login_ignores_isActive Reference.bcrypt_compare Reference.jwt_encode
           Reference.timespan Reference.env Sample.t0
           {| login_email := " Bob@Example.com"; login_password := "hunter22" |}
           Sample.store Sample.bob 604800).
  - vm_compute. reflexivity.
  - vm_compute. reflexivity.
  - discriminate.
  - vm_compute. reflexivity.
Defined.

Lemma deactivateUser_twice_witness :
  exists st1 st2,
    deactivateUser Sample.t1 3%nat Sample.store
    = (Ok (markUserInactive Sample.t1 Sample.carol), st1)
    /\ User_findById 3%nat st1 = Some (markUserInactive Sample.t1 Sample.carol)
    /\ User.isActive (markUserInactive Sample.t1 Sample.carol) = false
    /\ deactivateUser Sample.t2 3%nat st1
       = (Ok (markUserInactive Sample.t2 (markUserInactive Sample.t1 Sample.carol)), st2)
    /\ User_findById 3%nat st2
       = Some (markUserInactive Sample.t2 (markUserInactive Sample.t1 Sample.carol))
    /\ User.deletedAt (markUserInactive Sample.t2 (markUserInactive Sample.t1 Sample.carol))
       = Some Sample.t2.
Proof.
  apply (deactivateUser_twice Sample.t1 Sample.t2 3%nat Sample.store Sample.carol).
  vm_compute. reflexivity.
Defined.

(** Deleting a post or an author that is already deleted answers
    NotFound and changes nothing. *)
Example delete_twice_posts_authors :
  deletePost Sample.t1 22%nat Sample.store
  = (Throw (AppError "Post not found" 404), Sample.store)
  /\ deletePost Sample.t2 20%nat (deletePost Sample.t1 20%nat Sample.store).2
     = (Throw (AppError "Post not found" 404), (deletePost Sample.t1 20%nat Sample.store).2)
  /\ deleteAuthor Sample.t2 10%nat (deleteAuthor Sample.t1 10%nat Run.postsDeleted).2
     = (Throw (AppError "Author not found" 404),
        (deleteAuthor Sample.t1 10%nat Run.postsDeleted).2).
Proof. vm_compute. repeat split. Qed.

Lemma register_honours_role_witness :
  authorization Sample.anonymous = None
  /\ (Run.authRoutes_register Sample.t0 Sample.anonymous Sample.mallory Sample.store).1
     = Ok {| token := "30.super_admin.1700000000.1700604800.s3cret";
             resultUser := {| pu_id := 30%nat; pu_name := "Mallory";
                              pu_email := "mallory@example.com";
                              pu_role := super_admin |} |}.
Proof.
  split; [reflexivity|].
  pose proof (register_honours_role Reference.bcrypt_hash Reference.jwt_encode
                Reference.timespan Reference.isEmail Reference.env Sample.t0
                Sample.anonymous Sample.mallory Sample.store 604800) as H.
  destruct H as [H _].
  - vm_compute. reflexivity.
  - vm_compute. reflexivity.
  - reflexivity.
  - discriminate.
  - vm_compute. reflexivity.
  - unfold Run.authRoutes_register. rewrite H. vm_compute. reflexivity.
Defined.


(** The same scenario from an empty database: create the author Jane,
    create a draft by her, fail to delete her, delete the draft, delete
    her. *)
Example author_scenario :
  let empty := {| users := []; authors := []; posts := []; nextId := 1%nat |} in
  let st1 := (createAuthor Sample.t0
                {| ca_name := "Jane"; ca_email := "jane@x.com"; ca_bio := None |} empty).2 in
  let st2 := (createPost Sample.t0
                {| cp_title := "First post"; cp_slug := "first-post";
                   cp_content := "Hello from Jane."; cp_image := None;
                   cp_status := Some draft; cp_tags := None; cp_author := 1%nat;
                   cp_publishedAt := None |} st1).2 in
  let st3 := (deletePost Sample.t1 2%nat st2).2 in
  Author.status <$> Author_findById 1%nat st2 = Some active
  /\ Post.status <$> Post_findById 2%nat st2 = Some draft
  /\ deleteAuthor Sample.t1 1%nat st2 = (Throw referentialConflict, st2)
  /\ Post.status <$> Post_findById 2%nat st3 = Some deleted
  /\ Author.status <$> Author_findById 1%nat (deleteAuthor Sample.t2 1%nat st3).2
     = Some removed
  /\ allows (deleteAuthor Sample.t2 1%nat) st3 = true.
Proof. vm_compute. repeat split. Qed.

(** Publishing the first sample post with the body [{ status:
    "published" }]. *)
Example updatePost_status_dates_example :
  exists p st',
    Run.updatePost Sample.t1 20%nat Sample.publish Sample.store = (Ok p, st')
    /\ Post_findById 20%nat st' = Some p
    /\ Post.status p = published /\ Post.publishedAt p = Some Sample.t1
    /\ Post.deletedAt p = None.
Proof.
  exists (applyPostUpdate Sample.t1 (updatePayload Sample.t1 Sample.publish) Sample.post1),
         (Run.updatePost Sample.t1 20%nat Sample.publish Sample.store).2.
  assert (H : Run.updatePost Sample.t1 20%nat Sample.publish Sample.store
              = (Ok (applyPostUpdate Sample.t1 (updatePayload Sample.t1 Sample.publish)
                       Sample.post1),
                 (Run.updatePost Sample.t1 20%nat Sample.publish Sample.store).2))
    by (vm_compute; reflexivity).
  split; [exact H|].
  destruct (updatePost_status_dates Run.serverUpdatePost Sample.t1 20%nat Sample.publish
              Sample.store _ _ eq_refl H)
    as ((_ & _ & Hfind) & Hpub & _).
  split.
  - apply Hfind. apply (bool_decide_unpack _). vm_compute. exact I.
  - destruct Hpub as (H1 & H2 & _ & H3); [reflexivity|]. repeat split; assumption.
Qed.

(** The first sample post, a draft, published with the body
    [{ "$set": { "status": "published" } }]: it is stored as published
    with [publishedAt] null. *)
Lemma updatePost_set_status_keeps_dates_witness :
  Post.status Sample.post1 = draft
  /\ exists p st',
       Run.updatePost Sample.t1 20%nat (setStatusOnly published) Sample.store = (Ok p, st')
       /\ In p (posts st')
       /\ Post.status p = published /\ Post.publishedAt p = None
       /\ Post.deletedAt p = None.
Proof.
  split; [reflexivity|].
  destruct (updatePost_set_status_keeps_dates Run.serverUpdatePost Run.isUrl Sample.t1
              20%nat published Sample.store Sample.post1)
    as (_ & p & st' & H & _ & Hin & Hs & Hp & Hd & _).
  - vm_compute. reflexivity.
  - exists p, st'. split; [exact H|]. split; [exact Hin|]. split; [exact Hs|].
    split; [rewrite Hp; reflexivity|rewrite Hd; reflexivity].
Defined.

Lemma createPost_never_deleted_witness :
  createPost Sample.t0 Sample.deletedDraft Sample.store
  = (Throw (AppError "Cannot create a post with status 'deleted'" 400), Sample.store).
Proof.
  destruct (createPost_never_deleted Sample.t0 Sample.deletedDraft Sample.store)
    as (H & _).
  destruct H as (H & _); [reflexivity|exact H].
Defined.

Lemma role_checks_witness :
  Run.userRoutes_list Sample.t1 (Sample.bearer (Sample.tokenOf Sample.carol Sample.t0)) ∅
    Sample.store
  = (Throw forbiddenSuperAdmin, Sample.store)
  /\ adminOnly Run.carolRequest Sample.store = (Ok Run.carolRequest, Sample.store).
Proof.
  destruct (role_checks Reference.jwt_decode Reference.isEmail Reference.env
              Run.compileUser Run.sortUsers Sample.t1
              (Sample.bearer (Sample.tokenOf Sample.carol Sample.t0)) Run.carolRequest
              {| authUserId := "3"; authRole := "admin" |} Sample.store ∅
              {| ca_name := "Jo"; ca_email := "jo@x.com"; ca_bio := None |})
    as (H & _).
  - vm_compute. reflexivity.
  - reflexivity.
  - destruct H as (_ & _ & H1 & H2 & _); [reflexivity|]. split; assumption.
Defined.

(** A request with the token of Carol's login, served before and after
    her account is given another role and deactivated. *)
Lemma auth_independent_of_store_witness :
  User.isActive <$> User_findById 3%nat Run.afterDeactivation = Some false
  /\ User.role <$> User_findById 3%nat Run.afterDeactivation = Some super_admin
  /\ allows (adminOnly Run.carolRequest) Sample.store
     = allows (adminOnly Run.carolRequest) Run.afterDeactivation
  /\ allows (superAdminOnly Run.carolRequest) Sample.store
     = allows (superAdminOnly Run.carolRequest) Run.afterDeactivation.
Proof.
  split; [vm_compute; reflexivity|]. split; [vm_compute; reflexivity|].
  destruct (auth_independent_of_store Reference.jwt_decode Reference.env
              Sample.t1 Sample.t2
              (Sample.bearer (Sample.tokenOf Sample.carol Sample.t0))
              (Sample.bearer (Sample.tokenOf Sample.carol Sample.t0))
              Run.carolRequest Run.carolRequest
              Sample.store Run.afterDeactivation Sample.store Run.afterDeactivation)
    as (_ & _ & _ & _ & _ & _ & H1 & H2).
  - reflexivity.
  - vm_compute. reflexivity.
  - vm_compute. reflexivity.
  - split; assumption.
Defined.

(** ** Further runs on the sample data *)

Lemma Reference_insertBy_length {D : Type} (created : D -> Date) (desc : bool) (d : D)
    (l : list D) :
  List.length (Reference.insertBy created desc d l) = S (List.length l).
Proof.
  induction l as [|x l IH]; simpl; [reflexivity|].
  destruct (if desc then _ else _); simpl; congruence.
Qed.

(** The reference ordering keeps the number of documents. *)
Lemma Reference_sortDocs_length {D : Type} (created : D -> Date) (s : string) (l : list D) :
  List.length (Reference.sortDocs created s l) = List.length l.
Proof.
  unfold Reference.sortDocs.
  destruct (String.eqb s "-createdAt"); [|destruct (String.eqb s "createdAt")];
    try reflexivity;
    induction l as [|x l IH]; simpl; try reflexivity;
    rewrite Reference_insertBy_length, IH; reflexivity.
Qed.

(** A wrong password for Carol and an e-mail nobody has get the same
    answer. *)
Lemma login_rejects_bad_credentials_witness :
  Run.login Sample.t0
    {| login_email := "carol@example.com"; login_password := "letmein00" |} Sample.store
  = (Throw (AppError "Invalid email or password" 401), Sample.store)
  /\ Run.login Sample.t0
       {| login_email := "nobody@example.com"; login_password := "letmein99" |} Sample.store
     = (Throw (AppError "Invalid email or password" 401), Sample.store).
Proof.
  split;
    apply (login_rejects_bad_credentials Reference.bcrypt_compare Reference.jwt_encode
             Reference.timespan Reference.env).
  - right. exists Sample.carol. split; vm_compute; reflexivity.
  - left. vm_compute. reflexivity.
Defined.

(** After Mallory has registered, her e-mail in another spelling is
    taken. *)
Lemma register_twice_conflict_witness :
  Run.register Sample.t1 Run.eve (Run.register Sample.t0 Sample.mallory Sample.store).2
  = (Throw (AppError "Email already in use" 409),
     (Run.register Sample.t0 Sample.mallory Sample.store).2).
Proof.
  destruct (Run.register Sample.t0 Sample.mallory Sample.store) as [[r|e] st'] eqn:E.
  - apply (register_twice_conflict Reference.bcrypt_hash Reference.jwt_encode
             Reference.timespan Reference.env Sample.t0 Sample.t1 Sample.mallory Run.eve
             Sample.store st' r E).
    vm_compute. reflexivity.
  - vm_compute in E. discriminate E.
Defined.

(** After Mallory has registered, she can log in. *)
Lemma register_then_login_witness :
  exists tok,
    Run.login Sample.t1
      {| login_email := "Mallory@Example.com"; login_password := "opensesame" |}
      (Run.register Sample.t0 Sample.mallory Sample.store).2
    = (Ok {| token := tok;
             resultUser := {| pu_id := 30%nat; pu_name := "Mallory";
                              pu_email := "mallory@example.com";
                              pu_role := super_admin |} |},
       (Run.register Sample.t0 Sample.mallory Sample.store).2).
Proof.
  assert (E : Run.register Sample.t0 Sample.mallory Sample.store
              = (Ok {| token := "30.super_admin.1700000000.1700604800.s3cret";
                       resultUser := {| pu_id := 30%nat; pu_name := "Mallory";
                                        pu_email := "mallory@example.com";
                                        pu_role := super_admin |} |},
                 (Run.register Sample.t0 Sample.mallory Sample.store).2))
    by (vm_compute; reflexivity).
  destruct (register_then_login Reference.bcrypt_hash Reference.bcrypt_compare
              Reference.jwt_encode Reference.timespan Reference.env Sample.t0 Sample.t1
              Sample.mallory Sample.store _ _ E) as (tok & H & _).
  - vm_compute. reflexivity.
  - exists tok. exact H.
Defined.

(** The token of Carol's login at [t0], valid for seven days, passes
    [protect] ten minutes later. *)
Lemma token_lifetime_witness :
  allows (Run.protect Sample.t1 (Sample.bearer (Sample.tokenOf Sample.carol Sample.t0)))
    Sample.store = true.
Proof.
  destruct (token_lifetime Reference.jwt_encode Reference.jwt_decode Reference.timespan
              Reference.env Sample.t0 Sample.t1
              {| userId := "3"; tokenRole := "admin" |} 604800
              (Sample.bearer (Sample.tokenOf Sample.carol Sample.t0)) Sample.store)
    as (_ & [_ H] & _).
  - discriminate.
  - vm_compute. reflexivity.
  - vm_compute. reflexivity.
  - vm_compute. reflexivity.
  - reflexivity.
  - apply H. vm_compute. reflexivity.
Defined.

(** Of the parameters [status], [role] and [page], the post filter
    keeps [status]. *)
Lemma filterObject_allow_list_witness :
  ApiFeatures.filterObject ["status"; "author"; "tag"]
    {[ "status" := QStr "draft"; "role" := QStr "admin"; "page" := QStr "2" ]} !! "status"
  = Some (QStr "draft")
  /\ ("status" ∈ ["status"; "author"; "tag"]
      \/ "status" = "tags" /\ "tag" ∈ ["status"; "author"; "tag"]).
Proof.
  assert (H : ApiFeatures.filterObject ["status"; "author"; "tag"]
                {[ "status" := QStr "draft"; "role" := QStr "admin"; "page" := QStr "2" ]}
                !! "status" = Some (QStr "draft")) by (vm_compute; reflexivity).
  split; [exact H|].
  destruct (filterObject_allow_list _ _ _ _ H) as (_ & H2 & _).
  apply H2. discriminate.
Defined.

(** Page 3 with a limit of 250: the limit is cut to 100 and 200
    documents are skipped. *)
Lemma paginate_bounds_witness :
  let f := ApiFeatures.paginate 10 100
             (ApiFeatures.new (Query.start notDeleted)
                {[ "page" := QStr "3"; "limit" := QStr "250" ]}) in
  ApiFeatures.page f = Num 3 /\ ApiFeatures.limit f = Num 100
  /\ ApiFeatures.skip f = Num 200.
Proof.
  destruct (paginate_bounds 10 100 3 250
              (ApiFeatures.new (Query.start notDeleted)
                 {[ "page" := QStr "3"; "limit" := QStr "250" ]}))
    as (H1 & H2 & H3 & _).
  - lia.
  - vm_compute. split; discriminate.
  - vm_compute. split; discriminate.
  - vm_compute. split; discriminate.
  - vm_compute. split; discriminate.
  - vm_compute. split; discriminate.
  - vm_compute. reflexivity.
  - vm_compute. reflexivity.
  - split; [exact H1|]. split; [exact H2|exact H3].
Defined.


(** The second page of 101 drafts at a limit of 100 holds one post. *)
Lemma list_endpoints_page_size_witness :
  (Run.getPosts Run.secondPage Run.manyDrafts).1
  = Ok {| resp_page := Num 2; resp_limit := Num 100; resp_total := 101;
          resp_totalPages := Num 2; resp_results := 1; resp_data := [Run.draftNo 0] |}
  /\ 1%nat = Nat.min (Z.to_nat 100) (101 - Z.to_nat ((2 - 1) * 100)).
Proof.
  assert (E : Run.getPosts Run.secondPage Run.manyDrafts
              = (Ok {| resp_page := Num 2; resp_limit := Num 100; resp_total := 101;
                       resp_totalPages := Num 2; resp_results := 1;
                       resp_data := [Run.draftNo 0] |}, Run.manyDrafts))
    by (vm_compute; reflexivity).
  split; [rewrite E; reflexivity|].
  destruct (list_endpoints_page_size Run.compilePost Run.sortPosts Run.compileAuthor
              Run.sortAuthors Run.compileUser Run.sortUsers Reference.parseObjectId)
    as (H & _).
  - apply Reference_sortDocs_length.
  - apply Reference_sortDocs_length.
  - apply Reference_sortDocs_length.
  - destruct (H _ _ _ _ E 2 100 eq_refl eq_refl) as (H1 & _). exact H1.
Defined.

(** The sample posts have dates that agree with their status, and
    still have after a publication and a delete. *)
Lemma posts_stay_consistent_witness :
  postsConsistent Sample.store
  /\ postsConsistent (Run.updatePost Sample.t1 20%nat Sample.publish Sample.store).2
  /\ postsConsistent (deletePost Sample.t1 21%nat Sample.store).2.
Proof.
  assert (H : postsConsistent Sample.store)
    by (unfold postsConsistent; simpl; repeat constructor).
  split; [exact H|].
  destruct (posts_stay_consistent Run.serverUpdatePost Sample.store H) as (_ & Hu & Hd).
  split; [|apply Hd].
  apply Hu. split; [reflexivity|]. split; [reflexivity|]. split; [reflexivity|].
  intros s Hs. discriminate Hs.
Defined.




Lemma authors_stay_consistent_witness :
  authorsConsistent Sample.store
  /\ authorsConsistent (deleteAuthor Sample.t2 10%nat Run.postsDeleted).2
  /\ authorsConsistent
       (createAuthor Sample.t1
          {| ca_name := "Jo"; ca_email := "jo@x.com"; ca_bio := None |} Sample.store).2.
Proof.
  assert (H : authorsConsistent Sample.store)
    by (unfold authorsConsistent; simpl; repeat constructor).
  split; [exact H|]. split.
  - destruct (authors_stay_consistent Run.serverUpdateAuthor Run.postsDeleted)
      as (_ & _ & Hd).
    + unfold authorsConsistent. simpl. repeat constructor.
    + apply Hd.
  - destruct (authors_stay_consistent Run.serverUpdateAuthor Sample.store H) as (Hc & _).
    apply Hc.
Defined.

(** Jane has two live posts: [deleteAuthor] refuses, an update with the
    body [{ status: "deleted" }] goes through. *)
Lemma updateAuthor_can_delete_witness :
  deleteAuthor Sample.t1 10%nat Sample.store = (Throw referentialConflict, Sample.store)
  /\ exists a' st',
       Run.updateAuthor Sample.t1 10%nat (authorStatusOnly removed) Sample.store
       = (Ok a', st')
       /\ Author.status a' = removed
       /\ activePostsCount 10%nat st' = 2%nat.
Proof.
  split; [vm_compute; reflexivity|].
  destruct (updateAuthor_can_delete Reference.isEmail Run.serverUpdateAuthor Sample.t1
              10%nat Sample.store Sample.jane) as (_ & a' & st' & H & _ & Hs & _ & _ & _ & Hc).
  - vm_compute. reflexivity.
  - exists a', st'. split; [exact H|]. split; [exact Hs|]. rewrite Hc. reflexivity.
Defined.

Lemma users_stay_consistent_witness :
  usersConsistent Sample.store
  /\ usersConsistent (deactivateUser Sample.t1 3%nat Sample.store).2
  /\ usersConsistent (Run.seedSuperAdmin Sample.t1 Sample.store).2.
Proof.
  assert (H : usersConsistent Sample.store)
    by (unfold usersConsistent; simpl; repeat constructor).
  split; [exact H|].
  destruct (users_stay_consistent Reference.bcrypt_hash Reference.jwt_encode
              Reference.timespan Reference.env Sample.store H) as (_ & Hd & _ & Hs).
  split; [apply Hd|apply Hs].
Defined.

(** The seed on the sample store, which has no seed account yet. *)
Lemma seedSuperAdmin_establishes_account_witness :
  exists u tok,
    User_findOne_email SEED_email (Run.seedSuperAdmin Sample.t1 Sample.store).2 = Some u
    /\ User.role u = super_admin /\ User.isActive u = true
    /\ Run.login Sample.t2
         {| login_email := SEED_email; login_password := SEED_password |}
         (Run.seedSuperAdmin Sample.t1 Sample.store).2
       = (Ok {| token := tok; resultUser := publicUser u |},
          (Run.seedSuperAdmin Sample.t1 Sample.store).2).
Proof.
  assert (E : Run.seedSuperAdmin Sample.t1 Sample.store
              = (Ok tt, (Run.seedSuperAdmin Sample.t1 Sample.store).2))
    by (vm_compute; reflexivity).
  assert (Hnd : NoDup (List.map User._id (users Sample.store)))
    by (apply (bool_decide_unpack _); vm_compute; exact I).
  destruct (seedSuperAdmin_establishes_account Reference.bcrypt_hash
              Reference.bcrypt_compare Reference.jwt_encode Reference.timespan
              Reference.env Sample.t1 Sample.store _ Hnd E)
    as (u & Hu & _ & Hr & Ha & _ & _ & Hl).
  assert (Hb : Reference.bcrypt_compare SEED_password
                 (Reference.bcrypt_hash SEED_password 10) = true)
    by (vm_compute; reflexivity).
  assert (Hc : configured Reference.timespan Reference.env)
    by (split; [discriminate|eexists; vm_compute; reflexivity]).
  destruct (Hl Hb Hc Sample.t2) as (tok & Ht).
  exists u, tok. repeat split; assumption.
Defined.
